(** * mathmate-vision: annotation capture, history and chat bookkeeping

    A shallow embedding of the state handling of the React components
    [LiveScreenPreview] (circle and freehand variants), [Index] and
    [DavidChat].  Every [useState] cell is a field of a state record, every
    handler is a function on that record, and what a handler does to the
    outside (callbacks, toasts, canvas calls) is returned as data.  A handler
    reads the cells of the render that created it and its setters act on the
    state as it is when the handler runs; an asynchronous handler is cut at
    its [await], so that other handlers can run while it waits.

    JavaScript numbers are IEEE 754 binary64 values, so they are embedded as
    primitive floats; arrays are lists; [T | null] is [option T]. *)

From Stdlib Require Import PrimFloat List Bool Arith Lia NArith String Ascii.
From Stdlib Require Import FloatOps FloatAxioms SpecFloat ZArith DecimalString.
From Stdlib Require Import Sorted.
Import ListNotations.

(** ** JavaScript values *)

Module JS.

Abbreviation number := float (only parsing).

(** [Math.PI], the binary64 value nearest to pi. *)
Definition Math_PI : number := 0x1.921fb54442d18p+1%float.

Definition Math_sqrt (v : number) : number := PrimFloat.sqrt v.

(** [Math.pow(b, 2)]: for the exponent 2 the engines return the correctly
    rounded square of the base. *)
Definition Math_pow_2 (b : number) : number := (b * b)%float.

(** [Math.max(a, b)]: NaN if either argument is NaN, and +0 is larger
    than -0. *)
Definition Math_max (a b : number) : number :=
  if is_nan a || is_nan b then nan
  else if (a <? b)%float then b
  else if (b <? a)%float then a
  else if get_sign a then b else a.

(** Zeros and finite values, on the specification side of a number. *)
Definition sf_finite (v : spec_float) : bool :=
  match v with
  | S754_zero _ | S754_finite _ _ _ => true
  | S754_infinity _ | S754_nan => false
  end.

(** [a > b] on numbers (false as soon as one side is NaN). *)
Definition gt (a b : number) : bool := (b <? a)%float.

(** Strings are sequences of UTF-16 code units. *)
Definition code_unit := N.
Definition jsstring := list code_unit.

Definition lit (s : string) : jsstring :=
  map N_of_ascii (list_ascii_of_string s).

(** Truthiness of a string: every string but the empty one. *)
Definition truthy (s : jsstring) : bool :=
  match s with [] => false | _ :: _ => true end.

(** [a || b] on strings. *)
Definition or_else (a b : jsstring) : jsstring :=
  if truthy a then a else b.

(** WhiteSpace and LineTerminator code points of ECMAScript, the ones
    [String.prototype.trim] strips. *)
Definition isWhiteSpace (c : code_unit) : bool :=
  ((9 <=? c) && (c <=? 13) || (c =? 32) || (c =? 160) || (c =? 5760)
   || (8192 <=? c) && (c <=? 8202) || (c =? 8232) || (c =? 8233)
   || (c =? 8239) || (c =? 8287) || (c =? 12288) || (c =? 65279))%N.

Fixpoint trimStart (s : jsstring) : jsstring :=
  match s with
  | [] => []
  | c :: s' => if isWhiteSpace c then trimStart s' else s
  end.

Definition trimEnd (s : jsstring) : jsstring := rev (trimStart (rev s)).

Definition trim (s : jsstring) : jsstring := trimEnd (trimStart s).

(** [n.toString()] for a non-negative integer. *)
Definition toString (n : N) : jsstring :=
  lit (NilEmpty.string_of_uint (N.to_uint n)).

(** [arr.slice(b, e)] for indices [0 <= b], [0 <= e]. *)
Definition slice {A} (b e : nat) (l : list A) : list A :=
  firstn (e - b) (skipn b l).

(** [arr.forEach(f)] where [f] acts on a threaded state. *)
Definition forEach {A S} (f : A -> S -> S) (l : list A) (s : S) : S :=
  fold_left (fun acc a => f a acc) l s.

(** [for (let i = lo; i < hi; i++) body(i)]. *)
Definition for_range {S} (lo hi : nat) (body : nat -> S -> S) (s : S) : S :=
  fold_left (fun acc i => body i acc) (seq lo (hi - lo)) s.

End JS.

Import JS.

(** ** The browser objects the components touch *)

Module DOM.

Record MouseEvent := { clientX : number; clientY : number }.

(** The part of [getBoundingClientRect()] the handlers read. *)
Record DOMRect := { left : number; top : number }.

(** The part of an [HTMLVideoElement] the components read: the native
    size of the stream and the size the element is laid out at.
    [readyState] is 0 (HAVE_NOTHING) until data arrives; the native size
    is 0 until then. *)
Record HTMLVideoElement := {
  videoWidth : number;
  videoHeight : number;
  offsetWidth : number;
  offsetHeight : number;
  readyState : nat
}.

Definition track := nat.

(** A display stream; it is requested with [audio: false], so its tracks
    are its video tracks. *)
Record MediaStream := { videoTracks : list track }.

(** The current path of a 2D context: the path calls that took effect,
    with the arguments they were given. *)
Inductive segment :=
| MoveTo (x y : number)
| LineTo (x y : number)
| Arc (x y r startAngle endAngle : number).

Record Pen := {
  strokeStyle : string;
  lineWidth : number;
  lineDash : list number;
  lineCap : string;
  lineJoin : string
}.

Definition defaultPen : Pen :=
  {| strokeStyle := "#000000"; lineWidth := 1%float; lineDash := [];
     lineCap := "butt"; lineJoin := "miter" |}.

Inductive paint :=
| Frame (dx dy : number)
| Stroke (pen : Pen) (path : list segment).

Record Context2D := {
  pen : Pen;
  path : list segment;
  painted : list paint
}.

Definition freshContext : Context2D :=
  {| pen := defaultPen; path := []; painted := [] |}.

Definition withPen (f : Pen -> Pen) (ctx : Context2D) : Context2D :=
  {| pen := f (pen ctx); path := path ctx; painted := painted ctx |}.

Definition set_strokeStyle (v : string) : Context2D -> Context2D :=
  withPen (fun p => {| strokeStyle := v; lineWidth := lineWidth p;
                       lineDash := lineDash p; lineCap := lineCap p;
                       lineJoin := lineJoin p |}).

Definition set_lineWidth (v : number) : Context2D -> Context2D :=
  withPen (fun p => {| strokeStyle := strokeStyle p; lineWidth := v;
                       lineDash := lineDash p; lineCap := lineCap p;
                       lineJoin := lineJoin p |}).

Definition setLineDash (v : list number) : Context2D -> Context2D :=
  withPen (fun p => {| strokeStyle := strokeStyle p; lineWidth := lineWidth p;
                       lineDash := v; lineCap := lineCap p;
                       lineJoin := lineJoin p |}).

Definition set_lineCap (v : string) : Context2D -> Context2D :=
  withPen (fun p => {| strokeStyle := strokeStyle p; lineWidth := lineWidth p;
                       lineDash := lineDash p; lineCap := v;
                       lineJoin := lineJoin p |}).

Definition set_lineJoin (v : string) : Context2D -> Context2D :=
  withPen (fun p => {| strokeStyle := strokeStyle p; lineWidth := lineWidth p;
                       lineDash := lineDash p; lineCap := lineCap p;
                       lineJoin := v |}).

Definition drawImage (dx dy : number) (ctx : Context2D) : Context2D :=
  {| pen := pen ctx; path := path ctx;
     painted := painted ctx ++ [Frame dx dy] |}.

Definition beginPath (ctx : Context2D) : Context2D :=
  {| pen := pen ctx; path := []; painted := painted ctx |}.

Definition addSegment (sg : segment) (ctx : Context2D) : Context2D :=
  {| pen := pen ctx; path := path ctx ++ [sg]; painted := painted ctx |}.

(** A path call returns without doing anything as soon as one of its
    arguments is infinite or NaN. *)
Definition allFinite (args : list number) : bool := forallb is_finite args.

Definition moveTo (x y : number) (ctx : Context2D) : Context2D :=
  if allFinite [x; y] then addSegment (MoveTo x y) ctx else ctx.

(** [lineTo] on a path that has no subpath yet only sets the point the
    path starts from, as [moveTo] does. *)
Definition lineTo (x y : number) (ctx : Context2D) : Context2D :=
  if allFinite [x; y] then
    match path ctx with
    | [] => addSegment (MoveTo x y) ctx
    | _ :: _ => addSegment (LineTo x y) ctx
    end
  else ctx.

(** [arc], called here right after [beginPath] only.  A negative radius
    makes it throw; the radii it is given here are a recorded radius, or
    the product of one with a quotient of two sizes, none of them below
    zero in a browser. *)
Definition arc (x y r a0 a1 : number) (ctx : Context2D) : Context2D :=
  if allFinite [x; y; r; a0; a1] then addSegment (Arc x y r a0 a1) ctx
  else ctx.

(** A path paints something only if it has a line or an arc: subpaths of
    a single point are left out, and so is the empty path. *)
Definition drawable (path : list segment) : bool :=
  existsb (fun sg => match sg with MoveTo _ _ => false | _ => true end) path.

Definition stroke (ctx : Context2D) : Context2D :=
  if drawable (path ctx) then
    {| pen := pen ctx; path := path ctx;
       painted := painted ctx ++ [Stroke (pen ctx) (path ctx)] |}
  else ctx.

(** The point a polyline starts from and the points it is drawn through,
    as path calls. *)
Definition polyline (coords : list (number * number)) : list segment :=
  match coords with
  | [] => []
  | (x, y) :: rest => MoveTo x y :: map (fun c => LineTo (fst c) (snd c)) rest
  end.

Definition finiteCoords (c : number * number) : bool :=
  is_finite (fst c) && is_finite (snd c).

(** What stroking a polyline through the given coordinates paints with a
    pen: the polyline through those of them that are finite, if two are
    left; nothing otherwise. *)
Definition strokeThrough (pen : Pen) (coords : list (number * number))
    : list paint :=
  let reached := filter finiteCoords coords in
  if (2 <=? List.length reached)%nat then [Stroke pen (polyline reached)]
  else [].

(** What stroking a full circle paints with a pen: the circle, if its
    center and radius are finite; nothing otherwise. *)
Definition strokeRound (pen : Pen) (x y r : number) : list paint :=
  if is_finite x && is_finite y && is_finite r
  then [Stroke pen [Arc x y r 0 (2 * Math_PI)]]
  else [].

(** What [canvas.toDataURL("image/png")] encodes: the size of the backing
    store and what was painted on it, in order. *)
Record Image := {
  width : number;
  height : number;
  content : list paint
}.

Definition toDataURL (w h : number) (ctx : Context2D) : Image :=
  {| width := w; height := h; content := painted ctx |}.

(** What a handler of the preview does to the outside. *)
Inductive Effect :=
| OnCapture (imageData : Image)
| Toast (title description : string) (destructive : bool)
| ConsoleError (message : string)
| TrackStop (t : track).

Definition captured (fx : list Effect) : list Image :=
  flat_map (fun e => match e with OnCapture i => [i] | _ => [] end) fx.

End DOM.

Import DOM.

(** Points in the coordinate space of the displayed video element. *)
Module Geometry.

Record Point := { x : number; y : number }.

(** Where the pointer is, relative to the container. *)
Definition pointer (e : MouseEvent) (rect : DOMRect) : Point :=
  {| x := (clientX e - left rect)%float; y := (clientY e - top rect)%float |}.

(** The midpoint of two points and their Euclidean distance, in the
    arithmetic of JavaScript numbers. *)
Definition midpoint (a p : Point) : Point :=
  {| x := ((x a + x p) / 2)%float; y := ((y a + y p) / 2)%float |}.

Definition distance (a p : Point) : number :=
  Math_sqrt ((x p - x a) * (x p - x a) + (y p - y a) * (y p - y a))%float.

End Geometry.

(** ** LiveScreenPreview, circle variant
    (src/components/LiveScreenPreview.tsx) *)

Module CirclePreview.

Import Geometry(Point, pointer, midpoint, distance).

Record DrawingCircle := { x : number; y : number; radius : number }.

Record State := {
  isSharing : bool;
  stream : option MediaStream;
  isDrawing : bool;
  drawStart : option Point;
  circles : list DrawingCircle;
  currentCircle : option DrawingCircle;
  drawMode : bool
}.

Definition initial : State :=
  {| isSharing := false; stream := None; isDrawing := false;
     drawStart := None; circles := []; currentCircle := None;
     drawMode := false |}.

Definition setIsSharing (v : bool) (s : State) : State :=
  {| isSharing := v; stream := stream s; isDrawing := isDrawing s;
     drawStart := drawStart s; circles := circles s;
     currentCircle := currentCircle s; drawMode := drawMode s |}.

Definition setStream (v : option MediaStream) (s : State) : State :=
  {| isSharing := isSharing s; stream := v; isDrawing := isDrawing s;
     drawStart := drawStart s; circles := circles s;
     currentCircle := currentCircle s; drawMode := drawMode s |}.

Definition setIsDrawing (v : bool) (s : State) : State :=
  {| isSharing := isSharing s; stream := stream s; isDrawing := v;
     drawStart := drawStart s; circles := circles s;
     currentCircle := currentCircle s; drawMode := drawMode s |}.

Definition setDrawStart (v : option Point) (s : State) : State :=
  {| isSharing := isSharing s; stream := stream s; isDrawing := isDrawing s;
     drawStart := v; circles := circles s;
     currentCircle := currentCircle s; drawMode := drawMode s |}.

Definition setCircles (f : list DrawingCircle -> list DrawingCircle)
    (s : State) : State :=
  {| isSharing := isSharing s; stream := stream s; isDrawing := isDrawing s;
     drawStart := drawStart s; circles := f (circles s);
     currentCircle := currentCircle s; drawMode := drawMode s |}.

Definition setCurrentCircle (v : option DrawingCircle) (s : State) : State :=
  {| isSharing := isSharing s; stream := stream s; isDrawing := isDrawing s;
     drawStart := drawStart s; circles := circles s;
     currentCircle := v; drawMode := drawMode s |}.

Definition setDrawMode (v : bool) (s : State) : State :=
  {| isSharing := isSharing s; stream := stream s; isDrawing := isDrawing s;
     drawStart := drawStart s; circles := circles s;
     currentCircle := currentCircle s; drawMode := v |}.

(** The handler installed on the first video track: [onended]. *)
Definition onended (s : State) : State :=
  setCircles (fun _ => []) (setStream None (setIsSharing false s)).

(** [startScreenShare]; [granted] is what [getDisplayMedia] resolved to,
    [None] when it rejected.  A stream without a video track makes
    [getVideoTracks()[0].onended = ...] throw inside the [try], after the
    two setters. *)
Definition startScreenShare (granted : option MediaStream) (s : State)
    : State * list Effect :=
  match granted with
  | Some mediaStream =>
      let s' := setIsSharing true (setStream (Some mediaStream) s) in
      match videoTracks mediaStream with
      | _ :: _ =>
          (s', [Toast "Screen sharing started"
                  "Draw circles around problems, then capture" false])
      | [] =>
          (s', [ConsoleError "Error starting screen share:";
                Toast "Screen sharing failed"
                  "Please allow screen sharing permission" true])
      end
  | None =>
      (s, [ConsoleError "Error starting screen share:";
           Toast "Screen sharing failed"
             "Please allow screen sharing permission" true])
  end.

(** The handlers as a render creates them.  A handler closes over the
    cells of the render it belongs to, [render]; what it sets goes to the
    state [s] the component has by the time it runs, which is ahead of
    [render] while updates wait to be rendered.  A setter given a value
    replaces the cell, a setter given a function applies it to the cell
    of [s]. *)
Module Closure.

Definition handleMouseDown (render : State) (e : MouseEvent)
    (rect : option DOMRect) (s : State) : State :=
  if negb (drawMode render) || negb (isSharing render) then s
  else match rect with
       | None => s
       | Some rect =>
           let x := (clientX e - left rect)%float in
           let y := (clientY e - top rect)%float in
           setIsDrawing true
             (setDrawStart (Some {| Geometry.x := x; Geometry.y := y |}) s)
       end.

Definition handleMouseMove (render : State) (e : MouseEvent)
    (rect : option DOMRect) (s : State) : State :=
  match isDrawing render, drawStart render with
  | true, Some drawStart =>
      match rect with
      | None => s
      | Some rect =>
          let x := (clientX e - left rect)%float in
          let y := (clientY e - top rect)%float in
          let centerX := ((Geometry.x drawStart + x) / 2)%float in
          let centerY := ((Geometry.y drawStart + y) / 2)%float in
          let radius :=
            (Math_sqrt (Math_pow_2 (x - Geometry.x drawStart)
                        + Math_pow_2 (y - Geometry.y drawStart)) / 2)%float in
          setCurrentCircle
            (Some {| x := centerX; y := centerY; radius := radius |}) s
      end
  | _, _ => s
  end.

(** [handleMouseUp], also bound to [onMouseLeave]: the circle it tests
    and appends is [currentCircle] of its render. *)
Definition handleMouseUp (render : State) (s : State) : State :=
  let s1 :=
    match currentCircle render with
    | Some currentCircle =>
        if gt (radius currentCircle) 10
        then setCircles (fun prev => prev ++ [currentCircle]) s
        else s
    | None => s
    end in
  setCurrentCircle None (setDrawStart None (setIsDrawing false s1)).

(** [stopSharing], memoized on [stream]. *)
Definition stopSharing (render : State) (s : State) : State * list Effect :=
  let '(s1, fx) :=
    match stream render with
    | Some ms => (setStream None s, map TrackStop (videoTracks ms))
    | None => (s, [])
    end in
  (setCircles (fun _ => []) (setIsSharing false s1), fx).

(** The click handler of the draw mode button: [setDrawMode(!drawMode)]. *)
Definition toggleDrawMode (render : State) (s : State) : State :=
  setDrawMode (negb (drawMode render)) s.

End Closure.

(** The handlers of an up-to-date render: the state they close over is
    the state they update. *)
Definition handleMouseDown (e : MouseEvent) (rect : option DOMRect)
    (s : State) : State :=
  Closure.handleMouseDown s e rect s.

Definition handleMouseMove (e : MouseEvent) (rect : option DOMRect)
    (s : State) : State :=
  Closure.handleMouseMove s e rect s.

Definition handleMouseUp (s : State) : State := Closure.handleMouseUp s s.

(** The stroke of one circle on the captured frame. *)
Definition strokeCircle (scaleX scaleY : number) (circle : DrawingCircle)
    (ctx : Context2D) : Context2D :=
  let ctx := beginPath ctx in
  let ctx := arc (x circle * scaleX) (y circle * scaleY)
                 (radius circle * Math_max scaleX scaleY)
                 0 (2 * Math_PI) ctx in
  stroke ctx.

(** [captureScreen]; [videoRef] is [videoRef.current] and [getContext]
    tells whether [canvas.getContext("2d")] returned a context. *)
Definition captureScreen (videoRef : option HTMLVideoElement)
    (getContext : bool) (s : State) : list Effect :=
  match videoRef, stream s with
  | Some video, Some _ =>
      let canvas_width := videoWidth video in
      let canvas_height := videoHeight video in
      if getContext then
        let ctx := drawImage 0 0 freshContext in
        let ctx :=
          if (0 <? List.length (circles s))%nat then
            let scaleX := (videoWidth video / offsetWidth video)%float in
            let scaleY := (videoHeight video / offsetHeight video)%float in
            let ctx := set_strokeStyle "#00d4ff" ctx in
            let ctx := set_lineWidth 4 ctx in
            let ctx := setLineDash [8; 8]%float ctx in
            forEach (strokeCircle scaleX scaleY) (circles s) ctx
          else ctx in
        [OnCapture (toDataURL canvas_width canvas_height ctx)]
      else []
  | _, _ => []
  end.

Definition stopSharing (s : State) : State * list Effect :=
  Closure.stopSharing s s.

Definition clearCircles (s : State) : State := setCircles (fun _ => []) s.

(** What can happen to the component.  [step] and [run] take every event
    to a handler of an up-to-date render: React has rendered since the
    event before. *)
Inductive Event :=
| StartScreenShare (granted : option MediaStream)
| TrackEnded
| MouseDown (e : MouseEvent) (rect : option DOMRect)
| MouseMove (e : MouseEvent) (rect : option DOMRect)
| MouseUp
| MouseLeave
| ToggleDrawMode
| ClearCircles
| CaptureScreen (videoRef : option HTMLVideoElement) (getContext : bool)
| StopSharing.

Definition step (ev : Event) (s : State) : State * list Effect :=
  match ev with
  | StartScreenShare granted => startScreenShare granted s
  | TrackEnded => (onended s, [])
  | MouseDown e rect => (handleMouseDown e rect s, [])
  | MouseMove e rect => (handleMouseMove e rect s, [])
  | MouseUp | MouseLeave => (handleMouseUp s, [])
  | ToggleDrawMode => (setDrawMode (negb (drawMode s)) s, [])
  | ClearCircles => (clearCircles s, [])
  | CaptureScreen videoRef getContext =>
      (s, captureScreen videoRef getContext s)
  | StopSharing => stopSharing s
  end.

Fixpoint run (evs : list Event) (s : State) : State :=
  match evs with
  | [] => s
  | ev :: evs' => run evs' (fst (step ev s))
  end.

(** The mounted component.  [rendered] is the state of the last render,
    the one the handlers close over; [latest] is the state with every
    update made since applied to it, which is what the next render shows.
    [captureScreen] is memoized on the cells it reads, so it reads those
    of the last render too. *)
Record Mounted := { rendered : State; latest : State }.

Definition mount (s : State) : Mounted := {| rendered := s; latest := s |}.

Definition handle (ev : Event) (m : Mounted) : Mounted * list Effect :=
  let render := rendered m in
  let '(s, fx) :=
    match ev with
    | StartScreenShare granted => startScreenShare granted (latest m)
    | TrackEnded => (onended (latest m), [])
    | MouseDown e rect => (Closure.handleMouseDown render e rect (latest m), [])
    | MouseMove e rect => (Closure.handleMouseMove render e rect (latest m), [])
    | MouseUp | MouseLeave => (Closure.handleMouseUp render (latest m), [])
    | ToggleDrawMode => (Closure.toggleDrawMode render (latest m), [])
    | ClearCircles => (clearCircles (latest m), [])
    | CaptureScreen videoRef getContext =>
        (latest m, captureScreen videoRef getContext render)
    | StopSharing => Closure.stopSharing render (latest m)
    end in
  ({| rendered := render; latest := s |}, fx).

(** What happens to a mounted component: an event reaches a handler of
    the last render, or React renders again and the handlers are created
    anew from the latest state. *)
Inductive Happening :=
| Handle (ev : Event)
| Render.

Definition happen (h : Happening) (m : Mounted) : Mounted * list Effect :=
  match h with
  | Handle ev => handle ev m
  | Render => (mount (latest m), [])
  end.

Fixpoint play (hs : list Happening) (m : Mounted) : Mounted :=
  match hs with
  | [] => m
  | h :: hs' => play hs' (fst (happen h m))
  end.

(** The events that stand for [begin] and [extend] of the recorder, and
    the draw mode toggle. *)
Definition isRecorderEvent (ev : Event) : bool :=
  match ev with
  | MouseDown _ _ | MouseMove _ _ | ToggleDrawMode => true
  | _ => false
  end.

(** The recorded shapes of a state: what is committed and what is in
    progress. *)
Definition shapeState (s : State) :=
  (circles s, currentCircle s, drawStart s, isDrawing s).

(** The circle spanned by an anchor and a drag point, in the words of
    the recorder's contract. *)
Definition circleThrough (a p : Point) : DrawingCircle :=
  {| x := Geometry.x (midpoint a p); y := Geometry.y (midpoint a p);
     radius := (distance a p / 2)%float |}.

(** The retention threshold of a circle. *)
Definition retained (c : DrawingCircle) : Prop := gt (radius c) 10 = true.

End CirclePreview.

(** ** LiveScreenPreview, freehand variant *)

Module FreehandPreview.

Import Geometry.
Local Open Scope float_scope.

Record DrawingPath := { points : list Point }.

Record State := {
  isSharing : bool;
  stream : option MediaStream;
  isDrawing : bool;
  paths : list DrawingPath;
  currentPath : list Point;
  drawMode : bool
}.

Definition initial : State :=
  {| isSharing := false; stream := None; isDrawing := false;
     paths := []; currentPath := []; drawMode := false |}.

Definition setIsSharing (v : bool) (s : State) : State :=
  {| isSharing := v; stream := stream s; isDrawing := isDrawing s;
     paths := paths s; currentPath := currentPath s;
     drawMode := drawMode s |}.

Definition setStream (v : option MediaStream) (s : State) : State :=
  {| isSharing := isSharing s; stream := v; isDrawing := isDrawing s;
     paths := paths s; currentPath := currentPath s;
     drawMode := drawMode s |}.

Definition setIsDrawing (v : bool) (s : State) : State :=
  {| isSharing := isSharing s; stream := stream s; isDrawing := v;
     paths := paths s; currentPath := currentPath s;
     drawMode := drawMode s |}.

Definition setPaths (f : list DrawingPath -> list DrawingPath)
    (s : State) : State :=
  {| isSharing := isSharing s; stream := stream s; isDrawing := isDrawing s;
     paths := f (paths s); currentPath := currentPath s;
     drawMode := drawMode s |}.

Definition setCurrentPath (f : list Point -> list Point) (s : State) : State :=
  {| isSharing := isSharing s; stream := stream s; isDrawing := isDrawing s;
     paths := paths s; currentPath := f (currentPath s);
     drawMode := drawMode s |}.

Definition setDrawMode (v : bool) (s : State) : State :=
  {| isSharing := isSharing s; stream := stream s; isDrawing := isDrawing s;
     paths := paths s; currentPath := currentPath s; drawMode := v |}.

Definition onended (s : State) : State :=
  setPaths (fun _ => []) (setStream None (setIsSharing false s)).

Definition startScreenShare (granted : option MediaStream) (s : State)
    : State * list Effect :=
  match granted with
  | Some mediaStream =>
      let s' := setIsSharing true (setStream (Some mediaStream) s) in
      match videoTracks mediaStream with
      | _ :: _ =>
          (s', [Toast "Screen sharing started"
                  "Draw freely to highlight problems, then capture" false])
      | [] =>
          (s', [ConsoleError "Error starting screen share:";
                Toast "Screen sharing failed"
                  "Please allow screen sharing permission" true])
      end
  | None =>
      (s, [ConsoleError "Error starting screen share:";
           Toast "Screen sharing failed"
             "Please allow screen sharing permission" true])
  end.

(** The handlers as a render creates them: they close over the cells of
    their render, [render], and set cells of the state [s] the component
    has by the time they run. *)
Module Closure.

Definition handleMouseDown (render : State) (e : MouseEvent)
    (rect : option DOMRect) (s : State) : State :=
  if negb (drawMode render) || negb (isSharing render) then s
  else match rect with
       | None => s
       | Some rect =>
           let x := clientX e - left rect in
           let y := clientY e - top rect in
           setIsDrawing true
             (setCurrentPath (fun _ => [{| x := x; y := y |}]) s)
       end.

(** [handleMouseMove] appends through the function form of the setter:
    to the path as it is by then, rendered or not. *)
Definition handleMouseMove (render : State) (e : MouseEvent)
    (rect : option DOMRect) (s : State) : State :=
  if negb (isDrawing render) || negb (drawMode render) then s
  else match rect with
       | None => s
       | Some rect =>
           let x := clientX e - left rect in
           let y := clientY e - top rect in
           setCurrentPath (fun prev => prev ++ [{| x := x; y := y |}]) s
       end.

(** [handleMouseUp], also bound to [onMouseLeave]: the path it measures
    and appends is [currentPath] of its render. *)
Definition handleMouseUp (render : State) (s : State) : State :=
  let currentPath := currentPath render in
  let s1 :=
    if (1 <? List.length currentPath)%nat
    then setPaths (fun prev => prev ++ [{| points := currentPath |}]) s
    else s in
  setCurrentPath (fun _ => []) (setIsDrawing false s1).

(** [stopSharing], memoized on [stream]. *)
Definition stopSharing (render : State) (s : State) : State * list Effect :=
  let '(s1, fx) :=
    match stream render with
    | Some ms => (setStream None s, map TrackStop (videoTracks ms))
    | None => (s, [])
    end in
  (setPaths (fun _ => []) (setIsSharing false s1), fx).

(** The click handler of the draw mode button: [setDrawMode(!drawMode)]. *)
Definition toggleDrawMode (render : State) (s : State) : State :=
  setDrawMode (negb (drawMode render)) s.

End Closure.

(** The handlers of an up-to-date render: the state they close over is
    the state they update. *)
Definition handleMouseDown (e : MouseEvent) (rect : option DOMRect)
    (s : State) : State :=
  Closure.handleMouseDown s e rect s.

Definition handleMouseMove (e : MouseEvent) (rect : option DOMRect)
    (s : State) : State :=
  Closure.handleMouseMove s e rect s.

Definition handleMouseUp (s : State) : State := Closure.handleMouseUp s s.

(** [pts[i]], read only at indices below the length. *)
Definition at_index (pts : list Point) (i : nat) : Point :=
  nth i pts {| x := nan; y := nan |}.

(** The stroke of one path on the captured frame. *)
Definition strokePath (scaleX scaleY : number) (path : DrawingPath)
    (ctx : Context2D) : Context2D :=
  if (List.length (points path) <? 2)%nat then ctx
  else
    let ctx := beginPath ctx in
    let ctx := moveTo (x (at_index (points path) 0) * scaleX)
                      (y (at_index (points path) 0) * scaleY) ctx in
    let ctx :=
      for_range 1 (List.length (points path))
        (fun i ctx => lineTo (x (at_index (points path) i) * scaleX)
                             (y (at_index (points path) i) * scaleY) ctx)
        ctx in
    stroke ctx.

Definition captureScreen (videoRef : option HTMLVideoElement)
    (getContext : bool) (s : State) : list Effect :=
  match videoRef, stream s with
  | Some video, Some _ =>
      let canvas_width := videoWidth video in
      let canvas_height := videoHeight video in
      if getContext then
        let ctx := drawImage 0 0 freshContext in
        let ctx :=
          if (0 <? List.length (paths s))%nat then
            let scaleX := videoWidth video / offsetWidth video in
            let scaleY := videoHeight video / offsetHeight video in
            let ctx := set_strokeStyle "#00d4ff" ctx in
            let ctx := set_lineWidth 4 ctx in
            let ctx := set_lineCap "round" ctx in
            let ctx := set_lineJoin "round" ctx in
            forEach (strokePath scaleX scaleY) (paths s) ctx
          else ctx in
        [OnCapture (toDataURL canvas_width canvas_height ctx)]
      else []
  | _, _ => []
  end.

Definition stopSharing (s : State) : State * list Effect :=
  Closure.stopSharing s s.

Definition clearDrawings (s : State) : State :=
  setCurrentPath (fun _ => []) (setPaths (fun _ => []) s).

Inductive Event :=
| StartScreenShare (granted : option MediaStream)
| TrackEnded
| MouseDown (e : MouseEvent) (rect : option DOMRect)
| MouseMove (e : MouseEvent) (rect : option DOMRect)
| MouseUp
| MouseLeave
| ToggleDrawMode
| ClearDrawings
| CaptureScreen (videoRef : option HTMLVideoElement) (getContext : bool)
| StopSharing.

Definition step (ev : Event) (s : State) : State * list Effect :=
  match ev with
  | StartScreenShare granted => startScreenShare granted s
  | TrackEnded => (onended s, [])
  | MouseDown e rect => (handleMouseDown e rect s, [])
  | MouseMove e rect => (handleMouseMove e rect s, [])
  | MouseUp | MouseLeave => (handleMouseUp s, [])
  | ToggleDrawMode => (setDrawMode (negb (drawMode s)) s, [])
  | ClearDrawings => (clearDrawings s, [])
  | CaptureScreen videoRef getContext =>
      (s, captureScreen videoRef getContext s)
  | StopSharing => stopSharing s
  end.

Fixpoint run (evs : list Event) (s : State) : State :=
  match evs with
  | [] => s
  | ev :: evs' => run evs' (fst (step ev s))
  end.

(** The mounted component: the state of the last render, which the
    handlers close over, and the state with every update made since. *)
Record Mounted := { rendered : State; latest : State }.

Definition mount (s : State) : Mounted := {| rendered := s; latest := s |}.

Definition handle (ev : Event) (m : Mounted) : Mounted * list Effect :=
  let render := rendered m in
  let '(s, fx) :=
    match ev with
    | StartScreenShare granted => startScreenShare granted (latest m)
    | TrackEnded => (onended (latest m), [])
    | MouseDown e rect => (Closure.handleMouseDown render e rect (latest m), [])
    | MouseMove e rect => (Closure.handleMouseMove render e rect (latest m), [])
    | MouseUp | MouseLeave => (Closure.handleMouseUp render (latest m), [])
    | ToggleDrawMode => (Closure.toggleDrawMode render (latest m), [])
    | ClearDrawings => (clearDrawings (latest m), [])
    | CaptureScreen videoRef getContext =>
        (latest m, captureScreen videoRef getContext render)
    | StopSharing => Closure.stopSharing render (latest m)
    end in
  ({| rendered := render; latest := s |}, fx).

Inductive Happening :=
| Handle (ev : Event)
| Render.

Definition happen (h : Happening) (m : Mounted) : Mounted * list Effect :=
  match h with
  | Handle ev => handle ev m
  | Render => (mount (latest m), [])
  end.

Fixpoint play (hs : list Happening) (m : Mounted) : Mounted :=
  match hs with
  | [] => m
  | h :: hs' => play hs' (fst (happen h m))
  end.

Definition isRecorderEvent (ev : Event) : bool :=
  match ev with
  | MouseDown _ _ | MouseMove _ _ | ToggleDrawMode => true
  | _ => false
  end.

Definition shapeState (s : State) := (paths s, currentPath s, isDrawing s).

(** The retention threshold of a freehand path. *)
Definition retained (pts : list Point) : Prop := (2 <= List.length pts)%nat.

(** The points of a path in the coordinates of the captured frame. *)
Definition scaledPoints (scaleX scaleY : number) (pts : list Point)
    : list (number * number) :=
  map (fun p => (x p * scaleX, y p * scaleY)) pts.

End FreehandPreview.

(** ** The relay client: what [supabase.functions.invoke] hands back *)

Module Relay.

Record FunctionsError := { message : jsstring }.

(** The parsed body of the analyze-math function. *)
Record AnalyzeData := { error : option jsstring; solution : option jsstring }.

(** The parsed body of the david-chat function. *)
Record ChatData := { response : option jsstring }.

(** The awaited call either rejects or resolves to [{ data, error }]. *)
Inductive InvokeResult (D : Type) :=
| Rejected (reason : jsstring)
| Resolved (data : option D) (error : option FunctionsError).

Arguments Rejected {D}.
Arguments Resolved {D}.

(** How a [try] block ends. *)
Inductive completion (A : Type) :=
| Normal (a : A)
| Throw (message : jsstring).

Arguments Normal {A}.
Arguments Throw {A}.

(** The message of the TypeError raised by reading a property of
    [null]. *)
Definition nullPropertyMessage (prop : string) : jsstring :=
  lit ("Cannot read properties of null (reading '" ++ prop ++ "')")%string.

Definition truthyOpt (o : option jsstring) : bool :=
  match o with Some s => truthy s | None => false end.

End Relay.

(** ** Index (src/pages/Index.tsx) *)

Module HistoryItem.

Record t := {
  id : jsstring;
  image : jsstring;
  solution : option jsstring;
  timestamp : N
}.

End HistoryItem.

Module Index.

Import Relay(InvokeResult, Rejected, Resolved, completion, Normal, Throw,
             AnalyzeData, truthyOpt, nullPropertyMessage).

Inductive Effect :=
| Toast (title : string) (description : jsstring) (destructive : bool)
| ConsoleError (label : string) (message : jsstring)
| Invoke (functionName : string) (image : jsstring) (type : string).

Record State := {
  isLoading : bool;
  solution : option jsstring;
  capturedImage : option jsstring;
  history : list HistoryItem.t
}.

Definition initial : State :=
  {| isLoading := false; solution := None; capturedImage := None;
     history := [] |}.

Definition setIsLoading (v : bool) (s : State) : State :=
  {| isLoading := v; solution := solution s;
     capturedImage := capturedImage s; history := history s |}.

Definition setSolution (v : option jsstring) (s : State) : State :=
  {| isLoading := isLoading s; solution := v;
     capturedImage := capturedImage s; history := history s |}.

Definition setCapturedImage (v : option jsstring) (s : State) : State :=
  {| isLoading := isLoading s; solution := solution s;
     capturedImage := v; history := history s |}.

Definition setHistory (f : list HistoryItem.t -> list HistoryItem.t)
    (s : State) : State :=
  {| isLoading := isLoading s; solution := solution s;
     capturedImage := capturedImage s; history := f (history s) |}.

(** The end of the [try] of [analyzeMathProblem], once no error was
    found.  [now] is [Date.now()] and [date] is [new Date()]. *)
Definition recordSolution (now date : N) (imageData : jsstring)
    (data : AnalyzeData) (s : State) : State * list Effect :=
  let s := setSolution (Relay.solution data) s in
  let newItem :=
    {| HistoryItem.id := toString now;
       HistoryItem.image := imageData;
       HistoryItem.solution := Relay.solution data;
       HistoryItem.timestamp := date |} in
  let s := setHistory (fun prev => slice 0 20 (newItem :: prev)) s in
  (s, [Toast "Answer found!" (lit "Check out the answer below") false]).

(** The body of the [try], from the awaited result on. *)
Definition analyzeTry (now date : N) (imageData : jsstring)
    (r : InvokeResult AnalyzeData) (s : State)
    : completion (State * list Effect) :=
  match r with
  | Rejected reason => Throw reason
  | Resolved data error =>
      match error with
      | Some error => Throw (Relay.message error)
      | None =>
          match data with
          | None => Throw (nullPropertyMessage "error")
          | Some data =>
              match Relay.error data with
              | Some m =>
                  if truthy m then Throw m
                  else Normal (recordSolution now date imageData data s)
              | None => Normal (recordSolution now date imageData data s)
              end
          end
      end
  end.

(** [analyzeMathProblem] up to its [await]: what the page shows while the
    request is in flight. *)
Definition analyzeBegin (imageData : jsstring) (s : State)
    : State * list Effect :=
  let s := setIsLoading true s in
  let s := setSolution None s in
  let s := setCapturedImage (Some imageData) s in
  (s, [Invoke "analyze-math" imageData "capture"]).

(** [analyzeMathProblem] from the awaited result on; [s] is the state by
    then, which other handlers may have changed meanwhile. *)
Definition analyzeSettle (now date : N) (imageData : jsstring)
    (r : InvokeResult AnalyzeData) (s : State) : State * list Effect :=
  let '(s, fx) :=
    match analyzeTry now date imageData r s with
    | Normal (s', fx) => (s', fx)
    | Throw message =>
        (s, [ConsoleError "Error analyzing math problem:" message;
             Toast "Analysis failed"
               (or_else message
                  (lit "Failed to analyze the math problem. Please try again."))
               true])
    end in
  (setIsLoading false s, fx).

(** The whole of [analyzeMathProblem] when no other handler runs while it
    waits. *)
Definition analyzeMathProblem (now date : N) (imageData : jsstring)
    (r : InvokeResult AnalyzeData) (s : State) : State * list Effect :=
  let '(s, fx) := analyzeBegin imageData s in
  let '(s, fx') := analyzeSettle now date imageData r s in
  (s, fx ++ fx').

Definition handleHistorySelect (item : HistoryItem.t) (s : State) : State :=
  setSolution (HistoryItem.solution item)
    (setCapturedImage (Some (HistoryItem.image item)) s).

Definition clearHistory (s : State) : State * list Effect :=
  (setHistory (fun _ => []) s,
   [Toast "History cleared"
      (lit "All previous solutions have been removed") false]).

Inductive Event :=
| Analyze (now date : N) (imageData : jsstring) (r : InvokeResult AnalyzeData)
| HistorySelect (item : HistoryItem.t)
| ClearHistory.

Definition step (ev : Event) (s : State) : State * list Effect :=
  match ev with
  | Analyze now date imageData r => analyzeMathProblem now date imageData r s
  | HistorySelect item => (handleHistorySelect item s, [])
  | ClearHistory => clearHistory s
  end.

Fixpoint run (evs : list Event) (s : State) : State :=
  match evs with
  | [] => s
  | ev :: evs' => run evs' (fst (step ev s))
  end.

(** The page while analyses are made.  [inFlight] is the image of the
    request that has not settled yet.  [analyzeMathProblem] is called by
    the capture button of the preview alone, which is disabled while
    [isLoading] holds, so a capture then reaches no handler; the history
    panel stays in use. *)
Record Page := { state : State; inFlight : option jsstring }.

Definition open (s : State) : Page := {| state := s; inFlight := None |}.

Inductive Occurrence :=
| Capture (imageData : jsstring)
| Settle (now date : N) (r : InvokeResult AnalyzeData)
| Select (item : HistoryItem.t)
| Clear.

Definition occur (o : Occurrence) (p : Page) : Page * list Effect :=
  match o with
  | Capture imageData =>
      if isLoading (state p) then (p, [])
      else
        let '(s, fx) := analyzeBegin imageData (state p) in
        ({| state := s; inFlight := Some imageData |}, fx)
  | Settle now date r =>
      match inFlight p with
      | Some imageData =>
          let '(s, fx) := analyzeSettle now date imageData r (state p) in
          ({| state := s; inFlight := None |}, fx)
      | None => (p, [])
      end
  | Select item =>
      ({| state := handleHistorySelect item (state p);
          inFlight := inFlight p |}, [])
  | Clear =>
      let '(s, fx) := clearHistory (state p) in
      ({| state := s; inFlight := inFlight p |}, fx)
  end.

Fixpoint unfold (os : list Occurrence) (p : Page) : Page :=
  match os with
  | [] => p
  | o :: os' => unfold os' (fst (occur o p))
  end.

(** The clicks on the history panel among the occurrences. *)
Definition onPanel (o : Occurrence) : bool :=
  match o with
  | Select _ | Clear => true
  | Capture _ | Settle _ _ _ => false
  end.

(** The relay call failed: it threw, or the client reported an error, or
    the reply has no body, or its body carries an error message, which is
    a string that is not empty. *)
Inductive failed : InvokeResult AnalyzeData -> Prop :=
| failed_thrown reason : failed (Rejected reason)
| failed_client data err : failed (Resolved data (Some err))
| failed_nobody : failed (Resolved None None)
| failed_body sol c m :
    failed (Resolved (Some {| Relay.error := Some (c :: m);
                              Relay.solution := sol |}) None).

(** The relay call succeeded with this body. *)
Definition succeeded (r : InvokeResult AnalyzeData) (d : AnalyzeData) : Prop :=
  r = Resolved (Some d) None /\ truthyOpt (Relay.error d) = false.

End Index.

(** ** DavidChat *)

Module ChatMessage.

Inductive Role := user | assistant.

Record t := {
  id : jsstring;
  role : Role;
  content : jsstring;
  image : option jsstring
}.

(** What is sent for one message: [{ role, content, image }]. *)
Definition wire (m : t) : Role * jsstring * option jsstring :=
  (role m, content m, image m).

End ChatMessage.

Module DavidChat.

Import Relay(InvokeResult, Rejected, Resolved, completion, Normal, Throw,
             ChatData, truthyOpt, nullPropertyMessage).
Import ChatMessage(user, assistant).

Inductive Effect :=
| Invoke (functionName : string)
         (messages : list (ChatMessage.Role * jsstring * option jsstring))
| ConsoleError (label : string) (message : jsstring).

Record State := {
  messages : list ChatMessage.t;
  input : jsstring;
  isLoading : bool;
  pendingImage : option jsstring
}.

Definition welcome : ChatMessage.t :=
  {| ChatMessage.id := lit "welcome";
     ChatMessage.role := assistant;
     ChatMessage.content :=
       lit "Hey! I'm David, your math tutor. Send me pictures of math problems and I'll learn from them!";
     ChatMessage.image := None |}.

Definition initial : State :=
  {| messages := [welcome]; input := []; isLoading := false;
     pendingImage := None |}.

Definition setMessages (f : list ChatMessage.t -> list ChatMessage.t)
    (s : State) : State :=
  {| messages := f (messages s); input := input s;
     isLoading := isLoading s; pendingImage := pendingImage s |}.

Definition setInput (v : jsstring) (s : State) : State :=
  {| messages := messages s; input := v;
     isLoading := isLoading s; pendingImage := pendingImage s |}.

Definition setIsLoading (v : bool) (s : State) : State :=
  {| messages := messages s; input := input s;
     isLoading := v; pendingImage := pendingImage s |}.

Definition setPendingImage (v : option jsstring) (s : State) : State :=
  {| messages := messages s; input := input s;
     isLoading := isLoading s; pendingImage := v |}.

(** The message [sendMessage] builds from the input; [now] is
    [Date.now()]. *)
Definition userMessage (now : N) (s : State) : ChatMessage.t :=
  {| ChatMessage.id := toString now;
     ChatMessage.role := user;
     ChatMessage.content := or_else (trim (input s)) (lit "Check this problem");
     ChatMessage.image :=
       if truthyOpt (pendingImage s) then pendingImage s else None |}.

(** The [try] of [sendMessage] from the awaited result on; [later] is
    the second [Date.now()]. *)
Definition replyTry (later : N) (r : InvokeResult ChatData)
    : completion ChatMessage.t :=
  match r with
  | Rejected reason => Throw reason
  | Resolved data error =>
      match error with
      | Some error => Throw (Relay.message error)
      | None =>
          match data with
          | None => Throw (nullPropertyMessage "response")
          | Some data =>
              Normal
                {| ChatMessage.id := toString (later + 1);
                   ChatMessage.role := assistant;
                   ChatMessage.content :=
                     or_else (match Relay.response data with
                              | Some t => t
                              | None => []
                              end)
                       (lit "Sorry, I couldn't process that. Try again!");
                   ChatMessage.image := None |}
          end
      end
  end.

(** The guard of [sendMessage] (and of the send button). *)
Definition nothingToSend (s : State) : bool :=
  (negb (truthy (trim (input s))) && negb (truthyOpt (pendingImage s)))
  || isLoading s.

(** [sendMessage] up to the [await]: the state the component shows
    while the request is in flight. *)
Definition sendMessageBegin (now : N) (s : State) : State * list Effect :=
  if nothingToSend s then (s, [])
  else
    let userMessage := userMessage now s in
    let request :=
      Invoke "david-chat" (map ChatMessage.wire (messages s ++ [userMessage])) in
    let s := setMessages (fun prev => prev ++ [userMessage]) s in
    let s := setInput [] s in
    let s := setPendingImage None s in
    let s := setIsLoading true s in
    (s, [request]).

(** [sendMessage] from the awaited result on. *)
Definition sendMessageSettle (later : N) (r : InvokeResult ChatData)
    (s : State) : State * list Effect :=
  let '(s, fx) :=
    match replyTry later r with
    | Normal assistantMessage =>
        (setMessages (fun prev => prev ++ [assistantMessage]) s, [])
    | Throw message =>
        (setMessages
           (fun prev =>
              prev ++ [{| ChatMessage.id := toString (later + 1);
                          ChatMessage.role := assistant;
                          ChatMessage.content :=
                            lit "Oops! Something went wrong. Please try again.";
                          ChatMessage.image := None |}]) s,
         [ConsoleError "Error sending message:" message])
    end in
  (setIsLoading false s, fx).

Definition sendMessage (now later : N) (r : InvokeResult ChatData)
    (s : State) : State * list Effect :=
  if nothingToSend s then (s, [])
  else
    let '(s, fx) := sendMessageBegin now s in
    let '(s, fx') := sendMessageSettle later r s in
    (s, fx ++ fx').

(** No pending image is attached / an image is attached, as the
    component itself tells them apart when it renders the preview. *)
Definition noPendingImage (s : State) : Prop := pendingImage s = None.

Definition imageAttached (s : State) (img : jsstring) : Prop :=
  pendingImage s = Some img /\ truthy img = true.

End DavidChat.

(** ** The frame compositor, in the words of its contract *)

Module Compositor.

Local Open Scope float_scope.

Definition scaleX (video : HTMLVideoElement) : number :=
  videoWidth video / offsetWidth video.

Definition scaleY (video : HTMLVideoElement) : number :=
  videoHeight video / offsetHeight video.

(** The pens the burned-in annotations are stroked with. *)
Definition circlePen : Pen :=
  {| strokeStyle := "#00d4ff"; lineWidth := 4; lineDash := [8; 8];
     lineCap := "butt"; lineJoin := "miter" |}.

Definition freehandPen : Pen :=
  {| strokeStyle := "#00d4ff"; lineWidth := 4; lineDash := [];
     lineCap := "round"; lineJoin := "round" |}.

(** What a committed circle adds to the exported bitmap: center scaled
    per axis, radius scaled by the larger factor, a full turn. *)
Definition scaledCircle (video : HTMLVideoElement)
    (c : CirclePreview.DrawingCircle) : list paint :=
  strokeRound circlePen
    (CirclePreview.x c * scaleX video) (CirclePreview.y c * scaleY video)
    (CirclePreview.radius c * Math_max (scaleX video) (scaleY video)).

(** What a committed freehand path adds to the exported bitmap. *)
Definition scaledStroke (video : HTMLVideoElement)
    (p : FreehandPreview.DrawingPath) : list paint :=
  strokeThrough freehandPen
    (FreehandPreview.scaledPoints (scaleX video) (scaleY video)
       (FreehandPreview.points p)).

(** The exported image holding the frame and the given strokes. *)
Definition exported (video : HTMLVideoElement) (strokes : list paint) : Image :=
  {| width := videoWidth video; height := videoHeight video;
     content := Frame 0 0 :: strokes |}.

(** [k] is the larger of [a] and [b]: one of the two and not below
    either; NaN as soon as one of them is. *)
Definition larger (a b k : number) : Prop :=
  if is_nan a || is_nan b then is_nan k = true
  else (k = a \/ k = b) /\ (a <=? k) = true /\ (b <=? k) = true.

End Compositor.

(** ** Concrete sessions *)

Module Scenario.

Local Open Scope float_scope.

Definition screen : MediaStream := {| videoTracks := [0%nat] |}.

Definition container : DOMRect := {| left := 0; top := 0 |}.

Definition pointerAt (x y : number) : MouseEvent :=
  {| clientX := x; clientY := y |}.

(** A playing 1280x720 stream laid out at 640x360. *)
Definition halfSize : HTMLVideoElement :=
  {| videoWidth := 1280; videoHeight := 720;
     offsetWidth := 640; offsetHeight := 360; readyState := 4 |}.

(** The same stream in an element laid out with no size. *)
Definition collapsed : HTMLVideoElement :=
  {| videoWidth := 1280; videoHeight := 720;
     offsetWidth := 0; offsetHeight := 0; readyState := 4 |}.

(** The same stream stretched one way only: laid out at 640x720 and at
    1280x360. *)
Definition narrow : HTMLVideoElement :=
  {| videoWidth := 1280; videoHeight := 720;
     offsetWidth := 640; offsetHeight := 720; readyState := 4 |}.

Definition flat : HTMLVideoElement :=
  {| videoWidth := 1280; videoHeight := 720;
     offsetWidth := 1280; offsetHeight := 360; readyState := 4 |}.

(** A mounted element whose stream has not delivered anything yet. *)
Definition notStarted : HTMLVideoElement :=
  {| videoWidth := 0; videoHeight := 0;
     offsetWidth := 640; offsetHeight := 360; readyState := 0 |}.

(** Share, enter draw mode, press at (100,100) ... *)
Definition circleAnchored : CirclePreview.State :=
  CirclePreview.run
    [CirclePreview.StartScreenShare (Some screen);
     CirclePreview.ToggleDrawMode;
     CirclePreview.MouseDown (pointerAt 100 100) (Some container)]
    CirclePreview.initial.

(** ... drag to (200,100) ... *)
Definition circleDragged : CirclePreview.State :=
  CirclePreview.run
    [CirclePreview.StartScreenShare (Some screen);
     CirclePreview.ToggleDrawMode;
     CirclePreview.MouseDown (pointerAt 100 100) (Some container);
     CirclePreview.MouseMove (pointerAt 200 100) (Some container)]
    CirclePreview.initial.

Definition pathDragged : FreehandPreview.State :=
  FreehandPreview.run
    [FreehandPreview.StartScreenShare (Some screen);
     FreehandPreview.ToggleDrawMode;
     FreehandPreview.MouseDown (pointerAt 100 100) (Some container);
     FreehandPreview.MouseMove (pointerAt 200 100) (Some container)]
    FreehandPreview.initial.

(** ... and release. *)
Definition circleDrawn : CirclePreview.State :=
  CirclePreview.handleMouseUp circleDragged.

Definition pathDrawn : FreehandPreview.State :=
  FreehandPreview.handleMouseUp pathDragged.

(** The mounted components, sharing, in draw mode and rendered. *)
Definition circleReady : CirclePreview.Mounted :=
  CirclePreview.mount
    (CirclePreview.run
       [CirclePreview.StartScreenShare (Some screen);
        CirclePreview.ToggleDrawMode]
       CirclePreview.initial).

Definition freehandReady : FreehandPreview.Mounted :=
  FreehandPreview.mount
    (FreehandPreview.run
       [FreehandPreview.StartScreenShare (Some screen);
        FreehandPreview.ToggleDrawMode]
       FreehandPreview.initial).

(** A press at (100,100), which React renders, and a move to (200,100)
    that it has not rendered yet. *)
Definition circleMoveWaiting : CirclePreview.Mounted :=
  CirclePreview.play
    [CirclePreview.Handle
       (CirclePreview.MouseDown (pointerAt 100 100) (Some container));
     CirclePreview.Render;
     CirclePreview.Handle
       (CirclePreview.MouseMove (pointerAt 200 100) (Some container))]
    circleReady.

Definition pathMoveWaiting : FreehandPreview.Mounted :=
  FreehandPreview.play
    [FreehandPreview.Handle
       (FreehandPreview.MouseDown (pointerAt 100 100) (Some container));
     FreehandPreview.Render;
     FreehandPreview.Handle
       (FreehandPreview.MouseMove (pointerAt 200 100) (Some container))]
    freehandReady.

(** A press at (0,0), a move to (100,0) that React renders and a move to
    (200,0) that it has not rendered yet. *)
Definition circleSecondMoveWaiting : CirclePreview.Mounted :=
  CirclePreview.play
    [CirclePreview.Handle
       (CirclePreview.MouseDown (pointerAt 0 0) (Some container));
     CirclePreview.Render;
     CirclePreview.Handle
       (CirclePreview.MouseMove (pointerAt 100 0) (Some container));
     CirclePreview.Render;
     CirclePreview.Handle
       (CirclePreview.MouseMove (pointerAt 200 0) (Some container))]
    circleReady.

(** Share, enter draw mode, press at (0,0); the stream then ends while
    the button is still down. *)
Definition circleEndedMidDrag : CirclePreview.State :=
  CirclePreview.run
    [CirclePreview.StartScreenShare (Some screen);
     CirclePreview.ToggleDrawMode;
     CirclePreview.MouseDown (pointerAt 0 0) (Some container);
     CirclePreview.TrackEnded]
    CirclePreview.initial.

(** Share, enter draw mode, stop: draw mode stays on. *)
Definition circleStoppedInDrawMode : CirclePreview.State :=
  CirclePreview.run
    [CirclePreview.StartScreenShare (Some screen);
     CirclePreview.ToggleDrawMode;
     CirclePreview.StopSharing]
    CirclePreview.initial.

Definition freehandStoppedInDrawMode : FreehandPreview.State :=
  FreehandPreview.run
    [FreehandPreview.StartScreenShare (Some screen);
     FreehandPreview.ToggleDrawMode;
     FreehandPreview.StopSharing]
    FreehandPreview.initial.

(** Sharing has just started: nothing drawn yet. *)
Definition circleSharing : CirclePreview.State :=
  CirclePreview.run [CirclePreview.StartScreenShare (Some screen)]
    CirclePreview.initial.

Definition freehandSharing : FreehandPreview.State :=
  FreehandPreview.run [FreehandPreview.StartScreenShare (Some screen)]
    FreehandPreview.initial.

(** The relay answers with a solution / with an error body. *)
Definition capture : jsstring := lit "data:image/png;base64,iVBORw0KGgo=".

Definition solvedBy (answer : string)
    : Relay.InvokeResult Relay.AnalyzeData :=
  Relay.Resolved
    (Some {| Relay.error := None; Relay.solution := Some (lit answer) |})
    None.

Definition refusedWith (reason : string)
    : Relay.InvokeResult Relay.AnalyzeData :=
  Relay.Resolved
    (Some {| Relay.error := Some (lit reason); Relay.solution := None |})
    None.

(** Twenty problems solved one after the other, at times 1 to 20. *)
Definition twentySolved : Index.State :=
  Index.run
    (map (fun n => Index.Analyze n n capture (solvedBy "x = 2"))
       (map N.of_nat (seq 1 20)))
    Index.initial.

(** The page after one problem was solved, at time 1. *)
Definition oneSolved : Index.Page :=
  Index.unfold
    [Index.Capture capture; Index.Settle 1 1 (solvedBy "x = 2")]
    (Index.open Index.initial).

(** A solved problem whose solution has 91 code units. *)
Definition explained : HistoryItem.t :=
  {| HistoryItem.id := lit "7";
     HistoryItem.image := capture;
     HistoryItem.solution :=
       Some (lit "The derivative of x^2 is 2x, so the slope at x = 3 is 6 and the tangent line is y = 6x - 9.");
     HistoryItem.timestamp := 7 |}.

(** A chat with a picture attached and only blanks typed. *)
Definition pictureOnly : DavidChat.State :=
  {| DavidChat.messages := [DavidChat.welcome];
     DavidChat.input := lit "  ";
     DavidChat.isLoading := false;
     DavidChat.pendingImage := Some capture |}.

(** A chat with only blanks typed and nothing attached. *)
Definition blankInput : DavidChat.State :=
  {| DavidChat.messages := [DavidChat.welcome];
     DavidChat.input := lit "  ";
     DavidChat.isLoading := false;
     DavidChat.pendingImage := None |}.

End Scenario.

(** ** The overlay renderer: the effect that redraws the overlay canvas *)

Module Overlay.

Local Open Scope float_scope.

(** Assigning [canvas.width] or [canvas.height] clears the bitmap and puts
    the context back in its initial state. *)
Definition resizeCanvas (ctx : Context2D) : Context2D := freshContext.

(** [ctx.clearRect(0, 0, canvas.width, canvas.height)]: the rectangle is
    the whole backing store. *)
Definition clearCanvas (ctx : Context2D) : Context2D :=
  {| pen := pen ctx; path := path ctx; painted := [] |}.

(** One circle of the overlay, at its recorded coordinates. *)
Definition strokeOverlayCircle (circle : CirclePreview.DrawingCircle)
    (ctx : Context2D) : Context2D :=
  let ctx := beginPath ctx in
  let ctx := arc (CirclePreview.x circle) (CirclePreview.y circle)
                 (CirclePreview.radius circle) 0 (2 * Math_PI) ctx in
  stroke ctx.

(** [drawOverlay] of the circle variant.  [canvasRef] tells whether the
    overlay canvas is mounted, [videoRef] is [videoRef.current], [canvas]
    is the context the canvas had and [getContext] tells whether
    [getContext("2d")] returned it.  The result is the canvas after the
    effect, [None] when the effect returned without touching it. *)
Definition drawCircleOverlay (canvasRef : bool)
    (videoRef : option HTMLVideoElement) (canvas : Context2D)
    (getContext : bool) (s : CirclePreview.State) : option Image :=
  match canvasRef, videoRef, CirclePreview.isSharing s with
  | true, Some video, true =>
      if getContext then
        let canvas_width := offsetWidth video in
        let canvas_height := offsetHeight video in
        let ctx := resizeCanvas canvas in
        let ctx := clearCanvas ctx in
        let ctx := set_strokeStyle "#00d4ff" ctx in
        let ctx := set_lineWidth 3 ctx in
        let ctx := setLineDash [5; 5] ctx in
        let ctx := forEach strokeOverlayCircle (CirclePreview.circles s) ctx in
        let ctx :=
          match CirclePreview.currentCircle s with
          | Some currentCircle => strokeOverlayCircle currentCircle ctx
          | None => ctx
          end in
        Some {| width := canvas_width; height := canvas_height;
                content := painted ctx |}
      else None
  | _, _, _ => None
  end.

(** [drawPath] of the freehand variant. *)
Definition drawPath (points : list Geometry.Point) (ctx : Context2D)
    : Context2D :=
  if (List.length points <? 2)%nat then ctx
  else
    let ctx := beginPath ctx in
    let ctx := moveTo (Geometry.x (FreehandPreview.at_index points 0))
                      (Geometry.y (FreehandPreview.at_index points 0)) ctx in
    let ctx :=
      for_range 1 (List.length points)
        (fun i ctx =>
           lineTo (Geometry.x (FreehandPreview.at_index points i))
                  (Geometry.y (FreehandPreview.at_index points i)) ctx)
        ctx in
    stroke ctx.

(** [drawOverlay] of the freehand variant. *)
Definition drawFreehandOverlay (canvasRef : bool)
    (videoRef : option HTMLVideoElement) (canvas : Context2D)
    (getContext : bool) (s : FreehandPreview.State) : option Image :=
  match canvasRef, videoRef, FreehandPreview.isSharing s with
  | true, Some video, true =>
      if getContext then
        let canvas_width := offsetWidth video in
        let canvas_height := offsetHeight video in
        let ctx := resizeCanvas canvas in
        let ctx := clearCanvas ctx in
        let ctx := set_strokeStyle "#00d4ff" ctx in
        let ctx := set_lineWidth 3 ctx in
        let ctx := set_lineCap "round" ctx in
        let ctx := set_lineJoin "round" ctx in
        let ctx :=
          forEach (fun path => drawPath (FreehandPreview.points path))
            (FreehandPreview.paths s) ctx in
        let ctx :=
          if (1 <? List.length (FreehandPreview.currentPath s))%nat
          then drawPath (FreehandPreview.currentPath s) ctx
          else ctx in
        Some {| width := canvas_width; height := canvas_height;
                content := painted ctx |}
      else None
  | _, _, _ => None
  end.

(** The pens of the live overlay. *)
Definition circlePen : Pen :=
  {| strokeStyle := "#00d4ff"; lineWidth := 3; lineDash := [5; 5];
     lineCap := "butt"; lineJoin := "miter" |}.

Definition freehandPen : Pen :=
  {| strokeStyle := "#00d4ff"; lineWidth := 3; lineDash := [];
     lineCap := "round"; lineJoin := "round" |}.

(** What the overlay shows of a circle and of a path. *)
Definition shownCircle (c : CirclePreview.DrawingCircle) : list paint :=
  strokeRound circlePen
    (CirclePreview.x c) (CirclePreview.y c) (CirclePreview.radius c).

Definition coordinates (pts : list Geometry.Point) : list (number * number) :=
  map (fun p => (Geometry.x p, Geometry.y p)) pts.

Definition shownPath (pts : list Geometry.Point) : list paint :=
  strokeThrough freehandPen (coordinates pts).

(** The points a displayed polyline goes through. *)
Definition through (path : list segment) : list (number * number) :=
  flat_map (fun sg => match sg with
                      | MoveTo x y | LineTo x y => [(x, y)]
                      | Arc _ _ _ _ _ => []
                      end) path.

(** What burning a displayed stroke into the capture gives: the stroke
    drawn again with the pen of the capture, every coordinate scaled per
    axis, the radius of a circle scaled by the larger factor. *)
Definition burnIn (capturePen : Pen) (video : HTMLVideoElement) (p : paint)
    : list paint :=
  let scaleX := Compositor.scaleX video in
  let scaleY := Compositor.scaleY video in
  match p with
  | Stroke _ [Arc x y r _ _] =>
      strokeRound capturePen (x * scaleX) (y * scaleY)
        (r * Math_max scaleX scaleY)
  | Stroke _ path =>
      strokeThrough capturePen
        (map (fun c => (fst c * scaleX, snd c * scaleY)) (through path))
  | Frame dx dy => [Frame dx dy]
  end.

End Overlay.

(** ** What a session keeps true *)

Module Session.

(** The stream is held exactly while sharing, an anchor exactly while
    dragging, and nothing is in progress outside a drag. *)
Definition circleCoherent (s : CirclePreview.State) : Prop :=
  (CirclePreview.isSharing s = true <-> CirclePreview.stream s <> None)
  /\ (CirclePreview.isDrawing s = true <-> CirclePreview.drawStart s <> None)
  /\ (CirclePreview.isDrawing s = false -> CirclePreview.currentCircle s = None).

Definition freehandCoherent (s : FreehandPreview.State) : Prop :=
  (FreehandPreview.isSharing s = true <-> FreehandPreview.stream s <> None)
  /\ (FreehandPreview.isDrawing s = false -> FreehandPreview.currentPath s = []).

(** The shape in progress of the circle variant, as a list. *)
Definition inProgress (s : CirclePreview.State)
    : list CirclePreview.DrawingCircle :=
  match CirclePreview.currentCircle s with
  | Some c => [c]
  | None => []
  end.

End Session.

(** ** The order of the history *)

Module HistoryOrder.

(** The clock readings [new Date()] of the analyses among the events, in
    the order they were taken. *)
Definition dates (evs : list Index.Event) : list N :=
  flat_map (fun ev => match ev with
                      | Index.Analyze _ date _ _ => [date]
                      | _ => []
                      end) evs.

(** [a] was taken no earlier than [b]. *)
Definition noOlder (a b : HistoryItem.t) : Prop :=
  (HistoryItem.timestamp b <= HistoryItem.timestamp a)%N.

(** The toasts among the effects of a handler. *)
Definition toasts (fx : list Index.Effect) : list Index.Effect :=
  filter (fun e => match e with Index.Toast _ _ _ => true | _ => false end) fx.

End HistoryOrder.

(** ** HistoryPanel (src/components/HistoryPanel.tsx) *)

Module HistoryPanel.

(** One entry of the list: the React key, the thumbnail source, the text
    shown and the time (shown in the locale's format). *)
Record Row := {
  key : jsstring;
  src : jsstring;
  preview : jsstring;
  time : N
}.

Inductive View :=
| Placeholder
| Panel (count : nat) (rows : list Row).

(** The message of the TypeError raised by reading a property of
    [undefined]. *)
Definition undefinedPropertyMessage (prop : string) : jsstring :=
  lit ("Cannot read properties of undefined (reading '" ++ prop ++ "')")%string.

(** The body of [history.map((item) => ...)] for one item:
    [item.solution.slice(0, 50)] followed by the literal dots. *)
Definition row (item : HistoryItem.t) : Relay.completion Row :=
  match HistoryItem.solution item with
  | Some solution =>
      Relay.Normal
        {| key := HistoryItem.id item;
           src := HistoryItem.image item;
           preview := slice 0 50 solution ++ lit "...";
           time := HistoryItem.timestamp item |}
  | None => Relay.Throw (undefinedPropertyMessage "slice")
  end.

(** The row of an item, in the words of the panel: key, thumbnail and
    time of the item, and the start of its solution followed by dots. *)
Definition shown (item : HistoryItem.t) : Row :=
  {| key := HistoryItem.id item;
     src := HistoryItem.image item;
     preview :=
       firstn 50 (match HistoryItem.solution item with
                  | Some solution => solution
                  | None => []
                  end)
       ++ lit "...";
     time := HistoryItem.timestamp item |}.

(** [history.map(...)]: the items in order, up to the first that throws. *)
Fixpoint rows (history : list HistoryItem.t) : Relay.completion (list Row) :=
  match history with
  | [] => Relay.Normal []
  | item :: rest =>
      match row item with
      | Relay.Throw m => Relay.Throw m
      | Relay.Normal r =>
          match rows rest with
          | Relay.Throw m => Relay.Throw m
          | Relay.Normal rs => Relay.Normal (r :: rs)
          end
      end
  end.

Definition render (history : list HistoryItem.t) : Relay.completion View :=
  if (List.length history =? 0)%nat then Relay.Normal Placeholder
  else
    match rows history with
    | Relay.Throw m => Relay.Throw m
    | Relay.Normal rs => Relay.Normal (Panel (List.length history) rs)
    end.

End HistoryPanel.

(** ** DavidChat: the remaining handlers and a whole conversation *)

Module ChatSession.

Import DavidChat.

Fixpoint sameString (a b : jsstring) : bool :=
  match a, b with
  | [], [] => true
  | c :: a', d :: b' => (c =? d)%N && sameString a' b'
  | _, _ => false
  end.

(** [handleImageUpload]; [file] is what the reader hands to [onload] for
    [e.target.files?.[0]], [None] when no file was chosen.  Emptying the
    file input afterwards touches no state of the component. *)
Definition handleImageUpload (file : option jsstring) (s : State) : State :=
  match file with
  | None => s
  | Some result => setPendingImage (Some result) s
  end.

(** [handleKeyPress]: Enter without Shift calls [sendMessage], given here
    as [send]. *)
Definition handleKeyPress (key : jsstring) (shiftKey : bool)
    (send : State -> State * list Effect) (s : State)
    : State * list Effect :=
  if sameString key (lit "Enter") && negb shiftKey
  then send s
  else (s, []).

(** What can happen to the chat.  A send runs up to its [await]; the
    relay's answer comes as an event of its own, and only a request in
    flight has one. *)
Inductive Event :=
| Type_ (value : jsstring)
| ImageChosen (file : option jsstring)
| RemoveImage
| Send (now : N)
| KeyDown (key : jsstring) (shiftKey : bool) (now : N)
| Answer (later : N) (r : Relay.InvokeResult Relay.ChatData).

Definition step (ev : Event) (s : State) : State * list Effect :=
  match ev with
  | Type_ value => (setInput value s, [])
  | ImageChosen file => (handleImageUpload file s, [])
  | RemoveImage => (setPendingImage None s, [])
  | Send now => sendMessageBegin now s
  | KeyDown key shiftKey now =>
      handleKeyPress key shiftKey (sendMessageBegin now) s
  | Answer later r =>
      if isLoading s then sendMessageSettle later r s else (s, [])
  end.

Fixpoint run (evs : list Event) (s : State) : State :=
  match evs with
  | [] => s
  | ev :: evs' => run evs' (fst (step ev s))
  end.

(** The relay answered with a text to show. *)
Definition answered (r : Relay.InvokeResult Relay.ChatData) (text : jsstring)
    : Prop :=
  exists d, r = Relay.Resolved (Some d) None
            /\ Relay.response d = Some text /\ truthy text = true.

(** The relay call went through but the body has no text. *)
Definition answeredNothing (r : Relay.InvokeResult Relay.ChatData) : Prop :=
  exists d, r = Relay.Resolved (Some d) None
            /\ (Relay.response d = None \/ Relay.response d = Some []).

(** The relay call failed: it threw, the client reported an error, or
    there is no body. *)
Definition broke (r : Relay.InvokeResult Relay.ChatData) : Prop :=
  (exists reason, r = Relay.Rejected reason)
  \/ (exists data err, r = Relay.Resolved data (Some err))
  \/ r = Relay.Resolved None None.

(** A conversation: the welcome, then user messages each followed by an
    assistant message. *)
Fixpoint alternating (roles : list ChatMessage.Role) : Prop :=
  match roles with
  | [] => True
  | ChatMessage.user :: ChatMessage.assistant :: rest => alternating rest
  | _ => False
  end.

(** The welcome comes first; then the turns, the last one still waiting
    for its assistant message exactly while a request is in flight; no
    message has an empty text or an empty image. *)
Definition wellFormed (s : State) : Prop :=
  (exists rest,
     messages s = welcome :: rest
     /\ alternating
          (map ChatMessage.role rest
           ++ (if isLoading s then [ChatMessage.assistant] else [])))
  /\ Forall (fun m => truthy (ChatMessage.content m) = true) (messages s)
  /\ Forall (fun m => ChatMessage.image m <> Some []) (messages s).

End ChatSession.

(** The bodies of the requests among the effects of a chat handler. *)
Definition chatRequests (fx : list DavidChat.Effect)
    : list (list (ChatMessage.Role * jsstring * option jsstring)) :=
  flat_map (fun e => match e with
                     | DavidChat.Invoke _ body => [body]
                     | DavidChat.ConsoleError _ _ => []
                     end) fx.

(** The assistant message [sendMessage] appends for a result of the relay
    call. *)
Definition chatReply (later : N) (r : Relay.InvokeResult Relay.ChatData)
    : ChatMessage.t :=
  match DavidChat.replyTry later r with
  | Relay.Normal assistantMessage => assistantMessage
  | Relay.Throw _ =>
      {| ChatMessage.id := toString (later + 1);
         ChatMessage.role := ChatMessage.assistant;
         ChatMessage.content :=
           lit "Oops! Something went wrong. Please try again.";
         ChatMessage.image := None |}
  end.

(** ** The david-chat relay (supabase/functions/david-chat/index.ts) *)

Module DavidChatRelay.

Import Relay(completion, Normal, Throw).

(** One message of the request body: [{ role, content, image? }]. *)
Record WireMessage := {
  role : jsstring;
  content : jsstring;
  image : option jsstring
}.

(** What is sent to the gateway for one message. *)
Inductive Part :=
| ImageUrl (url : jsstring)
| Text (text : jsstring).

Inductive Content :=
| Plain (text : jsstring)
| Parts (parts : list Part).

Record GatewayMessage := { gatewayRole : jsstring; gatewayContent : Content }.

Record GatewayRequest := {
  authorization : jsstring;
  model : jsstring;
  gatewayMessages : list GatewayMessage
}.

(** What [fetch] resolves to: a network failure, or a response with its
    status, its body read as text and its body read as JSON down to
    [choices?.[0]?.message?.content]. *)
Inductive FetchResult :=
| NetworkError (message : jsstring)
| Fetched (status : N) (text : completion jsstring)
    (json : completion (option jsstring)).

Inductive Body :=
| NoBody
| ErrorJson (error : jsstring)
| ResponseJson (response : option jsstring).

Record Response := {
  status : N;
  headers : list (string * string);
  body : Body
}.

Inductive Effect :=
| Fetch (request : GatewayRequest)
| ConsoleLog (text : string)
| ConsoleError (label : string) (detail : jsstring).

Definition corsHeaders : list (string * string) :=
  [("Access-Control-Allow-Origin", "*");
   ("Access-Control-Allow-Headers",
    "authorization, x-client-info, apikey, content-type")]%string.

Definition jsonHeaders : list (string * string) :=
  corsHeaders ++ [("Content-Type", "application/json")]%string.

Definition systemPrompt : jsstring :=
  lit "You are David, a friendly and helpful math tutor. When users send you images of math problems, analyze them carefully and learn from them. You can help solve similar problems and explain approaches. Keep your responses concise. When someone sends an image, acknowledge it and describe what math problem you see. Be supportive and encouraging.".

(** The callback of [messages.map]. *)
Definition format (m : WireMessage) : GatewayMessage :=
  if Relay.truthyOpt (image m) then
    {| gatewayRole := role m;
       gatewayContent :=
         Parts [ImageUrl (match image m with Some url => url | None => [] end);
                Text (or_else (content m)
                        (lit "What math problem is in this image?"))] |}
  else {| gatewayRole := role m; gatewayContent := Plain (content m) |}.

(** [response.ok]. *)
Definition ok (status : N) : bool := ((200 <=? status) && (status <=? 299))%N.

(** The [try] block; [body] is [await req.json()] down to its [messages]
    property and [apiKey] the environment variable. *)
Definition tryServe (body : completion (option (list WireMessage)))
    (apiKey : option jsstring) (fetch : GatewayRequest -> FetchResult)
    : completion Response * list Effect :=
  match body with
  | Throw m => (Throw m, [])
  | Normal messages =>
      match (if Relay.truthyOpt apiKey then apiKey else None) with
      | None => (Throw (lit "LOVABLE_API_KEY is not configured"), [])
      | Some key =>
          let log1 := ConsoleLog "David chat - processing message" in
          match messages with
          | None =>
              (Throw (HistoryPanel.undefinedPropertyMessage "map"), [log1])
          | Some messages =>
              let formattedMessages := map format messages in
              let request :=
                {| authorization := lit "Bearer " ++ key;
                   model := lit "google/gemini-2.5-flash";
                   gatewayMessages :=
                     {| gatewayRole := lit "system";
                        gatewayContent := Plain systemPrompt |}
                     :: formattedMessages |} in
              match fetch request with
              | NetworkError m => (Throw m, [log1; Fetch request])
              | Fetched status text json =>
                  if negb (ok status) then
                    match text with
                    | Throw m => (Throw m, [log1; Fetch request])
                    | Normal errorText =>
                        let log2 :=
                          ConsoleError "AI gateway error:"
                            (toString status ++ lit " " ++ errorText) in
                        if (status =? 429)%N then
                          (Normal
                             {| status := 429; headers := jsonHeaders;
                                body := ErrorJson
                                  (lit "Rate limit exceeded. Please try again in a moment.") |},
                           [log1; Fetch request; log2])
                        else if (status =? 402)%N then
                          (Normal
                             {| status := 402; headers := jsonHeaders;
                                body := ErrorJson
                                  (lit "Usage limit reached. Please add credits to continue.") |},
                           [log1; Fetch request; log2])
                        else
                          (Throw (lit "AI gateway error: " ++ toString status),
                           [log1; Fetch request; log2])
                    end
                  else
                    match json with
                    | Throw m => (Throw m, [log1; Fetch request])
                    | Normal responseText =>
                        (Normal {| status := 200; headers := jsonHeaders;
                                   body := ResponseJson responseText |},
                         [log1; Fetch request;
                          ConsoleLog "David chat - response generated"])
                    end
              end
          end
      end
  end.

(** The handler given to [serve]. *)
Definition handler (method : jsstring)
    (body : completion (option (list WireMessage)))
    (apiKey : option jsstring) (fetch : GatewayRequest -> FetchResult)
    : Response * list Effect :=
  if ChatSession.sameString method (lit "OPTIONS") then
    ({| status := 200; headers := corsHeaders; body := NoBody |}, [])
  else
    match tryServe body apiKey fetch with
    | (Normal response, fx) => (response, fx)
    | (Throw message, fx) =>
        ({| status := 500; headers := jsonHeaders; body := ErrorJson message |},
         fx ++ [ConsoleError "Error in david-chat function:" message])
    end.

(** The requests made to the gateway among the effects. *)
Definition fetches (fx : list Effect) : list GatewayRequest :=
  flat_map (fun e => match e with Fetch request => [request] | _ => [] end) fx.

(** The request body [DavidChat] sends, as the relay parses it. *)
Definition roleName (r : ChatMessage.Role) : jsstring :=
  match r with
  | ChatMessage.user => lit "user"
  | ChatMessage.assistant => lit "assistant"
  end.

Definition received (m : ChatMessage.Role * jsstring * option jsstring)
    : WireMessage :=
  let '(r, c, i) := m in {| role := roleName r; content := c; image := i |}.

(** A message as the gateway should see it: its text as it is, after its
    image when it has one. *)
Definition forwarded (m : ChatMessage.t) : GatewayMessage :=
  {| gatewayRole := roleName (ChatMessage.role m);
     gatewayContent :=
       match ChatMessage.image m with
       | Some url => Parts [ImageUrl url; Text (ChatMessage.content m)]
       | None => Plain (ChatMessage.content m)
       end |}.

End DavidChatRelay.

(** ** A whole drag *)

Module Drag.

(** What comes between a press and a release: pointer moves, and renders
    ([None]) wherever React fits them in. *)
Definition course := list (option MouseEvent).

(** The pointer positions of the moves of a course, in order. *)
Definition moved (rect : DOMRect) (c : course) : list Geometry.Point :=
  flat_map (fun h => match h with
                     | Some e => [Geometry.pointer e rect]
                     | None => []
                     end) c.

Definition circleMoves (rect : DOMRect) (c : course)
    : list CirclePreview.Happening :=
  map (fun h => match h with
                | Some e =>
                    CirclePreview.Handle (CirclePreview.MouseMove e (Some rect))
                | None => CirclePreview.Render
                end) c.

Definition freehandMoves (rect : DOMRect) (c : course)
    : list FreehandPreview.Happening :=
  map (fun h => match h with
                | Some e =>
                    FreehandPreview.Handle
                      (FreehandPreview.MouseMove e (Some rect))
                | None => FreehandPreview.Render
                end) c.

(** A press at [e0], rendered; a course of moves, the last one to [e];
    a render; the release.  All inside a container at [rect]. *)
Definition circleDrag (rect : DOMRect) (e0 : MouseEvent) (c : course)
    (e : MouseEvent) : list CirclePreview.Happening :=
  CirclePreview.Handle (CirclePreview.MouseDown e0 (Some rect))
  :: CirclePreview.Render
  :: circleMoves rect c
  ++ [CirclePreview.Handle (CirclePreview.MouseMove e (Some rect));
      CirclePreview.Render;
      CirclePreview.Handle CirclePreview.MouseUp].

Definition freehandDrag (rect : DOMRect) (e0 : MouseEvent) (c : course)
    : list FreehandPreview.Happening :=
  FreehandPreview.Handle (FreehandPreview.MouseDown e0 (Some rect))
  :: FreehandPreview.Render
  :: freehandMoves rect c
  ++ [FreehandPreview.Render;
      FreehandPreview.Handle FreehandPreview.MouseUp].

End Drag.

(** * Properties *)

(** ** Lists *)

Lemma app_one_neq {A} (l : list A) (a : A) : l ++ [a] <> l.
Proof.
  intro H. apply (f_equal (@List.length A)) in H.
  rewrite length_app in H. simpl in H. lia.
Qed.

Lemma slice_0_length {A} (n : nat) (l : list A) :
  List.length (slice 0 n l) <= n.
Proof.
  unfold slice. simpl. rewrite Nat.sub_0_r. apply firstn_le_length.
Qed.

(** ** Events and renders *)

(** When React renders after every event, the mounted component goes
    through the states of [step], with the same effects. *)
Lemma circle_handled_then_rendered (ev : CirclePreview.Event)
    (s : CirclePreview.State) :
  let handled :=
    CirclePreview.happen (CirclePreview.Handle ev) (CirclePreview.mount s) in
  fst (CirclePreview.happen CirclePreview.Render (fst handled))
  = CirclePreview.mount (fst (CirclePreview.step ev s))
  /\ snd handled = snd (CirclePreview.step ev s).
Proof.
  cbv zeta. unfold CirclePreview.happen, CirclePreview.handle.
  destruct ev;
    cbn [CirclePreview.mount CirclePreview.rendered CirclePreview.latest
         CirclePreview.step fst snd];
    try (split; reflexivity).
  - destruct (CirclePreview.startScreenShare granted s). split; reflexivity.
  - unfold CirclePreview.stopSharing.
    destruct (CirclePreview.Closure.stopSharing s s). split; reflexivity.
Qed.

Lemma freehand_handled_then_rendered (ev : FreehandPreview.Event)
    (s : FreehandPreview.State) :
  let handled :=
    FreehandPreview.happen (FreehandPreview.Handle ev)
      (FreehandPreview.mount s) in
  fst (FreehandPreview.happen FreehandPreview.Render (fst handled))
  = FreehandPreview.mount (fst (FreehandPreview.step ev s))
  /\ snd handled = snd (FreehandPreview.step ev s).
Proof.
  cbv zeta. unfold FreehandPreview.happen, FreehandPreview.handle.
  destruct ev;
    cbn [FreehandPreview.mount FreehandPreview.rendered
         FreehandPreview.latest FreehandPreview.step fst snd];
    try (split; reflexivity).
  - destruct (FreehandPreview.startScreenShare granted s). split; reflexivity.
  - unfold FreehandPreview.stopSharing.
    destruct (FreehandPreview.Closure.stopSharing s s). split; reflexivity.
Qed.

(** ** The recorder: commit *)

Section Commit.

Import CirclePreview.

Variables render s : State.

Lemma release_clears_circle :
  currentCircle (Closure.handleMouseUp render s) = None
  /\ drawStart (Closure.handleMouseUp render s) = None
  /\ isDrawing (Closure.handleMouseUp render s) = false.
Proof. unfold Closure.handleMouseUp. repeat split. Qed.

Lemma release_circles :
  circles (Closure.handleMouseUp render s) =
  match currentCircle render with
  | Some c => if gt (radius c) 10 then circles s ++ [c] else circles s
  | None => circles s
  end.
Proof.
  unfold Closure.handleMouseUp.
  destruct (currentCircle render) as [c|]; [destruct (gt (radius c) 10)|];
    reflexivity.
Qed.

End Commit.

Lemma mouseUp_circles (s : CirclePreview.State) :
  CirclePreview.circles (CirclePreview.handleMouseUp s) =
  match CirclePreview.currentCircle s with
  | Some c =>
      if gt (CirclePreview.radius c) 10
      then CirclePreview.circles s ++ [c]
      else CirclePreview.circles s
  | None => CirclePreview.circles s
  end.
Proof. apply release_circles. Qed.

Section CommitFreehand.

Import FreehandPreview.

Variables render s : State.

Lemma release_paths :
  paths (Closure.handleMouseUp render s) =
  if (1 <? List.length (currentPath render))%nat
  then paths s ++ [{| points := currentPath render |}]
  else paths s.
Proof.
  unfold Closure.handleMouseUp.
  destruct (1 <? List.length (currentPath render))%nat; reflexivity.
Qed.

End CommitFreehand.

Lemma mouseUp_paths (s : FreehandPreview.State) :
  FreehandPreview.paths (FreehandPreview.handleMouseUp s) =
  if (1 <? List.length (FreehandPreview.currentPath s))%nat
  then FreehandPreview.paths s
       ++ [{| FreehandPreview.points := FreehandPreview.currentPath s |}]
  else FreehandPreview.paths s.
Proof. apply release_paths. Qed.

(** C3.  A release appends a shape exactly when the shape in progress of
    the render its handler belongs to meets the threshold (a circle of
    radius > 10, a path of at least 2 points), appends that shape, and
    leaves nothing in progress.  That is the shape in progress only once
    every pointer move has been rendered: after a press that is rendered,
    a move and a release handled before the next render commit nothing,
    although the path in progress has two points and the circle in
    progress a radius of 50. *)
Theorem release_commits_shape_of_its_render
    (render s : CirclePreview.State) (render' t : FreehandPreview.State) :
  (let s' := CirclePreview.Closure.handleMouseUp render s in
   CirclePreview.currentCircle s' = None
   /\ (forall c, CirclePreview.currentCircle render = Some c ->
         (CirclePreview.circles s' = CirclePreview.circles s ++ [c]
          <-> CirclePreview.retained c)
         /\ (~ CirclePreview.retained c ->
             CirclePreview.circles s' = CirclePreview.circles s))
   /\ (CirclePreview.currentCircle render = None ->
       CirclePreview.circles s' = CirclePreview.circles s))
  /\
  (let t' := FreehandPreview.Closure.handleMouseUp render' t in
   let drawn :=
     {| FreehandPreview.points := FreehandPreview.currentPath render' |} in
   FreehandPreview.currentPath t' = []
   /\ (FreehandPreview.paths t' = FreehandPreview.paths t ++ [drawn]
       <-> FreehandPreview.retained (FreehandPreview.currentPath render'))
   /\ (~ FreehandPreview.retained (FreehandPreview.currentPath render') ->
       FreehandPreview.paths t' = FreehandPreview.paths t))
  /\
  (let m := Scenario.pathMoveWaiting in
   let m' :=
     FreehandPreview.play
       [FreehandPreview.Handle FreehandPreview.MouseUp; FreehandPreview.Render]
       m in
   FreehandPreview.currentPath (FreehandPreview.latest m)
   = [{| Geometry.x := 100; Geometry.y := 100 |};
      {| Geometry.x := 200; Geometry.y := 100 |}]
   /\ FreehandPreview.currentPath (FreehandPreview.rendered m)
      = [{| Geometry.x := 100; Geometry.y := 100 |}]
   /\ FreehandPreview.paths (FreehandPreview.latest m') = []
   /\ FreehandPreview.currentPath (FreehandPreview.latest m') = [])
  /\
  (let m := Scenario.circleMoveWaiting in
   let m' :=
     CirclePreview.play
       [CirclePreview.Handle CirclePreview.MouseUp; CirclePreview.Render] m in
   CirclePreview.currentCircle (CirclePreview.latest m)
   = Some {| CirclePreview.x := 150; CirclePreview.y := 100;
             CirclePreview.radius := 50 |}
   /\ CirclePreview.currentCircle (CirclePreview.rendered m) = None
   /\ CirclePreview.circles (CirclePreview.latest m') = []
   /\ CirclePreview.currentCircle (CirclePreview.latest m') = None).
Proof.
  split; [|split; [|split]]; cbv zeta.
  - split; [apply release_clears_circle|].
    rewrite release_circles. split.
    + intros c Hc. rewrite Hc. unfold CirclePreview.retained.
      destruct (gt (CirclePreview.radius c) 10) eqn:Hr.
      * repeat split; congruence.
      * split; [split|reflexivity].
        -- intro H. symmetry in H. now apply app_one_neq in H.
        -- discriminate.
    + intros Hc. now rewrite Hc.
  - split; [reflexivity|].
    rewrite release_paths. unfold FreehandPreview.retained.
    destruct (Nat.ltb_spec 1 (List.length (FreehandPreview.currentPath render')))
      as [Hl|Hl].
    + repeat split; [lia | intro Hn; exfalso; apply Hn; lia].
    + split; [split|reflexivity].
      * intro H. symmetry in H. now apply app_one_neq in H.
      * lia.
  - repeat split.
  - repeat split.
Qed.

(** ** The session controller: leaving the sharing state *)

(** A handler that leaves [isSharing] as it is cannot be what turns it
    off; these tactics split a handler along its guards. *)
Ltac split_guards :=
  repeat match goal with
         | |- context [match ?o with Some _ => _ | None => _ end] => destruct o
         | |- context [if ?b then _ else _] => destruct b
         | |- context [match ?l with [] => _ | _ :: _ => _ end] => destruct l
         end.

Lemma circle_step_keeps_sharing_or_clears
    (ev : CirclePreview.Event) (s : CirclePreview.State) :
  CirclePreview.isSharing (fst (CirclePreview.step ev s)) = true
  \/ CirclePreview.isSharing (fst (CirclePreview.step ev s))
     = CirclePreview.isSharing s
  \/ CirclePreview.circles (fst (CirclePreview.step ev s)) = [].
Proof.
  destruct s as [sh st dr ds cs cc dm].
  destruct ev; simpl;
    unfold CirclePreview.startScreenShare, CirclePreview.handleMouseDown,
      CirclePreview.handleMouseMove, CirclePreview.handleMouseUp,
      CirclePreview.stopSharing, CirclePreview.Closure.handleMouseDown,
      CirclePreview.Closure.handleMouseMove,
      CirclePreview.Closure.handleMouseUp, CirclePreview.Closure.stopSharing;
    simpl;
    split_guards; simpl; auto.
Qed.

Lemma freehand_step_keeps_sharing_or_clears
    (ev : FreehandPreview.Event) (s : FreehandPreview.State) :
  FreehandPreview.isSharing (fst (FreehandPreview.step ev s)) = true
  \/ FreehandPreview.isSharing (fst (FreehandPreview.step ev s))
     = FreehandPreview.isSharing s
  \/ FreehandPreview.paths (fst (FreehandPreview.step ev s)) = [].
Proof.
  destruct s as [sh st dr ps cp dm].
  destruct ev; simpl;
    unfold FreehandPreview.startScreenShare, FreehandPreview.handleMouseDown,
      FreehandPreview.handleMouseMove, FreehandPreview.handleMouseUp,
      FreehandPreview.stopSharing, FreehandPreview.Closure.handleMouseDown,
      FreehandPreview.Closure.handleMouseMove,
      FreehandPreview.Closure.handleMouseUp,
      FreehandPreview.Closure.stopSharing;
    simpl;
    split_guards; simpl; auto.
Qed.

(** C2.  Whatever takes [isSharing] from true to false, the committed
    shapes are empty right after it; the explicit stop and the ended
    stream both turn sharing off and clear the shapes. *)
Theorem shapes_cleared_when_sharing_stops
    (s : CirclePreview.State) (ev : CirclePreview.Event)
    (t : FreehandPreview.State) (ev' : FreehandPreview.Event) :
  (CirclePreview.isSharing (fst (CirclePreview.stopSharing s)) = false
   /\ CirclePreview.circles (fst (CirclePreview.stopSharing s)) = []
   /\ CirclePreview.isSharing (CirclePreview.onended s) = false
   /\ CirclePreview.circles (CirclePreview.onended s) = []
   /\ (CirclePreview.isSharing s = true ->
       CirclePreview.isSharing (fst (CirclePreview.step ev s)) = false ->
       CirclePreview.circles (fst (CirclePreview.step ev s)) = []))
  /\
  (FreehandPreview.isSharing (fst (FreehandPreview.stopSharing t)) = false
   /\ FreehandPreview.paths (fst (FreehandPreview.stopSharing t)) = []
   /\ FreehandPreview.isSharing (FreehandPreview.onended t) = false
   /\ FreehandPreview.paths (FreehandPreview.onended t) = []
   /\ (FreehandPreview.isSharing t = true ->
       FreehandPreview.isSharing (fst (FreehandPreview.step ev' t)) = false ->
       FreehandPreview.paths (fst (FreehandPreview.step ev' t)) = [])).
Proof.
  split.
  - repeat split;
      try (unfold CirclePreview.stopSharing, CirclePreview.Closure.stopSharing;
           destruct (CirclePreview.stream s); reflexivity).
    intros Hon Hoff.
    destruct (circle_step_keeps_sharing_or_clears ev s) as [H|[H|H]];
      congruence.
  - repeat split;
      try (unfold FreehandPreview.stopSharing,
             FreehandPreview.Closure.stopSharing;
           destruct (FreehandPreview.stream t); reflexivity).
    intros Hon Hoff.
    destruct (freehand_step_keeps_sharing_or_clears ev' t) as [H|[H|H]];
      congruence.
Qed.

(** C2 at a session with one committed shape: stopped by the user in the
    circle variant, ended from outside in the freehand variant. *)
Lemma shapes_cleared_when_sharing_stops_witness :
  CirclePreview.circles
    (fst (CirclePreview.step CirclePreview.StopSharing Scenario.circleDrawn))
  = []
  /\ FreehandPreview.paths
       (fst (FreehandPreview.step FreehandPreview.TrackEnded Scenario.pathDrawn))
     = [].
Proof.
  destruct (shapes_cleared_when_sharing_stops
              Scenario.circleDrawn CirclePreview.StopSharing
              Scenario.pathDrawn FreehandPreview.TrackEnded)
    as [[_ [_ [_ [_ Hc]]]] [_ [_ [_ [_ Hp]]]]].
  split; [apply Hc | apply Hp]; reflexivity.
Defined.

(** ** The recorder: extend, circle variant *)

Section Extend.

Import CirclePreview.
Import Geometry(Point, pointer, midpoint, distance).

Lemma extend_circleThrough (render s : State) (e : MouseEvent) (rect : DOMRect)
    (a : Point) :
  isDrawing render = true -> drawStart render = Some a ->
  Closure.handleMouseMove render e (Some rect) s
  = setCurrentCircle (Some (circleThrough a (pointer e rect))) s.
Proof.
  intros Hd Ha. unfold Closure.handleMouseMove. rewrite Hd, Ha. reflexivity.
Qed.

End Extend.

(** C5.  In circle mode a pointer move to [p], handled by a render that
    shows the anchor [a], sets the circle in progress to the one centered
    at the midpoint of [a] and [p] with radius half their distance.  A
    release handled once that move is rendered commits exactly that circle
    when its radius exceeds 10.  A release handled before it is rendered
    commits the circle its own render shows: after a press at (0,0), a
    rendered move to (100,0) and a move to (200,0), it commits the circle
    of radius 50 at (50,0) while the circle in progress has radius 100
    and center (100,0). *)
Theorem extend_spans_circle_release_commits_rendered_one
    (render s : CirclePreview.State) (e : MouseEvent) (rect : DOMRect)
    (a : Geometry.Point) :
  CirclePreview.isDrawing render = true ->
  CirclePreview.drawStart render = Some a ->
  let p := Geometry.pointer e rect in
  let s1 := CirclePreview.Closure.handleMouseMove render e (Some rect) s in
  CirclePreview.currentCircle s1
  = Some {| CirclePreview.x := Geometry.x (Geometry.midpoint a p);
            CirclePreview.y := Geometry.y (Geometry.midpoint a p);
            CirclePreview.radius := (Geometry.distance a p / 2)%float |}
  /\ (CirclePreview.retained (CirclePreview.circleThrough a p) ->
      CirclePreview.circles (CirclePreview.Closure.handleMouseUp s1 s1)
      = CirclePreview.circles s ++ [CirclePreview.circleThrough a p])
  /\ (forall c, CirclePreview.currentCircle render = Some c ->
        CirclePreview.retained c ->
        CirclePreview.circles (CirclePreview.Closure.handleMouseUp render s1)
        = CirclePreview.circles s ++ [c])
  /\ (CirclePreview.currentCircle render = None ->
      CirclePreview.circles (CirclePreview.Closure.handleMouseUp render s1)
      = CirclePreview.circles s)
  /\ (let m := Scenario.circleSecondMoveWaiting in
      let m' :=
        CirclePreview.play
          [CirclePreview.Handle CirclePreview.MouseUp; CirclePreview.Render]
          m in
      CirclePreview.currentCircle (CirclePreview.latest m)
      = Some {| CirclePreview.x := 100; CirclePreview.y := 0;
                CirclePreview.radius := 100 |}
      /\ CirclePreview.currentCircle (CirclePreview.rendered m)
         = Some {| CirclePreview.x := 50; CirclePreview.y := 0;
                   CirclePreview.radius := 50 |}
      /\ CirclePreview.circles (CirclePreview.latest m')
         = [{| CirclePreview.x := 50; CirclePreview.y := 0;
               CirclePreview.radius := 50 |}]).
Proof.
  intros Hd Ha p s1. subst s1.
  rewrite (extend_circleThrough render s e rect a Hd Ha). fold p.
  split; [reflexivity|]. split; [|split; [|split]].
  - intros Hr. rewrite release_circles. simpl.
    unfold CirclePreview.retained in Hr. simpl in Hr. now rewrite Hr.
  - intros c Hc Hr. rewrite release_circles, Hc.
    unfold CirclePreview.retained in Hr. now rewrite Hr.
  - intros Hc. rewrite release_circles, Hc. reflexivity.
  - repeat split.
Qed.

(** C5 at a press at (100,100) and a move to (200,100): center (150,100),
    radius 50, committed by a release that follows the render of the
    move. *)
Lemma extend_spans_circle_release_commits_rendered_one_witness :
  let s1 :=
    CirclePreview.Closure.handleMouseMove Scenario.circleAnchored
      (Scenario.pointerAt 200 100) (Some Scenario.container)
      Scenario.circleAnchored in
  CirclePreview.currentCircle s1
  = Some {| CirclePreview.x := 150; CirclePreview.y := 100;
            CirclePreview.radius := 50 |}
  /\ CirclePreview.circles (CirclePreview.Closure.handleMouseUp s1 s1)
     = [CirclePreview.circleThrough
          {| Geometry.x := 100; Geometry.y := 100 |}
          {| Geometry.x := 200; Geometry.y := 100 |}].
Proof.
  destruct (extend_spans_circle_release_commits_rendered_one
              Scenario.circleAnchored Scenario.circleAnchored
              (Scenario.pointerAt 200 100)
              Scenario.container {| Geometry.x := 100; Geometry.y := 100 |}
              eq_refl eq_refl) as [Hcur [Hup _]].
  split; [exact Hcur | apply Hup; reflexivity].
Defined.

(** ** Numbers *)

Lemma is_finite_spec (v : number) : is_finite v = sf_finite (Prim2SF v).
Proof.
  unfold is_finite, is_nan, is_infinity.
  rewrite !FloatAxioms.eqb_spec, abs_spec.
  replace (Prim2SF infinity) with (S754_infinity false) by reflexivity.
  destruct (Prim2SF v) as [sg|sg| |sg m e]; simpl; try reflexivity.
  - destruct sg; reflexivity.
  - unfold SFeqb, SFcompare.
    destruct sg;
      rewrite Z.compare_refl, ?Pos.compare_refl, ?Pos.compare_cont_refl;
      reflexivity.
Qed.

Lemma div_zero_not_finite (v : number) : is_finite (v / 0) = false.
Proof.
  rewrite is_finite_spec, div_spec.
  replace (Prim2SF 0) with (S754_zero false) by reflexivity.
  destruct (Prim2SF v) as [sg|sg| |sg m e]; reflexivity.
Qed.

Lemma mul_not_finite (v k : number) :
  is_finite k = false -> is_finite (v * k) = false.
Proof.
  rewrite !is_finite_spec, mul_spec.
  destruct (Prim2SF k) as [sk|sk| |sk mk ek]; simpl; try discriminate;
    intros _; destruct (Prim2SF v) as [sv|sv| |sv mv ev]; reflexivity.
Qed.

Lemma mul_not_finite_l (v k : number) :
  is_finite v = false -> is_finite (v * k) = false.
Proof.
  rewrite !is_finite_spec, mul_spec.
  destruct (Prim2SF v) as [sv|sv| |sv mv ev]; simpl; try discriminate;
    intros _; destruct (Prim2SF k) as [sk|sk| |sk mk ek]; reflexivity.
Qed.

Lemma SFcompare_refl (v : spec_float) :
  v <> S754_nan -> SFcompare v v = Some Eq.
Proof.
  destruct v as [sg|sg| |sg m e]; intros Hv; try congruence; simpl.
  - reflexivity.
  - now destruct sg.
  - rewrite Z.compare_refl, Pos.compare_cont_refl. now destruct sg.
Qed.

Lemma SFcompare_antisym (v w : spec_float) :
  v <> S754_nan -> w <> S754_nan ->
  exists c, SFcompare v w = Some c /\ SFcompare w v = Some (CompOpp c).
Proof.
  destruct v as [sv|sv| |sv mv ev], w as [sw|sw| |sw mw ew];
    intros Hv Hw; try congruence; cbn [SFcompare];
    eexists; (split; [reflexivity|]);
    try (destruct sv); try (destruct sw); try reflexivity.
  - pose proof (Pos.compare_cont_antisym mv mw Eq) as Hm.
    cbn [CompOpp] in Hm. rewrite (Z.compare_antisym ev ew).
    destruct (ev ?= ew)%Z; cbn [CompOpp]; try reflexivity.
    now rewrite Hm.
  - pose proof (Pos.compare_cont_antisym mv mw Eq) as Hm.
    cbn [CompOpp] in Hm. rewrite (Z.compare_antisym ev ew).
    destruct (ev ?= ew)%Z; cbn [CompOpp]; try reflexivity.
    now rewrite Hm.
Qed.

Lemma is_nan_spec (v : number) :
  is_nan v = false -> Prim2SF v <> S754_nan.
Proof.
  unfold is_nan. rewrite FloatAxioms.eqb_spec. intros H Hv.
  rewrite Hv in H. discriminate.
Qed.

(** [Math.max] returns the larger of its arguments. *)
Lemma Math_max_larger (a b : number) : Compositor.larger a b (Math_max a b).
Proof.
  unfold Compositor.larger, Math_max.
  destruct (is_nan a || is_nan b) eqn:Hn; [reflexivity|].
  apply orb_false_elim in Hn as [Ha Hb].
  apply is_nan_spec in Ha, Hb.
  rewrite !ltb_spec. unfold SFltb.
  destruct (SFcompare_antisym _ _ Ha Hb) as [c [Hab Hba]].
  rewrite Hab, Hba.
  destruct c; cbn [CompOpp]; try destruct (get_sign a);
    rewrite !leb_spec; unfold SFleb;
    rewrite ?Hab, ?Hba, ?SFcompare_refl by assumption;
    cbn [CompOpp]; auto.
Qed.

(** ** The canvas *)

Lemma full_turn_finite :
  is_finite 0 = true /\ is_finite (2 * Math_PI) = true.
Proof. split; reflexivity. Qed.

(** A full circle, begun on a fresh path and stroked. *)
Lemma stroke_arc (x y r : number) (ctx : Context2D) :
  let ctx' := stroke (arc x y r 0 (2 * Math_PI) (beginPath ctx)) in
  pen ctx' = pen ctx
  /\ painted ctx' = painted ctx ++ strokeRound (pen ctx) x y r.
Proof.
  destruct full_turn_finite as [H0 H2].
  cbv zeta. unfold stroke, arc, allFinite, strokeRound, forallb.
  rewrite H0, H2.
  destruct (is_finite x), (is_finite y), (is_finite r); simpl;
    rewrite ?app_nil_r; split; reflexivity.
Qed.

(** A loop of strokes paints what each stroke paints, in order, and
    leaves the pen as it was. *)
Lemma forEach_painted {A} (f : A -> Context2D -> Context2D)
    (shown : Pen -> A -> list paint) :
  (forall a ctx,
     pen (f a ctx) = pen ctx
     /\ painted (f a ctx) = painted ctx ++ shown (pen ctx) a) ->
  forall l ctx,
    pen (forEach f l ctx) = pen ctx
    /\ painted (forEach f l ctx) = painted ctx ++ flat_map (shown (pen ctx)) l.
Proof.
  intros Hf l. induction l as [|a l IH]; intros ctx.
  - simpl. now rewrite app_nil_r.
  - unfold forEach in *. simpl.
    destruct (IH (f a ctx)) as [Hpen Hpaint].
    destruct (Hf a ctx) as [Hpen1 Hpaint1].
    rewrite Hpen, Hpaint, Hpen1, Hpaint1. split; [reflexivity|].
    now rewrite <- app_assoc.
Qed.

Lemma skipn_nth_cons {A} (d : A) (l : list A) (k : nat) :
  k < List.length l -> skipn k l = nth k l d :: skipn (S k) l.
Proof.
  revert k. induction l as [|a l IH]; intros k Hk; simpl in Hk.
  - lia.
  - destruct k as [|k]; [reflexivity|].
    change (skipn k l = nth k l d :: skipn (S k) l). apply IH. lia.
Qed.

Lemma drawable_polyline (coords : list (number * number)) :
  drawable (polyline coords) = (2 <=? List.length coords)%nat.
Proof.
  destruct coords as [|[x0 y0] [|c coords]]; reflexivity.
Qed.

Lemma strokeThrough_short (pen : Pen) (coords : list (number * number)) :
  List.length coords < 2 -> strokeThrough pen coords = [].
Proof.
  intros Hlen. unfold strokeThrough.
  pose proof (filter_length_le finiteCoords coords) as Hle.
  destruct (Nat.leb_spec 2 (List.length (filter finiteCoords coords)));
    [lia | reflexivity].
Qed.

Lemma moveTo_cases (x y : number) (ctx : Context2D) :
  moveTo x y ctx
  = if finiteCoords (x, y) then addSegment (MoveTo x y) ctx else ctx.
Proof.
  unfold moveTo, allFinite, finiteCoords. simpl. now rewrite andb_true_r.
Qed.

Lemma lineTo_cases (x y : number) (ctx : Context2D) :
  lineTo x y ctx
  = if finiteCoords (x, y) then
      match path ctx with
      | [] => addSegment (MoveTo x y) ctx
      | _ :: _ => addSegment (LineTo x y) ctx
      end
    else ctx.
Proof.
  unfold lineTo, allFinite, finiteCoords. simpl. now rewrite andb_true_r.
Qed.

Section Polyline.

Import Geometry(Point).

(** The coordinates the loop hands to the canvas for a point. *)
Variables gx gy : Point -> number.

Let coords (pts : list Point) : list (number * number) :=
  map (fun p => (gx p, gy p)) pts.

(** The counting loop visits the points at indices k, k+1, ... in
    order. *)
Lemma loop_over_points (f : Point -> Context2D -> Context2D)
    (pts : list Point) (m k : nat) (ctx : Context2D) :
  k + m <= List.length pts ->
  fold_left (fun acc i => f (FreehandPreview.at_index pts i) acc) (seq k m) ctx
  = fold_left (fun acc p => f p acc) (firstn m (skipn k pts)) ctx.
Proof.
  revert k ctx. induction m as [|m IH]; intros k ctx Hk.
  - reflexivity.
  - simpl seq. simpl fold_left. rewrite IH by lia.
    rewrite (skipn_nth_cons {| Geometry.x := nan; Geometry.y := nan |})
      with (k := k) by lia.
    reflexivity.
Qed.

(** Lines through a list of points: those with a coordinate that is not
    finite are skipped, and the first one reached starts the path if
    nothing did. *)
Lemma lineTo_through (pts : list Point) (ctx : Context2D) :
  let ctx' := fold_left (fun acc p => lineTo (gx p) (gy p) acc) pts ctx in
  let reached := filter finiteCoords (coords pts) in
  pen ctx' = pen ctx
  /\ painted ctx' = painted ctx
  /\ path ctx'
     = match path ctx with
       | [] => polyline reached
       | _ :: _ =>
           path ctx ++ map (fun c => LineTo (fst c) (snd c)) reached
       end.
Proof.
  cbv zeta. revert ctx. induction pts as [|p pts IH]; intros ctx.
  - simpl. destruct (path ctx); [|rewrite app_nil_r]; repeat split.
  - cbn [fold_left]. destruct (IH (lineTo (gx p) (gy p) ctx)) as [Hp [Hd Hq]].
    rewrite Hp, Hd, Hq. clear IH Hp Hd Hq.
    rewrite lineTo_cases. unfold coords. cbn [map filter].
    destruct (finiteCoords (gx p, gy p)); [|repeat split].
    destruct (path ctx) as [|sg l] eqn:Hpath;
      cbn [addSegment path pen painted]; rewrite Hpath;
      cbn [app polyline map fst snd]; repeat split.
    now rewrite <- app_assoc.
Qed.

(** [beginPath], [moveTo] the first point, [lineTo] the others by index,
    [stroke]. *)
Lemma trace_polyline (pts : list Point) (ctx : Context2D) :
  let ctx1 :=
    moveTo (gx (FreehandPreview.at_index pts 0))
           (gy (FreehandPreview.at_index pts 0)) (beginPath ctx) in
  let ctx2 :=
    for_range 1 (List.length pts)
      (fun i c => lineTo (gx (FreehandPreview.at_index pts i))
                         (gy (FreehandPreview.at_index pts i)) c)
      ctx1 in
  1 <= List.length pts ->
  pen (stroke ctx2) = pen ctx
  /\ painted (stroke ctx2)
     = painted ctx ++ strokeThrough (pen ctx) (coords pts).
Proof.
  cbv zeta. intros Hlen. unfold for_range.
  pose proof (loop_over_points (fun p c => lineTo (gx p) (gy p) c) pts
                (List.length pts - 1) 1) as Hloop.
  cbv beta in Hloop. rewrite Hloop by lia. clear Hloop.
  destruct pts as [|p0 rest]; [simpl in Hlen; lia|].
  cbn [List.length]. rewrite Nat.sub_succ, Nat.sub_0_r.
  change (skipn 1 (p0 :: rest)) with rest. rewrite firstn_all.
  change (FreehandPreview.at_index (p0 :: rest) 0) with p0.
  rewrite moveTo_cases. unfold strokeThrough, coords. cbn [map filter].
  fold (coords rest).
  destruct (finiteCoords (gx p0, gy p0));
    match goal with
    | |- context [fold_left ?f rest ?c] =>
        destruct (lineTo_through rest c) as [Hp [Hd Hq]]
    end;
    unfold stroke; rewrite Hp, Hd, Hq;
    cbn [addSegment beginPath path pen painted app] in *;
    rewrite <- ?drawable_polyline; cbn [polyline map fst snd];
    match goal with
    | |- context [drawable ?q] => destruct (drawable q)
    end; cbn [pen painted]; rewrite ?Hp, ?Hd, ?app_nil_r; split; reflexivity.
Qed.

End Polyline.

(** ** The frame compositor *)

Lemma strokeCircle_painted (scaleX scaleY : number)
    (c : CirclePreview.DrawingCircle) (ctx : Context2D) :
  pen (CirclePreview.strokeCircle scaleX scaleY c ctx) = pen ctx
  /\ painted (CirclePreview.strokeCircle scaleX scaleY c ctx)
     = painted ctx
       ++ strokeRound (pen ctx)
            (CirclePreview.x c * scaleX) (CirclePreview.y c * scaleY)
            (CirclePreview.radius c * Math_max scaleX scaleY).
Proof. apply stroke_arc. Qed.

Lemma strokePath_painted (scaleX scaleY : number)
    (p : FreehandPreview.DrawingPath) (ctx : Context2D) :
  pen (FreehandPreview.strokePath scaleX scaleY p ctx) = pen ctx
  /\ painted (FreehandPreview.strokePath scaleX scaleY p ctx)
     = painted ctx
       ++ strokeThrough (pen ctx)
            (FreehandPreview.scaledPoints scaleX scaleY
               (FreehandPreview.points p)).
Proof.
  unfold FreehandPreview.strokePath.
  destruct (Nat.ltb_spec (List.length (FreehandPreview.points p)) 2)
    as [Hlt|Hge].
  - rewrite strokeThrough_short, app_nil_r; [now split|].
    unfold FreehandPreview.scaledPoints. now rewrite length_map.
  - apply (trace_polyline (fun q => (Geometry.x q * scaleX)%float)
             (fun q => (Geometry.y q * scaleY)%float)).
    lia.
Qed.

Lemma circle_capture (video : HTMLVideoElement) (s : CirclePreview.State) :
  CirclePreview.stream s <> None ->
  CirclePreview.captureScreen (Some video) true s
  = [OnCapture
       (Compositor.exported video
          (flat_map (Compositor.scaledCircle video) (CirclePreview.circles s)))].
Proof.
  intros Hs. unfold CirclePreview.captureScreen.
  destruct (CirclePreview.stream s) as [ms|]; [clear Hs | congruence].
  destruct (CirclePreview.circles s) as [|c cs]; [reflexivity|].
  cbv zeta. change (0 <? List.length (c :: cs))%nat with true. cbv iota.
  unfold toDataURL, Compositor.exported.
  match goal with
  | |- context [forEach (CirclePreview.strokeCircle ?sx ?sy) ?l ?ctx] =>
      destruct (forEach_painted (CirclePreview.strokeCircle sx sy)
                  (fun pen c =>
                     strokeRound pen (CirclePreview.x c * sx)
                       (CirclePreview.y c * sy)
                       (CirclePreview.radius c * Math_max sx sy))
                  (strokeCircle_painted sx sy) l ctx) as [_ Hpaint]
  end.
  rewrite Hpaint. reflexivity.
Qed.

Lemma freehand_capture (video : HTMLVideoElement) (t : FreehandPreview.State) :
  FreehandPreview.stream t <> None ->
  FreehandPreview.captureScreen (Some video) true t
  = [OnCapture
       (Compositor.exported video
          (flat_map (Compositor.scaledStroke video) (FreehandPreview.paths t)))].
Proof.
  intros Hs. unfold FreehandPreview.captureScreen.
  destruct (FreehandPreview.stream t) as [ms|]; [clear Hs | congruence].
  destruct (FreehandPreview.paths t) as [|p ps]; [reflexivity|].
  cbv zeta. change (0 <? List.length (p :: ps))%nat with true. cbv iota.
  unfold toDataURL, Compositor.exported.
  match goal with
  | |- context [forEach (FreehandPreview.strokePath ?sx ?sy) ?l ?ctx] =>
      destruct (forEach_painted (FreehandPreview.strokePath sx sy)
                  (fun pen p =>
                     strokeThrough pen
                       (FreehandPreview.scaledPoints sx sy
                          (FreehandPreview.points p)))
                  (strokePath_painted sx sy) l ctx) as [_ Hpaint]
  end.
  rewrite Hpaint. reflexivity.
Qed.

Lemma strokeThrough_all_finite (pen : Pen) (coords : list (number * number)) :
  2 <= List.length coords ->
  Forall (fun c => finiteCoords c = true) coords ->
  strokeThrough pen coords = [Stroke pen (polyline coords)].
Proof.
  intros Hlen Hall. unfold strokeThrough.
  rewrite forallb_filter_id by now apply forallb_forall, Forall_forall.
  destruct (Nat.leb_spec 2 (List.length coords)); [reflexivity | lia].
Qed.

(** C4.  The capture paints the frame and then every committed shape with
    each stored coordinate (x, y) taken to (x * scaleX, y * scaleY), where
    scaleX = videoWidth / offsetWidth and scaleY = videoHeight /
    offsetHeight, and a circle's radius multiplied by the larger of the two
    factors; a coordinate that comes out infinite or NaN is not drawn.
    With a 1280x720 stream displayed at 640x360 the path recorded from
    (100,100) to (200,100) is stroked from (200,200) to (400,200); displayed
    at 640x720 or at 1280x360 the circle of radius 50 is stroked with
    radius 100. *)
Theorem capture_scales_committed_shapes
    (video : HTMLVideoElement) (s : CirclePreview.State)
    (t : FreehandPreview.State) :
  let scaleX := (videoWidth video / offsetWidth video)%float in
  let scaleY := (videoHeight video / offsetHeight video)%float in
  let k := Math_max scaleX scaleY in
  CirclePreview.stream s <> None ->
  FreehandPreview.stream t <> None ->
  CirclePreview.captureScreen (Some video) true s
  = [OnCapture
       (Compositor.exported video
          (flat_map (Compositor.scaledCircle video) (CirclePreview.circles s)))]
  /\ FreehandPreview.captureScreen (Some video) true t
     = [OnCapture
          (Compositor.exported video
             (flat_map (Compositor.scaledStroke video)
                (FreehandPreview.paths t)))]
  /\ (forall c,
        is_finite (CirclePreview.x c * scaleX) = true ->
        is_finite (CirclePreview.y c * scaleY) = true ->
        is_finite (CirclePreview.radius c * k) = true ->
        Compositor.scaledCircle video c
        = [Stroke Compositor.circlePen
             [Arc (CirclePreview.x c * scaleX) (CirclePreview.y c * scaleY)
                  (CirclePreview.radius c * k) 0 (2 * Math_PI)]])
  /\ (forall p,
        (2 <= List.length (FreehandPreview.points p))%nat ->
        Forall (fun q => is_finite (Geometry.x q * scaleX) = true
                         /\ is_finite (Geometry.y q * scaleY) = true)
          (FreehandPreview.points p) ->
        Compositor.scaledStroke video p
        = [Stroke Compositor.freehandPen
             (polyline
                (map (fun q => (Geometry.x q * scaleX, Geometry.y q * scaleY)%float)
                   (FreehandPreview.points p)))])
  /\ Compositor.larger scaleX scaleY k
  /\ FreehandPreview.captureScreen (Some Scenario.halfSize) true
       Scenario.pathDrawn
     = [OnCapture
          (Compositor.exported Scenario.halfSize
             [Stroke Compositor.freehandPen
                [MoveTo 200 200; LineTo 400 200]])]
  /\ CirclePreview.captureScreen (Some Scenario.narrow) true
       Scenario.circleDrawn
     = [OnCapture
          (Compositor.exported Scenario.narrow
             [Stroke Compositor.circlePen
                [Arc 300 100 100 0 (2 * Math_PI)]])]
  /\ CirclePreview.captureScreen (Some Scenario.flat) true
       Scenario.circleDrawn
     = [OnCapture
          (Compositor.exported Scenario.flat
             [Stroke Compositor.circlePen
                [Arc 150 200 100 0 (2 * Math_PI)]])].
Proof.
  intros scaleX scaleY k Hs Ht.
  split; [now apply circle_capture|].
  split; [now apply freehand_capture|].
  split; [|split; [|split; [apply Math_max_larger|]]].
  - intros c Hx Hy Hr. unfold Compositor.scaledCircle, strokeRound.
    fold scaleX scaleY.
    change (Compositor.scaleX video) with scaleX.
    change (Compositor.scaleY video) with scaleY.
    fold k. now rewrite Hx, Hy, Hr.
  - intros p Hlen Hall. unfold Compositor.scaledStroke.
    apply strokeThrough_all_finite.
    + unfold FreehandPreview.scaledPoints. now rewrite length_map.
    + unfold FreehandPreview.scaledPoints. apply Forall_map.
      apply Forall_impl with (2 := Hall). intros q [Hx Hy].
      unfold finiteCoords. simpl.
      change (Compositor.scaleX video) with scaleX.
      change (Compositor.scaleY video) with scaleY.
      now rewrite Hx, Hy.
  - repeat split.
Qed.

(** C4 at the circle (150,100) of radius 50 and the stroke from (100,100)
    to (200,100), on a 1280x720 stream displayed at 640x360. *)
Lemma capture_scales_committed_shapes_witness :
  CirclePreview.captureScreen (Some Scenario.halfSize) true Scenario.circleDrawn
  = [OnCapture
       (Compositor.exported Scenario.halfSize
          [Stroke Compositor.circlePen
             [Arc 300 200 100 0 (2 * Math_PI)]])]
  /\ FreehandPreview.captureScreen (Some Scenario.halfSize) true
       Scenario.pathDrawn
     = [OnCapture
          (Compositor.exported Scenario.halfSize
             [Stroke Compositor.freehandPen
                [MoveTo 200 200; LineTo 400 200]])].
Proof.
  destruct (capture_scales_committed_shapes Scenario.halfSize
              Scenario.circleDrawn Scenario.pathDrawn)
    as [Hc [Hf _]]; [discriminate | discriminate |].
  split; [exact Hc | exact Hf].
Defined.

(** ** A displayed size of zero *)

Lemma flat_map_nothing {A B} (f : A -> list B) (l : list A) :
  (forall a, f a = []) -> flat_map f l = [].
Proof.
  intros Hf. induction l as [|a l IH]; [reflexivity|].
  simpl. now rewrite Hf, IH.
Qed.

Lemma filter_map_nothing {A B} (f : B -> bool) (g : A -> B) (l : list A) :
  (forall a, f (g a) = false) -> filter f (map g l) = [].
Proof.
  intros Hf. induction l as [|a l IH]; [reflexivity|].
  simpl. now rewrite Hf.
Qed.

Section ZeroSize.

Variable video : HTMLVideoElement.

Hypothesis noSize :
  offsetWidth video = 0%float \/ offsetHeight video = 0%float.

Lemma no_finite_scale :
  is_finite (Compositor.scaleX video) = false
  \/ is_finite (Compositor.scaleY video) = false.
Proof.
  unfold Compositor.scaleX, Compositor.scaleY.
  destruct noSize as [H|H]; rewrite H; [left | right];
    apply div_zero_not_finite.
Qed.

Lemma no_circle_scaled (c : CirclePreview.DrawingCircle) :
  Compositor.scaledCircle video c = [].
Proof.
  unfold Compositor.scaledCircle, strokeRound.
  destruct no_finite_scale as [H|H].
  - now rewrite (mul_not_finite _ _ H).
  - rewrite (mul_not_finite (CirclePreview.y c) _ H).
    now rewrite andb_false_r.
Qed.

Lemma no_stroke_scaled (p : FreehandPreview.DrawingPath) :
  Compositor.scaledStroke video p = [].
Proof.
  unfold Compositor.scaledStroke, strokeThrough,
    FreehandPreview.scaledPoints.
  rewrite filter_map_nothing; [reflexivity|].
  intros q. unfold finiteCoords. simpl.
  destruct no_finite_scale as [H|H]; rewrite (mul_not_finite _ _ H);
    [reflexivity | apply andb_false_r].
Qed.

End ZeroSize.

(** C1.  With a video element displayed at width 0 or at height 0 the
    quotient computing scaleX or scaleY is infinite or NaN, no committed
    shape reaches the exported bitmap, and the capture still hands the
    frame to the callback: the exported image is the video frame alone. *)
Theorem capture_at_zero_size_exports_frame_alone
    (video : HTMLVideoElement) (s : CirclePreview.State)
    (t : FreehandPreview.State) :
  offsetWidth video = 0%float \/ offsetHeight video = 0%float ->
  CirclePreview.stream s <> None ->
  FreehandPreview.stream t <> None ->
  (is_finite (videoWidth video / offsetWidth video) = false
   \/ is_finite (videoHeight video / offsetHeight video) = false)
  /\ CirclePreview.captureScreen (Some video) true s
     = [OnCapture {| width := videoWidth video; height := videoHeight video;
                     content := [Frame 0 0] |}]
  /\ FreehandPreview.captureScreen (Some video) true t
     = [OnCapture {| width := videoWidth video; height := videoHeight video;
                     content := [Frame 0 0] |}].
Proof.
  intros Hzero Hs Ht.
  split; [exact (no_finite_scale video Hzero)|]. split.
  - rewrite (circle_capture video s Hs), flat_map_nothing; [reflexivity|].
    exact (no_circle_scaled video Hzero).
  - rewrite (freehand_capture video t Ht), flat_map_nothing; [reflexivity|].
    exact (no_stroke_scaled video Hzero).
Qed.

(** C1 at the circle and the path of the sessions above and an element
    displayed at size 0. *)
Lemma capture_at_zero_size_exports_frame_alone_witness :
  CirclePreview.circles Scenario.circleDrawn <> []
  /\ CirclePreview.captureScreen (Some Scenario.collapsed) true
       Scenario.circleDrawn
     = [OnCapture {| width := 1280; height := 720; content := [Frame 0 0] |}]
  /\ FreehandPreview.captureScreen (Some Scenario.collapsed) true
       Scenario.pathDrawn
     = [OnCapture {| width := 1280; height := 720; content := [Frame 0 0] |}].
Proof.
  destruct (capture_at_zero_size_exports_frame_alone Scenario.collapsed
              Scenario.circleDrawn Scenario.pathDrawn)
    as [_ [Hc Hf]]; [now left | discriminate | discriminate |].
  split; [discriminate|]. split; [exact Hc | exact Hf].
Defined.

(** ** Capture without a stream, an element or a context *)

(** C6 does not hold as stated: with a stream and a mounted video element
    that has not started playback (no data yet, native size 0) the
    callback is invoked, with the export of an empty canvas. *)
Lemma capture_before_playback_invokes_callback :
  readyState Scenario.notStarted = 0%nat
  /\ CirclePreview.stream Scenario.circleSharing = Some Scenario.screen
  /\ captured (CirclePreview.captureScreen (Some Scenario.notStarted) true
                 Scenario.circleSharing)
     = [{| width := 0; height := 0; content := [Frame 0 0] |}]
  /\ captured (FreehandPreview.captureScreen (Some Scenario.notStarted) true
                 Scenario.freehandSharing)
     = [{| width := 0; height := 0; content := [Frame 0 0] |}].
Proof.
  split; [reflexivity|]. split; [reflexivity|]. split; reflexivity.
Qed.

(** C6, amended.  The capture is a no-op, with no callback and no change
    of state, exactly when no stream is active, or no video element is
    mounted, or no 2D context is obtained; with all three present the
    callback is invoked once, whether or not playback has started. *)
Theorem capture_noop_iff_missing_stream_element_or_context
    (videoRef : option HTMLVideoElement) (getContext : bool)
    (s : CirclePreview.State) (t : FreehandPreview.State) :
  (CirclePreview.captureScreen videoRef getContext s = []
   <-> CirclePreview.stream s = None \/ videoRef = None \/ getContext = false)
  /\ (FreehandPreview.captureScreen videoRef getContext t = []
      <-> FreehandPreview.stream t = None \/ videoRef = None
          \/ getContext = false)
  /\ fst (CirclePreview.step (CirclePreview.CaptureScreen videoRef getContext) s)
     = s
  /\ fst (FreehandPreview.step
            (FreehandPreview.CaptureScreen videoRef getContext) t)
     = t
  /\ (CirclePreview.captureScreen videoRef getContext s <> [] ->
      List.length (captured (CirclePreview.captureScreen videoRef getContext s))
      = 1%nat)
  /\ (FreehandPreview.captureScreen videoRef getContext t <> [] ->
      List.length
        (captured (FreehandPreview.captureScreen videoRef getContext t))
      = 1%nat).
Proof.
  unfold CirclePreview.captureScreen, FreehandPreview.captureScreen.
  destruct videoRef as [video|], getContext,
    (CirclePreview.stream s) as [ms|], (FreehandPreview.stream t) as [ms'|];
    simpl; repeat split; intros; auto; try discriminate; try congruence;
    repeat match goal with
           | H : _ \/ _ |- _ => destruct H
           end; discriminate.
Qed.

(** C6, amended, at a capture requested with no video element mounted. *)
Lemma capture_noop_iff_missing_stream_element_or_context_witness :
  CirclePreview.captureScreen None true Scenario.circleDrawn = []
  /\ FreehandPreview.captureScreen (Some Scenario.halfSize) true
       FreehandPreview.initial = [].
Proof.
  destruct (capture_noop_iff_missing_stream_element_or_context
              None true Scenario.circleDrawn FreehandPreview.initial)
    as [Hc _].
  destruct (capture_noop_iff_missing_stream_element_or_context
              (Some Scenario.halfSize) true CirclePreview.initial
              FreehandPreview.initial)
    as [_ [Hf _]].
  split; [apply Hc | apply Hf]; auto.
Defined.

(** ** The recorder outside a session *)

(** C7 does not hold as stated: when the stream ends while the pointer is
    down, [isSharing] is false and the next pointer move still records a
    circle in progress, which the release then commits. *)
Lemma extend_records_after_stream_ended_mid_drag :
  CirclePreview.isSharing Scenario.circleEndedMidDrag = false
  /\ CirclePreview.currentCircle Scenario.circleEndedMidDrag = None
  /\ CirclePreview.circles Scenario.circleEndedMidDrag = []
  /\ CirclePreview.currentCircle
       (CirclePreview.handleMouseMove (Scenario.pointerAt 100 0)
          (Some Scenario.container) Scenario.circleEndedMidDrag)
     = Some {| CirclePreview.x := 50; CirclePreview.y := 0;
               CirclePreview.radius := 50 |}
  /\ CirclePreview.circles
       (CirclePreview.run
          [CirclePreview.MouseMove (Scenario.pointerAt 100 0)
             (Some Scenario.container);
           CirclePreview.MouseUp]
          Scenario.circleEndedMidDrag)
     = [{| CirclePreview.x := 50; CirclePreview.y := 0;
           CirclePreview.radius := 50 |}].
Proof.
  split; [reflexivity|]. split; [reflexivity|]. split; [reflexivity|].
  split; reflexivity.
Qed.

Section Idle.

Import CirclePreview.

Lemma circle_mouseDown_not_sharing (e : MouseEvent) (rect : option DOMRect)
    (s : State) :
  isSharing s = false -> handleMouseDown e rect s = s.
Proof.
  intros H. unfold handleMouseDown, Closure.handleMouseDown. rewrite H.
  now rewrite orb_true_r.
Qed.

Lemma circle_mouseMove_not_drawing (e : MouseEvent) (rect : option DOMRect)
    (s : State) :
  isDrawing s = false -> handleMouseMove e rect s = s.
Proof.
  intros H. unfold handleMouseMove, Closure.handleMouseMove. now rewrite H.
Qed.

Lemma circle_recorder_idle (evs : list Event) (s : State) :
  isSharing s = false -> isDrawing s = false ->
  forallb isRecorderEvent evs = true ->
  shapeState (run evs s) = shapeState s
  /\ isSharing (run evs s) = false.
Proof.
  revert s. induction evs as [|ev evs IH]; intros s Hsh Hdr Hevs.
  - now split.
  - simpl in Hevs. apply andb_prop in Hevs as [Hev Hevs].
    destruct ev; try discriminate; simpl.
    + rewrite circle_mouseDown_not_sharing by assumption. now apply IH.
    + rewrite circle_mouseMove_not_drawing by assumption. now apply IH.
    + destruct (IH (setDrawMode (negb (drawMode s)) s) Hsh Hdr Hevs)
        as [Hshape Hoff].
      rewrite Hshape. now split.
Qed.

End Idle.

Section IdleFreehand.

Import FreehandPreview.

Lemma freehand_mouseDown_not_sharing (e : MouseEvent) (rect : option DOMRect)
    (s : State) :
  isSharing s = false -> handleMouseDown e rect s = s.
Proof.
  intros H. unfold handleMouseDown, Closure.handleMouseDown. rewrite H.
  now rewrite orb_true_r.
Qed.

Lemma freehand_mouseMove_not_drawing (e : MouseEvent) (rect : option DOMRect)
    (s : State) :
  isDrawing s = false -> handleMouseMove e rect s = s.
Proof.
  intros H. unfold handleMouseMove, Closure.handleMouseMove. now rewrite H.
Qed.

Lemma freehand_recorder_idle (evs : list Event) (s : State) :
  isSharing s = false -> isDrawing s = false ->
  forallb isRecorderEvent evs = true ->
  shapeState (run evs s) = shapeState s
  /\ isSharing (run evs s) = false.
Proof.
  revert s. induction evs as [|ev evs IH]; intros s Hsh Hdr Hevs.
  - now split.
  - simpl in Hevs. apply andb_prop in Hevs as [Hev Hevs].
    destruct ev; try discriminate; simpl.
    + rewrite freehand_mouseDown_not_sharing by assumption. now apply IH.
    + rewrite freehand_mouseMove_not_drawing by assumption. now apply IH.
    + destruct (IH (setDrawMode (negb (drawMode s)) s) Hsh Hdr Hevs)
        as [Hshape Hoff].
      rewrite Hshape. now split.
Qed.

End IdleFreehand.

(** C7, amended.  While [isSharing] is false the handler of [begin]
    changes nothing; the handler of [extend] changes nothing unless a drag
    is in progress; so from a state that is not sharing and has no drag in
    progress, no sequence of pointer presses, pointer moves and draw mode
    toggles creates, changes or commits a shape. *)
Theorem recorder_idle_when_not_sharing
    (s : CirclePreview.State) (evs : list CirclePreview.Event)
    (t : FreehandPreview.State) (evs' : list FreehandPreview.Event)
    (e : MouseEvent) (rect : option DOMRect) :
  CirclePreview.isSharing s = false ->
  FreehandPreview.isSharing t = false ->
  CirclePreview.handleMouseDown e rect s = s
  /\ FreehandPreview.handleMouseDown e rect t = t
  /\ (CirclePreview.isDrawing s = false ->
      CirclePreview.handleMouseMove e rect s = s
      /\ (forallb CirclePreview.isRecorderEvent evs = true ->
          CirclePreview.shapeState (CirclePreview.run evs s)
          = CirclePreview.shapeState s
          /\ CirclePreview.isSharing (CirclePreview.run evs s) = false))
  /\ (FreehandPreview.isDrawing t = false ->
      FreehandPreview.handleMouseMove e rect t = t
      /\ (forallb FreehandPreview.isRecorderEvent evs' = true ->
          FreehandPreview.shapeState (FreehandPreview.run evs' t)
          = FreehandPreview.shapeState t
          /\ FreehandPreview.isSharing (FreehandPreview.run evs' t) = false)).
Proof.
  intros Hs Ht.
  split; [now apply circle_mouseDown_not_sharing|].
  split; [now apply freehand_mouseDown_not_sharing|].
  split; intros Hd.
  - split; [now apply circle_mouseMove_not_drawing|].
    now apply circle_recorder_idle.
  - split; [now apply freehand_mouseMove_not_drawing|].
    now apply freehand_recorder_idle.
Qed.

(** C7, amended, at a stopped session whose draw mode is still on: a
    press at (10,10) and a move to (50,10) record nothing. *)
Lemma recorder_idle_when_not_sharing_witness :
  CirclePreview.drawMode Scenario.circleStoppedInDrawMode = true
  /\ CirclePreview.shapeState
       (CirclePreview.run
          [CirclePreview.MouseDown (Scenario.pointerAt 10 10)
             (Some Scenario.container);
           CirclePreview.MouseMove (Scenario.pointerAt 50 10)
             (Some Scenario.container)]
          Scenario.circleStoppedInDrawMode)
     = ([], None, None, false)
  /\ FreehandPreview.shapeState
       (FreehandPreview.run
          [FreehandPreview.MouseDown (Scenario.pointerAt 10 10)
             (Some Scenario.container);
           FreehandPreview.MouseMove (Scenario.pointerAt 50 10)
             (Some Scenario.container)]
          Scenario.freehandStoppedInDrawMode)
     = ([], [], false).
Proof.
  destruct (recorder_idle_when_not_sharing
              Scenario.circleStoppedInDrawMode
              [CirclePreview.MouseDown (Scenario.pointerAt 10 10)
                 (Some Scenario.container);
               CirclePreview.MouseMove (Scenario.pointerAt 50 10)
                 (Some Scenario.container)]
              Scenario.freehandStoppedInDrawMode
              [FreehandPreview.MouseDown (Scenario.pointerAt 10 10)
                 (Some Scenario.container);
               FreehandPreview.MouseMove (Scenario.pointerAt 50 10)
                 (Some Scenario.container)]
              (Scenario.pointerAt 10 10) (Some Scenario.container)
              eq_refl eq_refl)
    as [_ [_ [Hc Hf]]].
  split; [reflexivity|]. split.
  - apply (Hc eq_refl). reflexivity.
  - apply (Hf eq_refl). reflexivity.
Defined.

(** ** The solved-problem history *)

Section History.

Import Index.

Lemma analyze_history_cases (now date : N) (imageData : jsstring)
    (r : Relay.InvokeResult Relay.AnalyzeData) (s : State) :
  history (fst (analyzeMathProblem now date imageData r s)) = history s
  \/ exists item,
       history (fst (analyzeMathProblem now date imageData r s))
       = slice 0 20 (item :: history s).
Proof.
  unfold analyzeMathProblem, analyzeBegin, analyzeSettle, analyzeTry,
    recordSolution.
  destruct r as [reason|data err]; [now left|].
  destruct err as [err|]; [now left|].
  destruct data as [data|]; [|now left].
  destruct (Relay.error data) as [m|]; [destruct (truthy m)|];
    simpl; eauto.
Qed.

Lemma step_history_capped (ev : Event) (s : State) :
  List.length (history s) <= 20 ->
  List.length (history (fst (step ev s))) <= 20.
Proof.
  intros Hs. destruct ev; simpl.
  - destruct (analyze_history_cases now date imageData r s) as [->|[item ->]];
      [exact Hs | apply slice_0_length].
  - exact Hs.
  - lia.
Qed.

Lemma run_history_capped (evs : list Event) (s : State) :
  List.length (history s) <= 20 ->
  List.length (history (run evs s)) <= 20.
Proof.
  revert s. induction evs as [|ev evs IH]; intros s Hs; simpl.
  - exact Hs.
  - apply IH. now apply step_history_capped.
Qed.

End History.

(** C8.  After a successful analysis the history is the new item followed
    by the previous items, cut to 20; the new item is first; and in every
    state the component reaches the history has at most 20 items. *)
Theorem history_prepends_and_caps_at_20
    (now date : N) (imageData : jsstring)
    (r : Relay.InvokeResult Relay.AnalyzeData) (d : Relay.AnalyzeData)
    (s : Index.State) (evs : list Index.Event) :
  Index.succeeded r d ->
  let s' := fst (Index.analyzeMathProblem now date imageData r s) in
  let newItem :=
    {| HistoryItem.id := toString now; HistoryItem.image := imageData;
       HistoryItem.solution := Relay.solution d;
       HistoryItem.timestamp := date |} in
  Index.history s' = firstn 20 (newItem :: Index.history s)
  /\ hd_error (Index.history s') = Some newItem
  /\ List.length (Index.history s') <= 20
  /\ List.length (Index.history (Index.run evs Index.initial)) <= 20.
Proof.
  intros [-> Hok] s' newItem.
  assert (Hh : Index.history s' = firstn 20 (newItem :: Index.history s)).
  { subst s' newItem.
    unfold Index.analyzeMathProblem, Index.analyzeBegin, Index.analyzeSettle,
      Index.analyzeTry, Index.recordSolution.
    unfold Relay.truthyOpt in Hok.
    destruct (Relay.error d) as [m|]; [rewrite Hok|]; reflexivity. }
  rewrite Hh. repeat split.
  - apply firstn_le_length.
  - apply run_history_capped. simpl. lia.
Qed.

(** C8 at a full history: the twenty-first solution comes first and the
    history still has 20 items. *)
Lemma history_prepends_and_caps_at_20_witness :
  let s' :=
    fst (Index.analyzeMathProblem 21 21 Scenario.capture
           (Scenario.solvedBy "x = 3") Scenario.twentySolved) in
  List.length (Index.history Scenario.twentySolved) = 20%nat
  /\ List.length (Index.history s') = 20%nat
  /\ option_map HistoryItem.id (hd_error (Index.history s')) = Some (lit "21").
Proof.
  destruct (history_prepends_and_caps_at_20 21 21 Scenario.capture
              (Scenario.solvedBy "x = 3")
              {| Relay.error := None; Relay.solution := Some (lit "x = 3") |}
              Scenario.twentySolved [] (conj eq_refl eq_refl))
    as [Hh [Hhd _]].
  split; [reflexivity|]. split.
  - rewrite Hh. reflexivity.
  - rewrite Hhd. reflexivity.
Defined.

(** C9 does not hold as stated: a body whose error field is the empty
    string is taken for a success, so the history grows and the solution
    is set; and after a failed call the solution is not null when a
    history entry was selected while the call was pending. *)
Lemma failed_analysis_can_leave_a_solution :
  (let body :=
     {| Relay.error := Some []; Relay.solution := Some (lit "x = 2") |} in
   let s' :=
     fst (Index.analyzeMathProblem 1 1 Scenario.capture
            (Relay.Resolved (Some body) None) Index.initial) in
   Index.history Index.initial = []
   /\ List.length (Index.history s') = 1%nat
   /\ Index.solution s' = Some (lit "x = 2"))
  /\
  (let solved := Index.state Scenario.oneSolved in
   let p :=
     Index.unfold
       [Index.Capture Scenario.capture;
        Index.Select
          {| HistoryItem.id := lit "1"; HistoryItem.image := Scenario.capture;
             HistoryItem.solution := Some (lit "x = 2");
             HistoryItem.timestamp := 1 |};
        Index.Settle 2 2 (Scenario.refusedWith "Rate limit exceeded.")]
       Scenario.oneSolved in
   Index.failed (Scenario.refusedWith "Rate limit exceeded.")
   /\ List.length (Index.history solved) = 1%nat
   /\ Index.history (Index.state p) = Index.history solved
   /\ Index.solution (Index.state p) = Some (lit "x = 2")
   /\ Index.isLoading (Index.state p) = false).
Proof.
  split; cbv zeta.
  - repeat split.
  - split; [apply Index.failed_body|]. repeat split.
Qed.

Section Failure.

Import Index.

Lemma failed_throws (now date : N) (imageData : jsstring)
    (r : Relay.InvokeResult Relay.AnalyzeData) (s : State) :
  failed r -> exists m, analyzeTry now date imageData r s = Relay.Throw m.
Proof.
  intros Hr. destruct Hr as [reason|data err| |sol c m]; simpl; eauto.
Qed.

Lemma settle_failed (now date : N) (imageData : jsstring)
    (r : Relay.InvokeResult Relay.AnalyzeData) (s : State) :
  failed r ->
  fst (analyzeSettle now date imageData r s) = setIsLoading false s.
Proof.
  intros Hr. unfold analyzeSettle.
  destruct (failed_throws now date imageData r s Hr) as [m ->]. reflexivity.
Qed.

(** Clicks on the history panel leave the request in flight and the
    loading flag alone. *)
Lemma panel_keeps_request (os : list Occurrence) (p : Page) :
  forallb onPanel os = true ->
  inFlight (unfold os p) = inFlight p
  /\ isLoading (state (unfold os p)) = isLoading (state p).
Proof.
  revert p. induction os as [|o os IH]; intros p Hos; [now split|].
  simpl in Hos. apply andb_prop in Hos as [Ho Hos].
  destruct o as [img|now date r|item|]; try discriminate; cbn [unfold].
  - destruct (IH (fst (occur (Select item) p)) Hos) as [Hf Hl].
    rewrite Hf, Hl. now split.
  - destruct (IH (fst (occur Clear p)) Hos) as [Hf Hl].
    rewrite Hf, Hl. now split.
Qed.

(** Clearing the history does not bring a solution back. *)
Lemma clears_keep_solution (os : list Occurrence) (p : Page) :
  Forall (fun o => o = Clear) os ->
  solution (state (unfold os p)) = solution (state p).
Proof.
  revert p. induction os as [|o os IH]; intros p Hos; [reflexivity|].
  inversion Hos as [|? ? Ho Hos']; subst.
  cbn [unfold]. now rewrite (IH _ Hos').
Qed.

End Failure.

(** C9, amended.  When the relay call throws, or the client reports an
    error, or the reply has no body, or its body carries an error message
    that is not the empty string, [analyzeMathProblem] leaves the history
    as it finds it when the call settles, whatever the history is, and
    sets no solution or image: it only ends the loading.  The solution it
    cleared when the call began is therefore still null when nothing
    happened meanwhile, or only clearings of the history; it is not when an
    entry of the history panel was selected while the call was pending. *)
Theorem failed_analysis_touches_only_loading
    (now date : N) (imageData : jsstring)
    (r : Relay.InvokeResult Relay.AnalyzeData) (s : Index.State)
    (p : Index.Page) (os : list Index.Occurrence) :
  Index.failed r ->
  Index.isLoading (Index.state p) = false ->
  forallb Index.onPanel os = true ->
  let s' := fst (Index.analyzeSettle now date imageData r s) in
  let waiting := Index.unfold (Index.Capture imageData :: os) p in
  let settled := fst (Index.occur (Index.Settle now date r) waiting) in
  (Index.history s' = Index.history s
   /\ Index.solution s' = Index.solution s
   /\ Index.capturedImage s' = Index.capturedImage s
   /\ Index.isLoading s' = false)
  /\ (Index.solution (fst (Index.analyzeBegin imageData s)) = None
      /\ Index.history (fst (Index.analyzeBegin imageData s))
         = Index.history s)
  /\ (Index.history (fst (Index.analyzeMathProblem now date imageData r s))
      = Index.history s
      /\ Index.solution (fst (Index.analyzeMathProblem now date imageData r s))
         = None)
  /\ (Index.inFlight waiting = Some imageData
      /\ Index.history (Index.state settled)
         = Index.history (Index.state waiting)
      /\ Index.solution (Index.state settled)
         = Index.solution (Index.state waiting)
      /\ (Forall (fun o => o = Index.Clear) os ->
          Index.solution (Index.state settled) = None)
      /\ Index.isLoading (Index.state settled) = false
      /\ Index.inFlight settled = None).
Proof.
  intros Hr Hidle Hos s' waiting settled. subst s' waiting settled.
  split; [rewrite settle_failed by assumption; repeat split|].
  split; [repeat split|].
  split.
  - unfold Index.analyzeMathProblem, Index.analyzeBegin.
    pose proof (settle_failed now date imageData r
                  (Index.setCapturedImage (Some imageData)
                     (Index.setSolution None (Index.setIsLoading true s)))
                  Hr) as Hsettle.
    destruct (Index.analyzeSettle now date imageData r _) as [s2 fx2].
    simpl in Hsettle. subst s2. now split.
  - cbn [Index.unfold Index.occur]. rewrite Hidle.
    cbn [Index.analyzeBegin fst].
    match goal with
    | |- context [Index.unfold os ?q] =>
        destruct (panel_keeps_request os q Hos) as [Hflight _];
        cbn [Index.inFlight] in Hflight
    end.
    rewrite Hflight. split; [reflexivity|].
    match goal with
    | |- context [Index.analyzeSettle now date imageData r ?q] =>
        pose proof (settle_failed now date imageData r q Hr) as Hsettle;
        destruct (Index.analyzeSettle now date imageData r q) as [s2 fx2]
    end.
    simpl in Hsettle. subst s2. repeat split.
    intros Hclear. cbn [fst Index.state Index.solution Index.setIsLoading].
    now rewrite (clears_keep_solution os _ Hclear).
Qed.

(** C9, amended, at a full history and a body carrying a rate limit
    message, with no click while the call is pending. *)
Lemma failed_analysis_touches_only_loading_witness :
  let settled :=
    Index.unfold
      [Index.Capture Scenario.capture;
       Index.Settle 21 21 (Scenario.refusedWith "Rate limit exceeded.")]
      (Index.open Scenario.twentySolved) in
  List.length (Index.history Scenario.twentySolved) = 20%nat
  /\ Index.history (Index.state settled) = Index.history Scenario.twentySolved
  /\ Index.solution (Index.state settled) = None
  /\ Index.isLoading (Index.state settled) = false.
Proof.
  destruct (failed_analysis_touches_only_loading 21 21 Scenario.capture
              (Scenario.refusedWith "Rate limit exceeded.")
              Scenario.twentySolved (Index.open Scenario.twentySolved) []
              (Index.failed_body None _ _) eq_refl eq_refl)
    as [_ [_ [_ [_ [Hh [_ [Hs [Hl _]]]]]]]].
  split; [reflexivity|]. split; [exact Hh|].
  split; [apply Hs; constructor | exact Hl].
Defined.

(** ** The chat *)

Section Chat.

Import DavidChat.

Lemma nothingToSend_blank (s : State) :
  trim (input s) = [] -> noPendingImage s -> nothingToSend s = true.
Proof.
  unfold nothingToSend, noPendingImage. intros -> ->. reflexivity.
Qed.

Lemma nothingToSend_loading (s : State) :
  isLoading s = true -> nothingToSend s = true.
Proof.
  unfold nothingToSend. intros ->. apply orb_true_r.
Qed.

Lemma something_to_send (s : State) (img : jsstring) :
  imageAttached s img -> isLoading s = false -> nothingToSend s = false.
Proof.
  unfold nothingToSend, imageAttached. intros [-> Himg] ->. simpl.
  rewrite Himg. simpl. now rewrite andb_false_r.
Qed.

Lemma sendMessage_appends_reply (now later : N)
    (r : Relay.InvokeResult Relay.ChatData) (s : State) :
  nothingToSend s = false ->
  exists reply,
    ChatMessage.role reply = ChatMessage.assistant
    /\ messages (fst (sendMessage now later r s))
       = messages s ++ [userMessage now s; reply].
Proof.
  intros Hgo. unfold sendMessage, sendMessageBegin, sendMessageSettle.
  rewrite Hgo.
  destruct (replyTry later r) as [reply|msg] eqn:Hreply; simpl;
    eexists; (split; [|rewrite <- app_assoc; reflexivity]).
  - unfold replyTry in Hreply.
    destruct r as [reason|[data|] [err|]]; try discriminate.
    now injection Hreply as <-.
  - reflexivity.
Qed.

End Chat.

(** C10.  [sendMessage] changes nothing and sends nothing when the trimmed
    input is empty and no image is pending, or when a request is in flight;
    and with an image attached and nothing but blanks typed, the user
    message it appends and sends has the content "Check this problem" and
    carries the image. *)
Theorem sendMessage_guard_and_default_content
    (now later : N) (r : Relay.InvokeResult Relay.ChatData)
    (s : DavidChat.State) (img : jsstring) :
  ((trim (DavidChat.input s) = [] /\ DavidChat.noPendingImage s)
   \/ DavidChat.isLoading s = true ->
   DavidChat.sendMessage now later r s = (s, [])
   /\ DavidChat.sendMessageBegin now s = (s, []))
  /\
  (trim (DavidChat.input s) = [] ->
   DavidChat.imageAttached s img ->
   DavidChat.isLoading s = false ->
   let m := DavidChat.userMessage now s in
   m = {| ChatMessage.id := toString now;
          ChatMessage.role := ChatMessage.user;
          ChatMessage.content := lit "Check this problem";
          ChatMessage.image := Some img |}
   /\ DavidChat.sendMessageBegin now s
      = ({| DavidChat.messages := DavidChat.messages s ++ [m];
            DavidChat.input := [];
            DavidChat.isLoading := true;
            DavidChat.pendingImage := None |},
         [DavidChat.Invoke "david-chat"
            (map ChatMessage.wire (DavidChat.messages s ++ [m]))])
   /\ exists reply,
        ChatMessage.role reply = ChatMessage.assistant
        /\ DavidChat.messages (fst (DavidChat.sendMessage now later r s))
           = DavidChat.messages s ++ [m; reply]).
Proof.
  split.
  - intros Hidle.
    assert (Hguard : DavidChat.nothingToSend s = true).
    { destruct Hidle as [[Hin Himg]|Hload].
      - now apply nothingToSend_blank.
      - now apply nothingToSend_loading. }
    unfold DavidChat.sendMessage, DavidChat.sendMessageBegin.
    now rewrite Hguard.
  - intros Hin Himg Hload m.
    pose proof (something_to_send s img Himg Hload) as Hgo.
    assert (Hm : m = {| ChatMessage.id := toString now;
                        ChatMessage.role := ChatMessage.user;
                        ChatMessage.content := lit "Check this problem";
                        ChatMessage.image := Some img |}).
    { subst m. unfold DavidChat.userMessage. rewrite Hin.
      destruct Himg as [-> Htruthy]. simpl. now rewrite Htruthy. }
    split; [exact Hm|]. split.
    + unfold DavidChat.sendMessageBegin. now rewrite Hgo.
    + now apply sendMessage_appends_reply.
Qed.

(** C10 at a chat with only blanks typed: nothing happens without an
    image, and with one the default text is sent. *)
Lemma sendMessage_guard_and_default_content_witness :
  DavidChat.sendMessage 7 8 (Relay.Rejected (lit "offline")) Scenario.blankInput
  = (Scenario.blankInput, [])
  /\ ChatMessage.content (DavidChat.userMessage 7 Scenario.pictureOnly)
     = lit "Check this problem"
  /\ List.length
       (DavidChat.messages
          (fst (DavidChat.sendMessageBegin 7 Scenario.pictureOnly)))
     = 2%nat.
Proof.
  destruct (sendMessage_guard_and_default_content 7 8
              (Relay.Rejected (lit "offline")) Scenario.blankInput [])
    as [Hidle _].
  destruct (sendMessage_guard_and_default_content 7 8
              (Relay.Rejected (lit "offline")) Scenario.pictureOnly
              Scenario.capture)
    as [_ Hsend].
  destruct (Hsend eq_refl (conj eq_refl eq_refl) eq_refl) as [Hm [Hbegin _]].
  split; [apply Hidle; left; split; reflexivity|]. split.
  - rewrite Hm. reflexivity.
  - rewrite Hbegin. reflexivity.
Defined.

(** * Further properties *)

(** ** What a session keeps true *)

Lemma circle_step_coherent (ev : CirclePreview.Event) (s : CirclePreview.State) :
  Session.circleCoherent s ->
  Session.circleCoherent (fst (CirclePreview.step ev s)).
Proof.
  unfold Session.circleCoherent.
  destruct s as [sh st dr ds cs cc dm]. simpl. intros [Hsh [Hdr Hcc]].
  destruct ev; simpl;
    unfold CirclePreview.startScreenShare, CirclePreview.handleMouseDown,
      CirclePreview.handleMouseMove, CirclePreview.handleMouseUp,
      CirclePreview.stopSharing, CirclePreview.Closure.handleMouseDown,
      CirclePreview.Closure.handleMouseMove,
      CirclePreview.Closure.handleMouseUp, CirclePreview.Closure.stopSharing;
    simpl;
    split_guards; simpl; repeat split; intros; auto;
    try discriminate; try congruence; try tauto;
    try (apply Hsh; assumption); try (apply Hdr; assumption).
Qed.

Lemma circle_run_coherent (evs : list CirclePreview.Event)
    (s : CirclePreview.State) :
  Session.circleCoherent s -> Session.circleCoherent (CirclePreview.run evs s).
Proof.
  revert s. induction evs as [|ev evs IH]; intros s Hs; simpl.
  - exact Hs.
  - apply IH. now apply circle_step_coherent.
Qed.

Lemma circle_initial_coherent : Session.circleCoherent CirclePreview.initial.
Proof.
  unfold Session.circleCoherent. simpl.
  repeat split; intros; try discriminate; congruence.
Qed.

Lemma freehand_step_coherent (ev : FreehandPreview.Event)
    (s : FreehandPreview.State) :
  Session.freehandCoherent s ->
  Session.freehandCoherent (fst (FreehandPreview.step ev s)).
Proof.
  unfold Session.freehandCoherent.
  destruct s as [sh st dr ps cp dm]. simpl. intros [Hsh Hcp].
  destruct dr, dm; destruct ev; simpl;
    unfold FreehandPreview.startScreenShare, FreehandPreview.handleMouseDown,
      FreehandPreview.handleMouseMove, FreehandPreview.handleMouseUp,
      FreehandPreview.stopSharing, FreehandPreview.Closure.handleMouseDown,
      FreehandPreview.Closure.handleMouseMove,
      FreehandPreview.Closure.handleMouseUp,
      FreehandPreview.Closure.stopSharing;
    simpl;
    split_guards; simpl; repeat split; intros; auto;
    try discriminate; try congruence; try tauto;
    try (apply Hsh; assumption).
Qed.

Lemma freehand_run_coherent (evs : list FreehandPreview.Event)
    (s : FreehandPreview.State) :
  Session.freehandCoherent s ->
  Session.freehandCoherent (FreehandPreview.run evs s).
Proof.
  revert s. induction evs as [|ev evs IH]; intros s Hs; simpl.
  - exact Hs.
  - apply IH. now apply freehand_step_coherent.
Qed.

Lemma freehand_initial_coherent :
  Session.freehandCoherent FreehandPreview.initial.
Proof.
  unfold Session.freehandCoherent. simpl.
  repeat split; intros; try discriminate; congruence.
Qed.

(** X3.  In every state a session reaches the stream is held exactly while
    [isSharing] is true; so a capture requested while not sharing never
    reaches the callback, and one requested while sharing, with the video
    element mounted and a context obtained, reaches it exactly once. *)
Theorem capture_available_exactly_while_sharing
    (evs : list CirclePreview.Event) (evs' : list FreehandPreview.Event)
    (videoRef : option HTMLVideoElement) (getContext : bool)
    (video : HTMLVideoElement) :
  let s := CirclePreview.run evs CirclePreview.initial in
  let t := FreehandPreview.run evs' FreehandPreview.initial in
  (CirclePreview.isSharing s = true <-> CirclePreview.stream s <> None)
  /\ (FreehandPreview.isSharing t = true <-> FreehandPreview.stream t <> None)
  /\ (CirclePreview.isSharing s = false ->
      CirclePreview.captureScreen videoRef getContext s = [])
  /\ (FreehandPreview.isSharing t = false ->
      FreehandPreview.captureScreen videoRef getContext t = [])
  /\ (CirclePreview.isSharing s = true ->
      List.length (captured (CirclePreview.captureScreen (Some video) true s))
      = 1%nat)
  /\ (FreehandPreview.isSharing t = true ->
      List.length (captured (FreehandPreview.captureScreen (Some video) true t))
      = 1%nat).
Proof.
  intros s t.
  destruct (circle_run_coherent evs _ circle_initial_coherent) as [Hs _].
  destruct (freehand_run_coherent evs' _ freehand_initial_coherent) as [Ht _].
  fold s in Hs. fold t in Ht.
  split; [exact Hs|]. split; [exact Ht|]. repeat split.
  - intros Hoff. unfold CirclePreview.captureScreen.
    destruct (CirclePreview.stream s) as [ms|] eqn:Hst.
    + assert (CirclePreview.isSharing s = true) by (apply Hs; discriminate).
      congruence.
    + now destruct videoRef.
  - intros Hoff. unfold FreehandPreview.captureScreen.
    destruct (FreehandPreview.stream t) as [ms|] eqn:Hst.
    + assert (FreehandPreview.isSharing t = true) by (apply Ht; discriminate).
      congruence.
    + now destruct videoRef.
  - intros Hon. rewrite circle_capture by now apply Hs. reflexivity.
  - intros Hon. rewrite freehand_capture by now apply Ht. reflexivity.
Qed.

(** X3 at a running session with one shape and at a stopped one. *)
Lemma capture_available_exactly_while_sharing_witness :
  List.length
    (captured (CirclePreview.captureScreen (Some Scenario.halfSize) true
                 Scenario.circleDrawn)) = 1%nat
  /\ FreehandPreview.captureScreen (Some Scenario.halfSize) true
       Scenario.freehandStoppedInDrawMode = [].
Proof.
  destruct (capture_available_exactly_while_sharing
              [CirclePreview.StartScreenShare (Some Scenario.screen);
               CirclePreview.ToggleDrawMode;
               CirclePreview.MouseDown (Scenario.pointerAt 100 100)
                 (Some Scenario.container);
               CirclePreview.MouseMove (Scenario.pointerAt 200 100)
                 (Some Scenario.container);
               CirclePreview.MouseUp]
              [FreehandPreview.StartScreenShare (Some Scenario.screen);
               FreehandPreview.ToggleDrawMode;
               FreehandPreview.StopSharing]
              (Some Scenario.halfSize) true Scenario.halfSize)
    as [_ [_ [_ [Hoff [Hon _]]]]].
  split; [apply Hon | apply Hoff]; reflexivity.
Defined.

(** X4.  In every state a session reaches, nothing is in progress unless
    a drag is; so a release, or the pointer leaving the preview, with no
    drag in progress changes nothing at all. *)
Theorem release_without_drag_changes_nothing
    (evs : list CirclePreview.Event) (evs' : list FreehandPreview.Event) :
  let s := CirclePreview.run evs CirclePreview.initial in
  let t := FreehandPreview.run evs' FreehandPreview.initial in
  CirclePreview.isDrawing s = false ->
  FreehandPreview.isDrawing t = false ->
  CirclePreview.currentCircle s = None
  /\ CirclePreview.drawStart s = None
  /\ FreehandPreview.currentPath t = []
  /\ fst (CirclePreview.step CirclePreview.MouseUp s) = s
  /\ fst (CirclePreview.step CirclePreview.MouseLeave s) = s
  /\ fst (FreehandPreview.step FreehandPreview.MouseUp t) = t
  /\ fst (FreehandPreview.step FreehandPreview.MouseLeave t) = t.
Proof.
  intros s t Hs Ht.
  destruct (circle_run_coherent evs _ circle_initial_coherent)
    as [_ [Hanchor Hcur]].
  destruct (freehand_run_coherent evs' _ freehand_initial_coherent)
    as [_ Hpath].
  fold s in Hanchor, Hcur. fold t in Hpath.
  specialize (Hcur Hs). specialize (Hpath Ht).
  assert (Hstart : CirclePreview.drawStart s = None).
  { destruct (CirclePreview.drawStart s) as [a|]; [|reflexivity].
    assert (CirclePreview.isDrawing s = true) by (apply Hanchor; discriminate).
    congruence. }
  split; [exact Hcur|]. split; [exact Hstart|]. split; [exact Hpath|].
  assert (Hup : CirclePreview.handleMouseUp s = s).
  { unfold CirclePreview.handleMouseUp, CirclePreview.Closure.handleMouseUp.
    rewrite Hcur.
    destruct s as [sh st dr ds cs cc dm]. simpl in *. now subst. }
  assert (Hup' : FreehandPreview.handleMouseUp t = t).
  { unfold FreehandPreview.handleMouseUp,
      FreehandPreview.Closure.handleMouseUp.
    rewrite Hpath.
    destruct t as [sh st dr ps cp dm]. simpl in *. now subst. }
  repeat split; assumption.
Qed.

(** X4 at a session with one committed shape and no drag in progress. *)
Lemma release_without_drag_changes_nothing_witness :
  fst (CirclePreview.step CirclePreview.MouseLeave Scenario.circleDrawn)
  = Scenario.circleDrawn
  /\ fst (FreehandPreview.step FreehandPreview.MouseLeave Scenario.pathDrawn)
     = Scenario.pathDrawn.
Proof.
  destruct (release_without_drag_changes_nothing
              [CirclePreview.StartScreenShare (Some Scenario.screen);
               CirclePreview.ToggleDrawMode;
               CirclePreview.MouseDown (Scenario.pointerAt 100 100)
                 (Some Scenario.container);
               CirclePreview.MouseMove (Scenario.pointerAt 200 100)
                 (Some Scenario.container);
               CirclePreview.MouseUp]
              [FreehandPreview.StartScreenShare (Some Scenario.screen);
               FreehandPreview.ToggleDrawMode;
               FreehandPreview.MouseDown (Scenario.pointerAt 100 100)
                 (Some Scenario.container);
               FreehandPreview.MouseMove (Scenario.pointerAt 200 100)
                 (Some Scenario.container);
               FreehandPreview.MouseUp]
              eq_refl eq_refl)
    as [_ [_ [_ [_ [Hc [_ Hf]]]]]].
  split; [exact Hc | exact Hf].
Defined.

(** ** The overlay renderer *)

Lemma strokeOverlayCircle_painted (c : CirclePreview.DrawingCircle)
    (ctx : Context2D) :
  pen (Overlay.strokeOverlayCircle c ctx) = pen ctx
  /\ painted (Overlay.strokeOverlayCircle c ctx)
     = painted ctx
       ++ strokeRound (pen ctx) (CirclePreview.x c) (CirclePreview.y c)
            (CirclePreview.radius c).
Proof. apply stroke_arc. Qed.

Lemma drawPath_painted (pts : list Geometry.Point) (ctx : Context2D) :
  pen (Overlay.drawPath pts ctx) = pen ctx
  /\ painted (Overlay.drawPath pts ctx)
     = painted ctx ++ strokeThrough (pen ctx) (Overlay.coordinates pts).
Proof.
  unfold Overlay.drawPath.
  destruct (Nat.ltb_spec (List.length pts) 2) as [Hlt|Hge].
  - rewrite strokeThrough_short, app_nil_r; [now split|].
    unfold Overlay.coordinates. now rewrite length_map.
  - apply (trace_polyline Geometry.x Geometry.y). lia.
Qed.

Lemma circle_overlay_shown (video : HTMLVideoElement) (canvas : Context2D)
    (s : CirclePreview.State) :
  CirclePreview.isSharing s = true ->
  Overlay.drawCircleOverlay true (Some video) canvas true s
  = Some {| width := offsetWidth video; height := offsetHeight video;
            content := flat_map Overlay.shownCircle
                         (CirclePreview.circles s ++ Session.inProgress s) |}.
Proof.
  intros Hon. unfold Overlay.drawCircleOverlay, Session.inProgress.
  rewrite Hon. cbv zeta. do 2 f_equal. rewrite flat_map_app.
  match goal with
  | |- context [forEach Overlay.strokeOverlayCircle ?l ?ctx] =>
      destruct (forEach_painted Overlay.strokeOverlayCircle
                  (fun pen c =>
                     strokeRound pen (CirclePreview.x c) (CirclePreview.y c)
                       (CirclePreview.radius c))
                  strokeOverlayCircle_painted l ctx) as [Hpen Hpaint]
  end.
  destruct (CirclePreview.currentCircle s) as [c|].
  - match goal with
    | |- context [Overlay.strokeOverlayCircle c ?ctx] =>
        destruct (strokeOverlayCircle_painted c ctx) as [_ Hcur]
    end.
    rewrite Hcur, Hpen, Hpaint. simpl. now rewrite app_nil_r.
  - rewrite Hpaint. simpl. now rewrite app_nil_r.
Qed.

Lemma freehand_overlay_shown (video : HTMLVideoElement) (canvas : Context2D)
    (t : FreehandPreview.State) :
  FreehandPreview.isSharing t = true ->
  Overlay.drawFreehandOverlay true (Some video) canvas true t
  = Some {| width := offsetWidth video; height := offsetHeight video;
            content :=
              flat_map (fun p => Overlay.shownPath (FreehandPreview.points p))
                (FreehandPreview.paths t)
              ++ (if (1 <? List.length (FreehandPreview.currentPath t))%nat
                  then Overlay.shownPath (FreehandPreview.currentPath t)
                  else []) |}.
Proof.
  intros Hon. unfold Overlay.drawFreehandOverlay.
  rewrite Hon. cbv zeta. do 2 f_equal.
  match goal with
  | |- context [forEach ?f (FreehandPreview.paths t) ?ctx] =>
      destruct (forEach_painted f
                  (fun pen p =>
                     strokeThrough pen
                       (Overlay.coordinates (FreehandPreview.points p)))
                  (fun p c => drawPath_painted (FreehandPreview.points p) c)
                  (FreehandPreview.paths t) ctx)
        as [Hpen Hpaint];
      destruct (drawPath_painted (FreehandPreview.currentPath t)
                  (forEach f (FreehandPreview.paths t) ctx))
        as [_ Hcur]
  end.
  destruct (1 <? List.length (FreehandPreview.currentPath t))%nat.
  - rewrite Hcur, Hpen, Hpaint. reflexivity.
  - rewrite Hpaint. simpl. now rewrite app_nil_r.
Qed.

(** X1.  While sharing, the overlay effect leaves on the canvas, sized to
    the displayed video, exactly the committed shapes in the order they
    were committed followed by the shape in progress, whatever the canvas
    held before; a path in progress of a single point is not shown.  While
    not sharing the effect does not touch the canvas. *)
Theorem overlay_shows_committed_then_in_progress
    (s : CirclePreview.State) (evs : list FreehandPreview.Event)
    (canvasRef : bool) (videoRef : option HTMLVideoElement)
    (getContext : bool) (video : HTMLVideoElement) (canvas : Context2D) :
  let t := FreehandPreview.run evs FreehandPreview.initial in
  (CirclePreview.isSharing s = true ->
   Overlay.drawCircleOverlay true (Some video) canvas true s
   = Some {| width := offsetWidth video; height := offsetHeight video;
             content := flat_map Overlay.shownCircle
                          (CirclePreview.circles s ++ Session.inProgress s) |})
  /\ (FreehandPreview.isSharing t = true ->
      Overlay.drawFreehandOverlay true (Some video) canvas true t
      = Some {| width := offsetWidth video; height := offsetHeight video;
                content :=
                  flat_map
                    (fun p => Overlay.shownPath (FreehandPreview.points p))
                    (FreehandPreview.paths t)
                  ++ (if (1 <? List.length (FreehandPreview.currentPath t))%nat
                      then Overlay.shownPath (FreehandPreview.currentPath t)
                      else []) |})
  /\ (CirclePreview.isSharing s = false ->
      Overlay.drawCircleOverlay canvasRef videoRef canvas getContext s = None)
  /\ (FreehandPreview.isSharing t = false ->
      Overlay.drawFreehandOverlay canvasRef videoRef canvas getContext t = None).
Proof.
  intros t. split; [now apply circle_overlay_shown|]. split.
  - now apply freehand_overlay_shown.
  - split; intros Hoff.
    + unfold Overlay.drawCircleOverlay. rewrite Hoff.
      now destruct canvasRef, videoRef.
    + unfold Overlay.drawFreehandOverlay. rewrite Hoff.
      now destruct canvasRef, videoRef.
Qed.

(** X1 at a circle being dragged over an overlay that held an older
    stroke: only the circle in progress is shown. *)
Lemma overlay_shows_committed_then_in_progress_witness :
  Overlay.drawCircleOverlay true (Some Scenario.halfSize)
    (stroke (arc 1 2 3 0 1 freshContext)) true Scenario.circleDragged
  = Some {| width := 640; height := 360;
            content := [Stroke Overlay.circlePen
                          [Arc 150 100 50 0 (2 * Math_PI)]] |}.
Proof.
  destruct (overlay_shows_committed_then_in_progress
              Scenario.circleDragged [] true (Some Scenario.halfSize) true
              Scenario.halfSize (stroke (arc 1 2 3 0 1 freshContext)))
    as [Hc _].
  apply Hc. reflexivity.
Defined.

Lemma flat_map_flat_map {A B C} (f : A -> list B) (g : B -> list C)
    (h : A -> list C) (l : list A) :
  (forall a, flat_map g (f a) = h a) ->
  flat_map g (flat_map f l) = flat_map h l.
Proof.
  intros Hgf. induction l as [|a l IH]; [reflexivity|].
  simpl. now rewrite flat_map_app, Hgf, IH.
Qed.

Lemma through_polyline (coords : list (number * number)) :
  Overlay.through (polyline coords) = coords.
Proof.
  destruct coords as [|[x0 y0] rest]; [reflexivity|].
  simpl. f_equal. induction rest as [|[x1 y1] rest IH]; [reflexivity|].
  simpl. now rewrite IH.
Qed.

Section BurnIn.

Variable video : HTMLVideoElement.

Let scale (c : number * number) : number * number :=
  (fst c * Compositor.scaleX video, snd c * Compositor.scaleY video)%float.

(** A coordinate that is not finite stays so when it is scaled. *)
Lemma scale_finite (c : number * number) :
  finiteCoords (scale c) = true -> finiteCoords c = true.
Proof.
  unfold finiteCoords, scale. simpl. intros H.
  apply andb_prop in H as [Hx Hy].
  destruct (is_finite (fst c)) eqn:Hfx.
  - destruct (is_finite (snd c)) eqn:Hfy; [reflexivity|].
    now rewrite (mul_not_finite_l _ _ Hfy) in Hy.
  - now rewrite (mul_not_finite_l _ _ Hfx) in Hx.
Qed.

Lemma filter_scale (coords : list (number * number)) :
  filter finiteCoords (map scale (filter finiteCoords coords))
  = filter finiteCoords (map scale coords).
Proof.
  induction coords as [|c coords IH]; [reflexivity|].
  simpl. destruct (finiteCoords c) eqn:Hc.
  - simpl. now rewrite IH.
  - destruct (finiteCoords (scale c)) eqn:Hs; [|exact IH].
    apply scale_finite in Hs. congruence.
Qed.

Lemma burnIn_shownCircle (c : CirclePreview.DrawingCircle) :
  flat_map (Overlay.burnIn Compositor.circlePen video) (Overlay.shownCircle c)
  = Compositor.scaledCircle video c.
Proof.
  unfold Overlay.shownCircle, Compositor.scaledCircle, strokeRound at 1.
  destruct (is_finite (CirclePreview.x c)) eqn:Hx;
    [destruct (is_finite (CirclePreview.y c)) eqn:Hy;
     [destruct (is_finite (CirclePreview.radius c)) eqn:Hr|]|];
    cbn [andb flat_map Overlay.burnIn]; rewrite ?app_nil_r;
    try reflexivity; unfold strokeRound.
  - now rewrite (mul_not_finite_l _ (Math_max _ _) Hr), andb_false_r.
  - rewrite (mul_not_finite_l _ (Compositor.scaleY video) Hy).
    now rewrite andb_false_r.
  - now rewrite (mul_not_finite_l _ (Compositor.scaleX video) Hx).
Qed.

Lemma burnIn_shownPath (p : FreehandPreview.DrawingPath) :
  flat_map (Overlay.burnIn Compositor.freehandPen video)
    (Overlay.shownPath (FreehandPreview.points p))
  = Compositor.scaledStroke video p.
Proof.
  unfold Overlay.shownPath, Compositor.scaledStroke.
  assert (Hscaled :
            FreehandPreview.scaledPoints (Compositor.scaleX video)
              (Compositor.scaleY video) (FreehandPreview.points p)
            = map scale (Overlay.coordinates (FreehandPreview.points p))).
  { unfold FreehandPreview.scaledPoints, Overlay.coordinates.
    now rewrite map_map. }
  rewrite Hscaled. clear Hscaled.
  set (coords := Overlay.coordinates (FreehandPreview.points p)).
  unfold strokeThrough at 1.
  destruct (Nat.leb_spec 2 (List.length (filter finiteCoords coords)))
    as [Hlong|Hshort].
  - cbn [flat_map]. rewrite app_nil_r.
    destruct (filter finiteCoords coords) as [|[x0 y0] [|c1 rest]] eqn:Hq;
      try (simpl in Hlong; lia).
    change (Overlay.burnIn Compositor.freehandPen video
              (Stroke Overlay.freehandPen (polyline ((x0, y0) :: c1 :: rest))))
      with (strokeThrough Compositor.freehandPen
              (map scale
                 (Overlay.through (polyline ((x0, y0) :: c1 :: rest))))).
    rewrite through_polyline, <- Hq.
    unfold strokeThrough. now rewrite filter_scale.
  - cbn [flat_map]. symmetry. unfold strokeThrough.
    rewrite <- filter_scale.
    pose proof (filter_length_le finiteCoords
                  (map scale (filter finiteCoords coords))) as Hle.
    rewrite length_map in Hle.
    destruct (Nat.leb_spec 2
                (List.length
                   (filter finiteCoords
                      (map scale (filter finiteCoords coords)))));
      [lia | reflexivity].
Qed.

End BurnIn.

(** X2.  What is captured is what is shown: in every state a sharing
    session reaches, the overlay shows the committed shapes and then the
    shape in progress, and the capture is the video frame followed by what
    the overlay shows of the committed shapes, in the same order, burned
    in with the pen of the capture and scaled (a radius by the larger
    factor: by 2 whether the video is laid out at half its width or at half
    its height); the shape in progress is left out. *)
Theorem capture_burns_in_committed_overlay
    (evs : list CirclePreview.Event) (evs' : list FreehandPreview.Event)
    (video : HTMLVideoElement) (canvas : Context2D) :
  let s := CirclePreview.run evs CirclePreview.initial in
  let t := FreehandPreview.run evs' FreehandPreview.initial in
  let circlesShown := flat_map Overlay.shownCircle (CirclePreview.circles s) in
  let pathsShown :=
    flat_map (fun p => Overlay.shownPath (FreehandPreview.points p))
      (FreehandPreview.paths t) in
  CirclePreview.isSharing s = true ->
  FreehandPreview.isSharing t = true ->
  (exists inProgress,
     Overlay.drawCircleOverlay true (Some video) canvas true s
     = Some {| width := offsetWidth video; height := offsetHeight video;
               content := circlesShown ++ inProgress |}
     /\ (CirclePreview.currentCircle s = None -> inProgress = []))
  /\ captured (CirclePreview.captureScreen (Some video) true s)
     = [Compositor.exported video
          (flat_map (Overlay.burnIn Compositor.circlePen video) circlesShown)]
  /\ (exists inProgress,
        Overlay.drawFreehandOverlay true (Some video) canvas true t
        = Some {| width := offsetWidth video; height := offsetHeight video;
                  content := pathsShown ++ inProgress |}
        /\ (List.length (FreehandPreview.currentPath t) <= 1 ->
            inProgress = []))
  /\ captured (FreehandPreview.captureScreen (Some video) true t)
     = [Compositor.exported video
          (flat_map (Overlay.burnIn Compositor.freehandPen video) pathsShown)]
  /\ Overlay.burnIn Compositor.circlePen Scenario.narrow
       (Stroke Overlay.circlePen [Arc 150 100 50 0 (2 * Math_PI)])
     = [Stroke Compositor.circlePen [Arc 300 100 100 0 (2 * Math_PI)]]
  /\ Overlay.burnIn Compositor.circlePen Scenario.flat
       (Stroke Overlay.circlePen [Arc 150 100 50 0 (2 * Math_PI)])
     = [Stroke Compositor.circlePen [Arc 150 200 100 0 (2 * Math_PI)]]
  /\ Overlay.burnIn Compositor.freehandPen Scenario.halfSize
       (Stroke Overlay.freehandPen [MoveTo 100 100; LineTo 200 100])
     = [Stroke Compositor.freehandPen [MoveTo 200 200; LineTo 400 200]].
Proof.
  intros s t circlesShown pathsShown Hs Ht.
  destruct (circle_run_coherent evs _ circle_initial_coherent) as [Hcs _].
  destruct (freehand_run_coherent evs' _ freehand_initial_coherent) as [Hct _].
  fold s in Hcs. fold t in Hct.
  split; [|split; [|split; [|split]]].
  - eexists. split.
    + rewrite (circle_overlay_shown video canvas s Hs), flat_map_app.
      reflexivity.
    + intros Hnone. unfold Session.inProgress. now rewrite Hnone.
  - rewrite circle_capture by now apply Hcs.
    subst circlesShown.
    rewrite (flat_map_flat_map _ _ (Compositor.scaledCircle video));
      [reflexivity | apply burnIn_shownCircle].
  - eexists. split.
    + rewrite (freehand_overlay_shown video canvas t Ht). reflexivity.
    + intros Hshort.
      destruct (Nat.ltb_spec 1 (List.length (FreehandPreview.currentPath t)));
        [lia | reflexivity].
  - rewrite freehand_capture by now apply Hct.
    subst pathsShown.
    rewrite (flat_map_flat_map _ _ (Compositor.scaledStroke video));
      [reflexivity | apply burnIn_shownPath].
  - repeat split.
Qed.

(** X2 at the sessions with one circle and one stroke drawn. *)
Lemma capture_burns_in_committed_overlay_witness :
  captured (CirclePreview.captureScreen (Some Scenario.halfSize) true
              Scenario.circleDrawn)
  = [Compositor.exported Scenario.halfSize
       (Overlay.burnIn Compositor.circlePen Scenario.halfSize
          (Stroke Overlay.circlePen [Arc 150 100 50 0 (2 * Math_PI)]))]
  /\ captured (FreehandPreview.captureScreen (Some Scenario.halfSize) true
                 Scenario.pathDrawn)
     = [Compositor.exported Scenario.halfSize
          (Overlay.burnIn Compositor.freehandPen Scenario.halfSize
             (Stroke Overlay.freehandPen [MoveTo 100 100; LineTo 200 100]))].
Proof.
  destruct (capture_burns_in_committed_overlay
              [CirclePreview.StartScreenShare (Some Scenario.screen);
               CirclePreview.ToggleDrawMode;
               CirclePreview.MouseDown (Scenario.pointerAt 100 100)
                 (Some Scenario.container);
               CirclePreview.MouseMove (Scenario.pointerAt 200 100)
                 (Some Scenario.container);
               CirclePreview.MouseUp]
              [FreehandPreview.StartScreenShare (Some Scenario.screen);
               FreehandPreview.ToggleDrawMode;
               FreehandPreview.MouseDown (Scenario.pointerAt 100 100)
                 (Some Scenario.container);
               FreehandPreview.MouseMove (Scenario.pointerAt 200 100)
                 (Some Scenario.container);
               FreehandPreview.MouseUp]
              Scenario.halfSize freshContext eq_refl eq_refl)
    as [_ [Hcap [_ [Hcap' _]]]].
  split; [exact Hcap | exact Hcap'].
Defined.

(** ** Analyses and the history *)

Section Outcome.

Import Index.

Variables (now date : N) (imageData : jsstring) (s : State).

Let newItem (d : Relay.AnalyzeData) : HistoryItem.t :=
  {| HistoryItem.id := toString now; HistoryItem.image := imageData;
     HistoryItem.solution := Relay.solution d;
     HistoryItem.timestamp := date |}.

(** Every result of the relay call is either a success with some body or
    a failure with some message, and the handler ends accordingly. *)
Lemma analyze_outcome (r : Relay.InvokeResult Relay.AnalyzeData) :
  (exists d,
     succeeded r d
     /\ analyzeMathProblem now date imageData r s
        = ({| isLoading := false; solution := Relay.solution d;
              capturedImage := Some imageData;
              history := newItem d :: firstn 19 (history s) |},
           [Invoke "analyze-math" imageData "capture";
            Toast "Answer found!" (lit "Check out the answer below") false]))
  \/
  (exists message,
     (forall d, ~ succeeded r d)
     /\ analyzeMathProblem now date imageData r s
        = ({| isLoading := false; solution := None;
              capturedImage := Some imageData; history := history s |},
           [Invoke "analyze-math" imageData "capture";
            ConsoleError "Error analyzing math problem:" message;
            Toast "Analysis failed"
              (or_else message
                 (lit "Failed to analyze the math problem. Please try again."))
              true])).
Proof.
  unfold succeeded.
  destruct r as [reason|[d|] [err|]].
  - right. exists reason. split; [intros d [H _]; discriminate | reflexivity].
  - right. exists (Relay.message err).
    split; [intros d' [H _]; discriminate | reflexivity].
  - destruct (Relay.truthyOpt (Relay.error d)) eqn:Herr.
    + right. unfold Relay.truthyOpt in Herr.
      destruct (Relay.error d) as [m|] eqn:Hm; [|discriminate].
      exists m. split.
      * intros d' [H Hok]. injection H as <-.
        unfold Relay.truthyOpt in Hok. rewrite Hm in Hok. congruence.
      * unfold analyzeMathProblem, analyzeBegin, analyzeSettle, analyzeTry.
        cbn [setIsLoading setSolution setCapturedImage].
        rewrite Hm, Herr. reflexivity.
    + left. exists d. split; [now split|].
      unfold analyzeMathProblem, analyzeBegin, analyzeSettle, analyzeTry,
        recordSolution.
      unfold Relay.truthyOpt in Herr.
      destruct (Relay.error d) as [m|]; [rewrite Herr|]; reflexivity.
  - right. exists (Relay.message err).
    split; [intros d' [H _]; discriminate | reflexivity].
  - right. exists (Relay.nullPropertyMessage "error").
    split; [intros d' [H _]; discriminate | reflexivity].
Qed.

(** The same for the part of the handler that runs once the call has
    settled, on the state the page has by then. *)
Lemma settle_outcome (r : Relay.InvokeResult Relay.AnalyzeData) :
  (exists d,
     succeeded r d
     /\ analyzeSettle now date imageData r s
        = ({| isLoading := false; solution := Relay.solution d;
              capturedImage := capturedImage s;
              history := newItem d :: firstn 19 (history s) |},
           [Toast "Answer found!" (lit "Check out the answer below") false]))
  \/
  (exists message,
     (forall d, ~ succeeded r d)
     /\ analyzeSettle now date imageData r s
        = (setIsLoading false s,
           [ConsoleError "Error analyzing math problem:" message;
            Toast "Analysis failed"
              (or_else message
                 (lit "Failed to analyze the math problem. Please try again."))
              true])).
Proof.
  unfold succeeded.
  destruct r as [reason|[d|] [err|]].
  - right. exists reason. split; [intros d [H _]; discriminate | reflexivity].
  - right. exists (Relay.message err).
    split; [intros d' [H _]; discriminate | reflexivity].
  - destruct (Relay.truthyOpt (Relay.error d)) eqn:Herr.
    + right. unfold Relay.truthyOpt in Herr.
      destruct (Relay.error d) as [m|] eqn:Hm; [|discriminate].
      exists m. split.
      * intros d' [H Hok]. injection H as <-.
        unfold Relay.truthyOpt in Hok. rewrite Hm in Hok. congruence.
      * unfold analyzeSettle, analyzeTry. rewrite Hm, Herr. reflexivity.
    + left. exists d. split; [now split|].
      unfold analyzeSettle, analyzeTry, recordSolution.
      unfold Relay.truthyOpt in Herr.
      destruct (Relay.error d) as [m|]; [rewrite Herr|]; reflexivity.
  - right. exists (Relay.message err).
    split; [intros d' [H _]; discriminate | reflexivity].
  - right. exists (Relay.nullPropertyMessage "error").
    split; [intros d' [H _]; discriminate | reflexivity].
Qed.

End Outcome.

(** X6.  [analyzeMathProblem] turns loading on, clears the solution and
    shows the submitted image before it waits.  Whatever the relay call
    resulted in, a body missing altogether included, and whatever the
    page has become while it was pending, the rest of the handler turns
    loading off, leaves the image shown alone and reports exactly one
    toast: after a success it shows the solution of the body and puts the
    new item in front of the history; in every other case it touches
    neither the solution nor the history, and the toast is a destructive
    one with a text that is never empty.  An error field holding the empty
    string counts as no error. *)
Theorem analysis_always_settles
    (now date : N) (imageData : jsstring)
    (r : Relay.InvokeResult Relay.AnalyzeData) (s : Index.State)
    (sol : option jsstring) :
  let began := fst (Index.analyzeBegin imageData s) in
  let s' := fst (Index.analyzeSettle now date imageData r s) in
  let fx := snd (Index.analyzeSettle now date imageData r s) in
  began = {| Index.isLoading := true; Index.solution := None;
             Index.capturedImage := Some imageData;
             Index.history := Index.history s |}
  /\ Index.isLoading s' = false
  /\ Index.capturedImage s' = Index.capturedImage s
  /\ ((exists d,
         Index.succeeded r d
         /\ Index.solution s' = Relay.solution d
         /\ Index.history s'
            = firstn 20
                ({| HistoryItem.id := toString now;
                    HistoryItem.image := imageData;
                    HistoryItem.solution := Relay.solution d;
                    HistoryItem.timestamp := date |} :: Index.history s)
         /\ HistoryOrder.toasts fx
            = [Index.Toast "Answer found!" (lit "Check out the answer below")
                 false])
      \/ (exists text,
            (forall d, ~ Index.succeeded r d)
            /\ Index.solution s' = Index.solution s
            /\ Index.history s' = Index.history s
            /\ truthy text = true
            /\ HistoryOrder.toasts fx
               = [Index.Toast "Analysis failed" text true]))
  /\ Index.succeeded
       (Relay.Resolved
          (Some {| Relay.error := Some []; Relay.solution := sol |}) None)
       {| Relay.error := Some []; Relay.solution := sol |}
  /\ (forall d, ~ Index.succeeded (Relay.Resolved None None) d).
Proof.
  intros began s' fx. subst began s' fx.
  split; [reflexivity|].
  destruct (settle_outcome now date imageData s r)
    as [[d [Hok ->]]|[message [Hko ->]]]; simpl.
  - repeat split; try (intros d' [H _]; discriminate).
    left. exists d. repeat split; apply Hok.
  - repeat split; try (intros d' [H _]; discriminate).
    right. eexists. repeat split; [exact Hko|].
    unfold or_else. now destruct (truthy message) eqn:Hm.
Qed.

(** X5.  In every state the page reaches, a successful analysis keeps all
    previous items behind the new one while the history holds fewer than
    20, and at 20 drops exactly the last, oldest, one. *)
Theorem history_evicts_only_the_oldest
    (evs : list Index.Event) (now date : N) (imageData : jsstring)
    (r : Relay.InvokeResult Relay.AnalyzeData) (d : Relay.AnalyzeData) :
  let s := Index.run evs Index.initial in
  let s' := fst (Index.analyzeMathProblem now date imageData r s) in
  let newItem :=
    {| HistoryItem.id := toString now; HistoryItem.image := imageData;
       HistoryItem.solution := Relay.solution d;
       HistoryItem.timestamp := date |} in
  Index.succeeded r d ->
  (List.length (Index.history s) < 20
   /\ Index.history s' = newItem :: Index.history s)
  \/ (List.length (Index.history s) = 20
      /\ Index.history s' = newItem :: removelast (Index.history s)).
Proof.
  intros s s' newItem Hok. subst s'.
  assert (Hcap : List.length (Index.history s) <= 20)
    by (apply run_history_capped; simpl; lia).
  destruct (analyze_outcome now date imageData s r)
    as [[d' [[Hr' Hok'] ->]]|[message [Hko _]]]; [|now elim (Hko d)].
  destruct Hok as [Hr _]. rewrite Hr in Hr'. injection Hr' as <-.
  cbn [fst Index.history]. fold newItem.
  destruct (Nat.eq_dec (List.length (Index.history s)) 20) as [Hfull|Hroom].
  - right. split; [exact Hfull|].
    now rewrite removelast_firstn_len, Hfull.
  - left. split; [lia|]. now rewrite firstn_all2 by lia.
Qed.

(** X5 at a full history: the item of time 1 leaves, the one of time 2 is
    now last. *)
Lemma history_evicts_only_the_oldest_witness :
  let s' :=
    fst (Index.analyzeMathProblem 21 21 Scenario.capture
           (Scenario.solvedBy "x = 3") Scenario.twentySolved) in
  last (map HistoryItem.timestamp (Index.history Scenario.twentySolved)) 0%N
  = 1%N
  /\ last (map HistoryItem.timestamp (Index.history s')) 0%N = 2%N.
Proof.
  destruct (history_evicts_only_the_oldest
              (map (fun n => Index.Analyze n n Scenario.capture
                               (Scenario.solvedBy "x = 2"))
                 (map N.of_nat (seq 1 20)))
              21 21 Scenario.capture (Scenario.solvedBy "x = 3")
              {| Relay.error := None; Relay.solution := Some (lit "x = 3") |}
              (conj eq_refl eq_refl))
    as [[Hroom _]|[_ Hfull]].
  - vm_compute in Hroom. lia.
  - split; [reflexivity|].
    change (Index.run
              (map (fun n => Index.Analyze n n Scenario.capture
                               (Scenario.solvedBy "x = 2"))
                 (map N.of_nat (seq 1 20))) Index.initial)
      with Scenario.twentySolved in Hfull.
    rewrite Hfull. reflexivity.
Defined.

Lemma Forall_firstn {A} (P : A -> Prop) (n : nat) (l : list A) :
  Forall P l -> Forall P (firstn n l).
Proof.
  revert n. induction l as [|a l IH]; intros n Hl.
  - now rewrite firstn_nil.
  - destruct n as [|n]; [constructor|].
    inversion Hl; subst. simpl. constructor; auto.
Qed.

Lemma StronglySorted_firstn {A} (R : A -> A -> Prop) (n : nat) (l : list A) :
  StronglySorted R l -> StronglySorted R (firstn n l).
Proof.
  revert n. induction l as [|a l IH]; intros n Hl.
  - now rewrite firstn_nil.
  - destruct n as [|n]; [constructor|].
    inversion Hl; subst. simpl. constructor; [now apply IH|].
    now apply Forall_firstn.
Qed.

Section NewestFirst.

Import Index.

(** The history is ordered newest first and nothing in it is later than
    [bound]. *)
Let ordered (bound : N) (s : State) : Prop :=
  StronglySorted HistoryOrder.noOlder (history s)
  /\ Forall (fun it => (HistoryItem.timestamp it <= bound)%N) (history s).

(** The latest clock reading once [ev] has been handled. *)
Let latest (ev : Event) (bound : N) : N :=
  match ev with
  | Analyze _ date _ _ => date
  | _ => bound
  end.

Lemma step_newest_first (ev : Event) (s : State) (bound : N) :
  ordered bound s ->
  Forall (fun d => (bound <= d)%N) (HistoryOrder.dates [ev]) ->
  ordered (latest ev bound) (fst (step ev s)).
Proof.
  intros [Hsorted Hbound] Hlater. destruct ev as [now date img r|item|].
  - simpl in Hlater. inversion Hlater as [|? ? Hdate _]; subst.
    assert (Hbound' : Forall (fun it => (HistoryItem.timestamp it <= date)%N)
                        (history s)).
    { eapply Forall_impl; [|exact Hbound]. simpl. intros it Hit. lia. }
    cbn [step latest].
    destruct (analyze_outcome now date img s r)
      as [[d [_ ->]]|[message [_ ->]]]; cbn [fst]; unfold ordered;
      cbn [history].
    + split.
      * constructor; [now apply StronglySorted_firstn|].
        apply Forall_firstn. exact Hbound'.
      * constructor; [simpl; lia | now apply Forall_firstn].
    + now split.
  - now split.
  - split; constructor.
Qed.

Lemma run_newest_first (evs : list Event) (s : State) (bound : N) :
  ordered bound s ->
  Forall (fun d => (bound <= d)%N) (HistoryOrder.dates evs) ->
  StronglySorted N.le (HistoryOrder.dates evs) ->
  StronglySorted HistoryOrder.noOlder (history (run evs s)).
Proof.
  revert s bound. induction evs as [|ev evs IH]; intros s bound Hs Hlater Hmono.
  - apply Hs.
  - assert (Hnow : Forall (fun d => (bound <= d)%N) (HistoryOrder.dates [ev])).
    { destruct ev; simpl in *; [|constructor|constructor].
      inversion Hlater; subst. now repeat constructor. }
    simpl. apply (IH _ (latest ev bound)).
    + now apply step_newest_first.
    + destruct ev as [now date img r|item|]; simpl in *;
        [now inversion Hmono | exact Hlater | exact Hlater].
    + destruct ev as [now date img r|item|]; simpl in *;
        [now inversion Hmono | exact Hmono | exact Hmono].
Qed.

End NewestFirst.

(** X7.  When the clock readings of the analyses never go back, the
    history of every state the page reaches is ordered newest first: no
    item is older than an item after it. *)
Theorem history_is_newest_first (evs : list Index.Event) :
  StronglySorted N.le (HistoryOrder.dates evs) ->
  StronglySorted HistoryOrder.noOlder
    (Index.history (Index.run evs Index.initial)).
Proof.
  intros Hmono. apply (run_newest_first evs Index.initial 0%N).
  - split; constructor.
  - apply Forall_forall. intros d _. lia.
  - exact Hmono.
Qed.

(** X7 at three analyses at times 3, 5 and 5, the second one failing. *)
Lemma history_is_newest_first_witness :
  map HistoryItem.timestamp
    (Index.history
       (Index.run
          [Index.Analyze 3 3 Scenario.capture (Scenario.solvedBy "x = 2");
           Index.Analyze 5 5 Scenario.capture (Scenario.refusedWith "busy");
           Index.Analyze 6 5 Scenario.capture (Scenario.solvedBy "x = 3")]
          Index.initial))
  = [5; 3]%N
  /\ StronglySorted HistoryOrder.noOlder
       (Index.history
          (Index.run
             [Index.Analyze 3 3 Scenario.capture (Scenario.solvedBy "x = 2");
              Index.Analyze 5 5 Scenario.capture (Scenario.refusedWith "busy");
              Index.Analyze 6 5 Scenario.capture (Scenario.solvedBy "x = 3")]
             Index.initial)).
Proof.
  split; [reflexivity|].
  apply (history_is_newest_first
           [Index.Analyze 3 3 Scenario.capture (Scenario.solvedBy "x = 2");
            Index.Analyze 5 5 Scenario.capture (Scenario.refusedWith "busy");
            Index.Analyze 6 5 Scenario.capture (Scenario.solvedBy "x = 3")]).
  simpl. repeat constructor; lia.
Defined.

(** ** The history panel *)

Section Panel.

Import HistoryPanel.

Lemma rows_of_solved (history : list HistoryItem.t) :
  Forall (fun it => HistoryItem.solution it <> None) history ->
  rows history = Relay.Normal (map shown history).
Proof.
  induction history as [|it rest IH]; intros Hall; [reflexivity|].
  inversion Hall as [|? ? Hit Hrest]; subst.
  simpl. rewrite (IH Hrest). unfold row, shown.
  destruct (HistoryItem.solution it) as [sol|]; [reflexivity | congruence].
Qed.

Lemma rows_of_unsolved (history : list HistoryItem.t) :
  Exists (fun it => HistoryItem.solution it = None) history ->
  rows history = Relay.Throw (undefinedPropertyMessage "slice").
Proof.
  induction history as [|it rest IH]; intros Hex.
  - inversion Hex.
  - simpl. unfold row.
    destruct (HistoryItem.solution it) as [sol|] eqn:Hsol; [|reflexivity].
    inversion Hex as [? ? Hit|? ? Hrest]; subst; [congruence|].
    now rewrite (IH Hrest).
Qed.

Lemma shown_preview_length (it : HistoryItem.t) :
  List.length (preview (shown it)) <= 53.
Proof.
  unfold shown. cbn [preview]. rewrite length_app.
  pose proof (firstn_le_length 50
                (match HistoryItem.solution it with
                 | Some sol => sol
                 | None => []
                 end)) as Hcut.
  change (List.length (lit "...")) with 3. lia.
Qed.

End Panel.

(** X14.  The history panel shows the placeholder exactly for the empty
    history.  Otherwise, when every item has a solution, it shows the
    count and one row per item in the order of the history, each with the
    key, the image and the time of its item and, as the preview, the
    first 50 code units of the solution (all of it when it is shorter)
    followed by three dots; and when some item has no solution, reading
    its preview throws and nothing is rendered. *)
Theorem history_panel_renders_solved_items (history : list HistoryItem.t) :
  (HistoryPanel.render history = Relay.Normal HistoryPanel.Placeholder
   <-> history = [])
  /\ (history <> [] ->
      Forall (fun it => HistoryItem.solution it <> None) history ->
      HistoryPanel.render history
      = Relay.Normal
          (HistoryPanel.Panel (List.length history)
             (map HistoryPanel.shown history))
      /\ Forall2
           (fun it r =>
              HistoryPanel.key r = HistoryItem.id it
              /\ HistoryPanel.src r = HistoryItem.image it
              /\ HistoryPanel.time r = HistoryItem.timestamp it
              /\ (exists sol,
                    HistoryItem.solution it = Some sol
                    /\ HistoryPanel.preview r
                       = firstn 50 sol ++ [46; 46; 46]%N)
              /\ List.length (HistoryPanel.preview r) <= 53)
           history (map HistoryPanel.shown history))
  /\ (Exists (fun it => HistoryItem.solution it = None) history ->
      HistoryPanel.render history
      = Relay.Throw (HistoryPanel.undefinedPropertyMessage "slice")).
Proof.
  split; [|split].
  - unfold HistoryPanel.render. destruct history as [|it rest].
    + now split.
    + simpl. split; [|discriminate].
      destruct (HistoryPanel.row it); [|discriminate].
      destruct (HistoryPanel.rows rest); discriminate.
  - intros Hne Hall. split.
    + unfold HistoryPanel.render. rewrite (rows_of_solved history Hall).
      destruct history; [congruence | reflexivity].
    + clear Hne. induction Hall as [|it rest Hit Hrest IH]; [constructor|].
      simpl. constructor; [|exact IH].
      repeat split; try apply shown_preview_length.
      destruct (HistoryItem.solution it) as [sol|] eqn:Hsol; [|congruence].
      exists sol. split; [reflexivity|].
      unfold HistoryPanel.shown. now rewrite Hsol.
  - intros Hex. unfold HistoryPanel.render.
    rewrite (rows_of_unsolved history Hex).
    destruct history; [inversion Hex | reflexivity].
Qed.

(** X14 at a history of one problem with a solution of 91 code units:
    its first 50 are shown. *)
Lemma history_panel_renders_solved_items_witness :
  option_map (@List.length code_unit) (HistoryItem.solution Scenario.explained)
  = Some 91%nat
  /\ HistoryPanel.render [Scenario.explained]
     = Relay.Normal
         (HistoryPanel.Panel 1
            [{| HistoryPanel.key := lit "7";
                HistoryPanel.src := Scenario.capture;
                HistoryPanel.preview :=
                  lit "The derivative of x^2 is 2x, so the slope at x = 3...";
                HistoryPanel.time := 7 |}]).
Proof.
  destruct (history_panel_renders_solved_items [Scenario.explained])
    as [_ [Hsolved _]].
  destruct Hsolved as [Hrender _].
  - discriminate.
  - repeat constructor; discriminate.
  - split; [reflexivity | exact Hrender].
Defined.

(** ** Trimming *)

Lemma trimStart_blank (s : jsstring) :
  trimStart s = [] <-> forallb isWhiteSpace s = true.
Proof.
  induction s as [|c s IH]; simpl.
  - now split.
  - destruct (isWhiteSpace c); simpl; [exact IH|]. split; discriminate.
Qed.

Lemma trimStart_head (s : jsstring) (c : code_unit) (t : jsstring) :
  trimStart s = c :: t -> isWhiteSpace c = false.
Proof.
  induction s as [|d s IH]; simpl; [discriminate|].
  destruct (isWhiteSpace d) eqn:Hd; [exact IH|].
  intros H. injection H as <- _. exact Hd.
Qed.

Lemma trimStart_suffix (s : jsstring) :
  exists blanks, s = blanks ++ trimStart s.
Proof.
  induction s as [|c s [blanks IH]]; simpl.
  - now exists [].
  - destruct (isWhiteSpace c).
    + exists (c :: blanks). simpl. now rewrite <- IH.
    + now exists [].
Qed.

Lemma forallb_rev {A} (f : A -> bool) (l : list A) :
  forallb f (rev l) = forallb f l.
Proof.
  induction l as [|a l IH]; [reflexivity|].
  simpl. rewrite forallb_app, IH. simpl. rewrite andb_true_r.
  apply andb_comm.
Qed.

Lemma trim_blank (s : jsstring) :
  trim s = [] <-> forallb isWhiteSpace s = true.
Proof.
  unfold trim, trimEnd. rewrite <- trimStart_blank. split.
  - intros H. apply (f_equal (@rev code_unit)) in H.
    rewrite rev_involutive in H. simpl in H.
    apply trimStart_blank in H. rewrite forallb_rev in H.
    destruct (trimStart s) as [|c t] eqn:Hs; [reflexivity|].
    apply trimStart_head in Hs. simpl in H. now rewrite Hs in H.
  - intros ->. reflexivity.
Qed.

Lemma trim_first (s : jsstring) (c : code_unit) (t : jsstring) :
  trim s = c :: t -> isWhiteSpace c = false.
Proof.
  unfold trim, trimEnd. intros H.
  destruct (trimStart_suffix (rev (trimStart s))) as [blanks Hsplit].
  apply (f_equal (@rev code_unit)) in Hsplit.
  rewrite rev_involutive, rev_app_distr, H in Hsplit.
  simpl in Hsplit. now apply trimStart_head in Hsplit.
Qed.

Lemma trim_last (s : jsstring) (c : code_unit) (t : jsstring) :
  trim s = t ++ [c] -> isWhiteSpace c = false.
Proof.
  unfold trim, trimEnd. intros H.
  apply (f_equal (@rev code_unit)) in H.
  rewrite rev_involutive, rev_app_distr in H. simpl in H.
  now apply trimStart_head in H.
Qed.

(** ** The chat *)

(** X8.  [sendMessage] sends nothing and changes nothing exactly when a
    request is in flight, or when the input holds nothing but white space
    (or nothing at all) and no image is pending; in every other case it
    sends exactly one request.  Enter without Shift does the same, every
    other key nothing. *)
Theorem blank_input_is_never_sent
    (now later : N) (r : Relay.InvokeResult Relay.ChatData)
    (s : DavidChat.State) (key : jsstring) (shiftKey : bool) :
  let idle :=
    DavidChat.isLoading s = true
    \/ (forallb isWhiteSpace (DavidChat.input s) = true
        /\ Relay.truthyOpt (DavidChat.pendingImage s) = false) in
  (idle -> DavidChat.sendMessage now later r s = (s, []))
  /\ (~ idle ->
      chatRequests (snd (DavidChat.sendMessage now later r s))
      = [map ChatMessage.wire
           (DavidChat.messages s ++ [DavidChat.userMessage now s])])
  /\ ChatSession.handleKeyPress (lit "Enter") false
       (DavidChat.sendMessage now later r) s
     = DavidChat.sendMessage now later r s
  /\ (shiftKey = true \/ ChatSession.sameString key (lit "Enter") = false ->
      ChatSession.handleKeyPress key shiftKey
        (DavidChat.sendMessage now later r) s = (s, [])).
Proof.
  intros idle.
  assert (Hguard : DavidChat.nothingToSend s = true <-> idle).
  { unfold idle, DavidChat.nothingToSend.
    rewrite <- trim_blank.
    destruct (DavidChat.isLoading s); [rewrite orb_true_r; tauto|].
    rewrite orb_false_r.
    destruct (trim (DavidChat.input s)) as [|c t];
      destruct (Relay.truthyOpt (DavidChat.pendingImage s)); simpl;
      split; intros H; try discriminate; auto;
      destruct H as [H|[H H']]; discriminate. }
  split; [|split; [|split]].
  - intros Hidle. apply Hguard in Hidle.
    unfold DavidChat.sendMessage. now rewrite Hidle.
  - intros Hbusy.
    assert (Hgo : DavidChat.nothingToSend s = false).
    { destruct (DavidChat.nothingToSend s); [|reflexivity].
      elim Hbusy. now apply Hguard. }
    unfold DavidChat.sendMessage, DavidChat.sendMessageBegin,
      DavidChat.sendMessageSettle, DavidChat.replyTry.
    rewrite Hgo.
    destruct r as [reason|[d|] [err|]]; reflexivity.
  - reflexivity.
  - intros [->|Hkey]; unfold ChatSession.handleKeyPress.
    + now rewrite andb_false_r.
    + now rewrite Hkey.
Qed.

(** X8 at an input of two blanks with no image, and at the Tab key. *)
Lemma blank_input_is_never_sent_witness :
  DavidChat.sendMessage 7 8 (Relay.Rejected (lit "offline")) Scenario.blankInput
  = (Scenario.blankInput, [])
  /\ ChatSession.handleKeyPress (lit "Tab") false
       (DavidChat.sendMessage 7 8 (Relay.Rejected (lit "offline")))
       Scenario.pictureOnly
     = (Scenario.pictureOnly, []).
Proof.
  destruct (blank_input_is_never_sent 7 8 (Relay.Rejected (lit "offline"))
              Scenario.blankInput (lit "Tab") false) as [Hidle _].
  destruct (blank_input_is_never_sent 7 8 (Relay.Rejected (lit "offline"))
              Scenario.pictureOnly (lit "Tab") false) as [_ [_ [_ Hkey]]].
  split; [apply Hidle | apply Hkey]; right; [split|]; reflexivity.
Defined.

Lemma or_else_truthy (a b : jsstring) :
  truthy b = true -> truthy (or_else a b) = true.
Proof. unfold or_else. intros Hb. now destruct (truthy a) eqn:Ha. Qed.

(** X9.  The text of the user message [sendMessage] builds is never
    empty and neither starts nor ends with white space: it is the trimmed
    input, or the default text when the input is blank. *)
Theorem user_message_is_trimmed_and_not_empty
    (now : N) (s : DavidChat.State) :
  let content := ChatMessage.content (DavidChat.userMessage now s) in
  truthy content = true
  /\ (forall c t, content = c :: t -> isWhiteSpace c = false)
  /\ (forall c t, content = t ++ [c] -> isWhiteSpace c = false)
  /\ (forallb isWhiteSpace (DavidChat.input s) = false ->
      content = trim (DavidChat.input s))
  /\ (forallb isWhiteSpace (DavidChat.input s) = true ->
      content = lit "Check this problem").
Proof.
  intros content. subst content. cbn [DavidChat.userMessage ChatMessage.content].
  unfold or_else.
  destruct (trim (DavidChat.input s)) as [|c0 t0] eqn:Htrim; cbn [truthy].
  - apply trim_blank in Htrim. rewrite Htrim.
    split; [reflexivity|]. split; [|split; [|split]].
    + intros c t H. injection H as <- _. reflexivity.
    + intros c t H. apply (f_equal (@rev code_unit)) in H.
      rewrite rev_app_distr in H. injection H as <- _. reflexivity.
    + discriminate.
    + reflexivity.
  - assert (Hsome : forallb isWhiteSpace (DavidChat.input s) = false).
    { destruct (forallb isWhiteSpace (DavidChat.input s)) eqn:Hb;
        [|reflexivity].
      apply trim_blank in Hb. congruence. }
    rewrite Hsome. split; [reflexivity|]. split; [|split; [|split]].
    + intros c t H. rewrite <- Htrim in H. now apply trim_first in H.
    + intros c t H. rewrite <- Htrim in H. now apply trim_last in H.
    + reflexivity.
    + discriminate.
Qed.

Lemma reply_cases (r : Relay.InvokeResult Relay.ChatData) :
  (exists text, ChatSession.answered r text)
  \/ ChatSession.answeredNothing r \/ ChatSession.broke r.
Proof.
  unfold ChatSession.answered, ChatSession.answeredNothing, ChatSession.broke.
  destruct r as [reason|[d|] [err|]].
  - right. right. left. now exists reason.
  - right. right. right. left. now exists (Some d), err.
  - destruct (Relay.response d) as [[|c t]|] eqn:Hd.
    + right. left. exists d. split; [reflexivity | now right].
    + left. exists (c :: t), d. now repeat split.
    + right. left. exists d. split; [reflexivity | now left].
  - right. right. right. left. now exists None, err.
  - right. right. right. now right.
Qed.

Lemma sendMessage_settled (now later : N)
    (r : Relay.InvokeResult Relay.ChatData) (s : DavidChat.State) :
  DavidChat.nothingToSend s = false ->
  fst (DavidChat.sendMessage now later r s)
  = {| DavidChat.messages :=
         DavidChat.messages s
         ++ [DavidChat.userMessage now s; chatReply later r];
       DavidChat.input := [];
       DavidChat.isLoading := false;
       DavidChat.pendingImage := None |}.
Proof.
  intros Hgo.
  unfold DavidChat.sendMessage, DavidChat.sendMessageBegin,
    DavidChat.sendMessageSettle, chatReply.
  rewrite Hgo.
  destruct (DavidChat.replyTry later r) as [m|msg];
    cbv [DavidChat.setIsLoading DavidChat.setMessages DavidChat.setPendingImage
         DavidChat.setInput DavidChat.messages DavidChat.input
         DavidChat.isLoading DavidChat.pendingImage fst];
    now rewrite <- app_assoc.
Qed.

Lemma chatReply_shape (later : N) (r : Relay.InvokeResult Relay.ChatData) :
  ChatMessage.role (chatReply later r) = ChatMessage.assistant
  /\ ChatMessage.image (chatReply later r) = None
  /\ ChatMessage.id (chatReply later r) = toString (later + 1)
  /\ truthy (ChatMessage.content (chatReply later r)) = true.
Proof.
  unfold chatReply, DavidChat.replyTry.
  destruct r as [reason|[d|] [err|]]; repeat split.
  cbn [ChatMessage.content]. now apply or_else_truthy.
Qed.

(** X10.  A message that passes the guard always gets an answer: when
    [sendMessage] is over, the conversation has grown by the user message
    and one assistant message, the input and the pending image are
    cleared and loading is off.  The assistant message is the text of the
    relay when it sent one, the excuse "Sorry, I couldn't process that.
    Try again!" when the body has no text, and "Oops! Something went
    wrong. Please try again." for every failure, whose own message is
    never shown. *)
Theorem chat_reply_always_arrives
    (now later : N) (r : Relay.InvokeResult Relay.ChatData)
    (s : DavidChat.State) :
  DavidChat.nothingToSend s = false ->
  exists reply,
    fst (DavidChat.sendMessage now later r s)
    = {| DavidChat.messages :=
           DavidChat.messages s ++ [DavidChat.userMessage now s; reply];
         DavidChat.input := [];
         DavidChat.isLoading := false;
         DavidChat.pendingImage := None |}
    /\ ChatMessage.role reply = ChatMessage.assistant
    /\ ChatMessage.image reply = None
    /\ ChatMessage.id reply = toString (later + 1)
    /\ truthy (ChatMessage.content reply) = true
    /\ (forall text, ChatSession.answered r text ->
        ChatMessage.content reply = text)
    /\ (ChatSession.answeredNothing r ->
        ChatMessage.content reply
        = lit "Sorry, I couldn't process that. Try again!")
    /\ (ChatSession.broke r ->
        ChatMessage.content reply
        = lit "Oops! Something went wrong. Please try again.").
Proof.
  intros Hgo. exists (chatReply later r).
  split; [now apply sendMessage_settled|].
  destruct (chatReply_shape later r) as [Hrole [Himage [Hid Htruthy]]].
  repeat (split; [assumption|]).
  unfold ChatSession.answered, ChatSession.answeredNothing, ChatSession.broke.
  split; [|split].
  - intros text [d [-> [Hd Htext]]].
    unfold chatReply. cbn [DavidChat.replyTry ChatMessage.content].
    rewrite Hd. unfold or_else. now rewrite Htext.
  - intros [d [-> [Hd|Hd]]];
      unfold chatReply; cbn [DavidChat.replyTry ChatMessage.content];
      now rewrite Hd.
  - intros [[reason ->]|[[data [err ->]]| ->]]; [reflexivity| |reflexivity].
    now destruct data.
Qed.

(** X10 at a picture sent while the relay is unreachable. *)
Lemma chat_reply_always_arrives_witness :
  map ChatMessage.content
    (DavidChat.messages
       (fst (DavidChat.sendMessage 7 8 (Relay.Rejected (lit "offline"))
               Scenario.pictureOnly)))
  = [ChatMessage.content DavidChat.welcome;
     lit "Check this problem";
     lit "Oops! Something went wrong. Please try again."].
Proof.
  destruct (chat_reply_always_arrives 7 8 (Relay.Rejected (lit "offline"))
              Scenario.pictureOnly eq_refl)
    as [reply [Hs [_ [_ [_ [_ [_ [_ Hbroke]]]]]]]].
  rewrite Hs. cbn [DavidChat.messages]. rewrite map_app. cbn [map].
  rewrite Hbroke; [reflexivity|]. left. now exists (lit "offline").
Defined.

Lemma alternating_snoc (roles : list ChatMessage.Role) :
  ChatSession.alternating roles ->
  ChatSession.alternating (roles ++ [ChatMessage.user; ChatMessage.assistant]).
Proof.
  revert roles. fix IH 1. intros [|a [|b rest]]; simpl.
  - intros _. exact I.
  - destruct a; intros [].
  - destruct a, b; try (intros []). apply IH.
Qed.

Lemma userMessage_image (now : N) (s : DavidChat.State) :
  ChatMessage.image (DavidChat.userMessage now s) <> Some [].
Proof.
  cbn [DavidChat.userMessage ChatMessage.image]. unfold Relay.truthyOpt.
  destruct (DavidChat.pendingImage s) as [[|c t]|]; discriminate.
Qed.

Lemma alternating_turn (roles : list ChatMessage.Role) :
  ChatSession.alternating roles ->
  ChatSession.alternating
    (roles ++ [ChatMessage.user] ++ [ChatMessage.assistant]).
Proof. apply alternating_snoc. Qed.

Lemma begin_wellFormed (now : N) (s : DavidChat.State) :
  ChatSession.wellFormed s ->
  ChatSession.wellFormed (fst (DavidChat.sendMessageBegin now s)).
Proof.
  intros Hs. unfold DavidChat.sendMessageBegin.
  destruct (DavidChat.nothingToSend s) eqn:Hgo; [exact Hs|].
  assert (Hload : DavidChat.isLoading s = false).
  { unfold DavidChat.nothingToSend in Hgo.
    now apply orb_false_iff in Hgo as [_ Hload]. }
  destruct Hs as [[rest [Hmsgs Halt]] [Hcontent Himage]].
  rewrite Hload, app_nil_r in Halt.
  unfold ChatSession.wellFormed.
  cbv [fst DavidChat.setIsLoading DavidChat.setMessages
       DavidChat.setPendingImage DavidChat.setInput DavidChat.messages
       DavidChat.input DavidChat.isLoading DavidChat.pendingImage].
  fold (DavidChat.messages s). split; [|split].
  - exists (rest ++ [DavidChat.userMessage now s]).
    split; [now rewrite Hmsgs|].
    rewrite map_app, <- app_assoc. now apply alternating_turn.
  - apply Forall_app. split; [exact Hcontent|].
    constructor; [|constructor].
    cbn [DavidChat.userMessage ChatMessage.content].
    now apply or_else_truthy.
  - apply Forall_app. split; [exact Himage|].
    constructor; [apply userMessage_image | constructor].
Qed.

Lemma settle_wellFormed (later : N) (r : Relay.InvokeResult Relay.ChatData)
    (s : DavidChat.State) :
  DavidChat.isLoading s = true ->
  ChatSession.wellFormed s ->
  ChatSession.wellFormed (fst (DavidChat.sendMessageSettle later r s)).
Proof.
  intros Hload [[rest [Hmsgs Halt]] [Hcontent Himage]].
  rewrite Hload in Halt.
  destruct (chatReply_shape later r) as [Hrole [Hnone [_ Htruthy]]].
  assert (Hsettled :
            fst (DavidChat.sendMessageSettle later r s)
            = {| DavidChat.messages := DavidChat.messages s ++ [chatReply later r];
                 DavidChat.input := DavidChat.input s;
                 DavidChat.isLoading := false;
                 DavidChat.pendingImage := DavidChat.pendingImage s |}).
  { unfold DavidChat.sendMessageSettle, chatReply.
    now destruct (DavidChat.replyTry later r). }
  rewrite Hsettled. unfold ChatSession.wellFormed.
  cbn [DavidChat.messages DavidChat.isLoading]. split; [|split].
  - exists (rest ++ [chatReply later r]). split; [now rewrite Hmsgs|].
    rewrite map_app, app_nil_r. cbn [map]. now rewrite Hrole.
  - apply Forall_app. split; [exact Hcontent|].
    constructor; [exact Htruthy | constructor].
  - apply Forall_app. split; [exact Himage|].
    constructor; [congruence | constructor].
Qed.

Lemma chat_step_wellFormed (ev : ChatSession.Event) (s : DavidChat.State) :
  ChatSession.wellFormed s -> ChatSession.wellFormed (fst (ChatSession.step ev s)).
Proof.
  intros Hs. destruct ev as [v|[file|]| |now|key shiftKey now|later r];
    cbn [ChatSession.step fst ChatSession.handleImageUpload];
    try exact Hs.
  - now apply begin_wellFormed.
  - unfold ChatSession.handleKeyPress.
    destruct (ChatSession.sameString key (lit "Enter") && negb shiftKey);
      [now apply begin_wellFormed | exact Hs].
  - destruct (DavidChat.isLoading s) eqn:Hload;
      [now apply settle_wellFormed | exact Hs].
Qed.

Lemma chat_run_wellFormed (evs : list ChatSession.Event) (s : DavidChat.State) :
  ChatSession.wellFormed s -> ChatSession.wellFormed (ChatSession.run evs s).
Proof.
  revert s. induction evs as [|ev evs IH]; intros s Hs; simpl.
  - exact Hs.
  - apply IH. now apply chat_step_wellFormed.
Qed.

Lemma chat_initial_wellFormed : ChatSession.wellFormed DavidChat.initial.
Proof.
  split; [|split].
  - exists []. now split.
  - repeat constructor.
  - repeat constructor. discriminate.
Qed.

(** X11.  Whatever is typed, attached, removed or sent, and whenever the
    answers arrive, the conversation opens with the welcome and continues
    in turns, a user message followed by one assistant message, the last
    turn lacking its assistant message exactly while a request is in
    flight; no message has an empty text or an empty image; and no
    handler ever removes or rewrites a message: it only adds at the
    end. *)
Theorem conversation_only_grows_in_turns
    (evs : list ChatSession.Event) (ev : ChatSession.Event)
    (s : DavidChat.State) :
  ChatSession.wellFormed (ChatSession.run evs DavidChat.initial)
  /\ exists added,
       DavidChat.messages (fst (ChatSession.step ev s))
       = DavidChat.messages s ++ added.
Proof.
  split; [apply chat_run_wellFormed, chat_initial_wellFormed|].
  assert (Hsend : forall now,
             exists added,
               DavidChat.messages (fst (DavidChat.sendMessageBegin now s))
               = DavidChat.messages s ++ added).
  { intros now. unfold DavidChat.sendMessageBegin.
    destruct (DavidChat.nothingToSend s).
    - exists []. now rewrite app_nil_r.
    - eexists. reflexivity. }
  destruct ev as [v|[file|]| |now|key shiftKey now|later r];
    cbn [ChatSession.step fst ChatSession.handleImageUpload];
    try (exists []; now rewrite app_nil_r); try apply Hsend.
  - unfold ChatSession.handleKeyPress.
    destruct (ChatSession.sameString key (lit "Enter") && negb shiftKey);
      [apply Hsend | exists []; now rewrite app_nil_r].
  - destruct (DavidChat.isLoading s); [|exists []; now rewrite app_nil_r].
    unfold DavidChat.sendMessageSettle.
    destruct (DavidChat.replyTry later r); eexists; reflexivity.
Qed.

(** ** The relay *)

Section RelayPaths.

Import DavidChatRelay.

Variables (parsed : Relay.completion (option (list WireMessage)))
          (apiKey : option jsstring) (fetch : GatewayRequest -> FetchResult).

(** The [try] block ends in one of a few ways, with at most one request
    to the gateway made on the way. *)
Lemma tryServe_paths :
  (exists message fx,
     tryServe parsed apiKey fetch = (Relay.Throw message, fx)
     /\ List.length (fetches fx) <= 1)
  \/ (exists st response fx,
        tryServe parsed apiKey fetch
        = (Relay.Normal {| status := st; headers := jsonHeaders;
                           body := response |}, fx)
        /\ List.length (fetches fx) = 1
        /\ ((st = 200%N /\ exists t, response = ResponseJson t)
            \/ ((st = 429%N \/ st = 402%N)
                /\ (exists e, response = ErrorJson e)
                /\ exists request text json,
                     fetch request = Fetched st text json))).
Proof.
  unfold tryServe.
  destruct parsed as [[messages|]|m].
  - destruct (if Relay.truthyOpt apiKey then apiKey else None) as [key|];
      [|left; eexists; eexists; split; [reflexivity | simpl; lia]].
    match goal with
    | |- context [fetch ?req] => destruct (fetch req) as [m|st text json] eqn:Hf
    end.
    + left. eexists; eexists; split; [reflexivity | simpl; lia].
    + destruct (ok st) eqn:Hok; cbn [negb].
      * destruct json as [t|m];
          [|left; eexists; eexists; split; [reflexivity | simpl; lia]].
        right. eexists; eexists; eexists. split; [reflexivity|].
        split; [reflexivity|]. left. split; [reflexivity | now exists t].
      * destruct text as [errorText|m];
          [|left; eexists; eexists; split; [reflexivity | simpl; lia]].
        destruct (N.eqb_spec st 429) as [->|H429].
        -- right. eexists; eexists; eexists. split; [reflexivity|].
           split; [reflexivity|]. right. split; [now left|].
           split; [eexists; reflexivity|]. eauto.
        -- destruct (N.eqb_spec st 402) as [->|H402].
           ++ right. eexists; eexists; eexists. split; [reflexivity|].
              split; [reflexivity|]. right. split; [now right|].
              split; [eexists; reflexivity|]. eauto.
           ++ left. eexists; eexists; split; [reflexivity | simpl; lia].
  - destruct (if Relay.truthyOpt apiKey then apiKey else None) as [key|];
      left; eexists; eexists; split; try reflexivity; simpl; lia.
  - left. eexists; eexists; split; [reflexivity | simpl; lia].
Qed.

Lemma fetches_app (fx fx' : list Effect) :
  fetches (fx ++ fx') = fetches fx ++ fetches fx'.
Proof. unfold fetches. apply flat_map_app. Qed.

End RelayPaths.

(** X13.  Whatever the request, the environment and the gateway, the
    relay answers with the CORS headers and one of the statuses 200, 402,
    429 and 500; the status is 200 exactly when the body is not an error;
    429 and 402 are answered only when the gateway itself answered so;
    the gateway is called at most once, and not at all for a preflight, a
    body that cannot be read or has no messages, or a missing or empty API
    key. *)
Theorem relay_answers_match_their_status
    (method : jsstring)
    (body : Relay.completion (option (list DavidChatRelay.WireMessage)))
    (apiKey : option jsstring)
    (fetch : DavidChatRelay.GatewayRequest -> DavidChatRelay.FetchResult) :
  let response := fst (DavidChatRelay.handler method body apiKey fetch) in
  let fx := snd (DavidChatRelay.handler method body apiKey fetch) in
  let st := DavidChatRelay.status response in
  incl DavidChatRelay.corsHeaders (DavidChatRelay.headers response)
  /\ (st = 200 \/ st = 402 \/ st = 429 \/ st = 500)%N
  /\ (st = 200%N <->
      forall e, DavidChatRelay.body response <> DavidChatRelay.ErrorJson e)
  /\ (st = 429%N \/ st = 402%N ->
      exists request text json,
        fetch request = DavidChatRelay.Fetched st text json)
  /\ List.length (DavidChatRelay.fetches fx) <= 1
  /\ (ChatSession.sameString method (lit "OPTIONS") = true
      \/ (exists m, body = Relay.Throw m)
      \/ body = Relay.Normal None
      \/ Relay.truthyOpt apiKey = false ->
      DavidChatRelay.fetches fx = []).
Proof.
  intros response fx st. subst response fx st.
  unfold DavidChatRelay.handler.
  destruct (ChatSession.sameString method (lit "OPTIONS")) eqn:Hm.
  - cbn [fst snd DavidChatRelay.status DavidChatRelay.headers
         DavidChatRelay.body DavidChatRelay.fetches flat_map List.length].
    split; [apply incl_refl|]. split; [now left|].
    split; [split; [discriminate | reflexivity]|].
    split; [intros [H|H]; discriminate|]. split; [lia | reflexivity].
  - assert (Hnone :
              (exists m, body = Relay.Throw m) \/ body = Relay.Normal None
              \/ Relay.truthyOpt apiKey = false ->
              DavidChatRelay.fetches
                (snd (DavidChatRelay.tryServe body apiKey fetch)) = []).
    { unfold DavidChatRelay.tryServe.
      intros [[m ->]|[->|Hkey]]; [reflexivity| |].
      - now destruct (if Relay.truthyOpt apiKey then apiKey else None).
      - rewrite Hkey. now destruct body as [messages|m]. }
    destruct (tryServe_paths body apiKey fetch)
      as [[message [fx [Hrun Hone]]]
         |[st [response [fx [Hrun [Hone Hkind]]]]]];
      rewrite Hrun in *;
      cbn [fst snd DavidChatRelay.status DavidChatRelay.headers
           DavidChatRelay.body] in *.
    + rewrite fetches_app. cbn [DavidChatRelay.fetches flat_map].
      rewrite app_nil_r.
      split; [apply incl_appl, incl_refl|]. split; [now repeat right|].
      split; [split; [discriminate | intros H; now elim (H message)]|].
      split; [intros [H|H]; discriminate|]. split; [exact Hone|].
      intros [H|H]; [discriminate | now apply Hnone].
    + split; [apply incl_appl, incl_refl|].
      destruct Hkind as [[-> [t ->]]|[Hst [[e ->] Hgate]]].
      * split; [now left|]. split; [split; [discriminate | reflexivity]|].
        split; [intros [H|H]; discriminate|]. split; [lia|].
        intros [H|H]; [discriminate | now apply Hnone].
      * split; [destruct Hst as [->| ->]; auto|].
        split; [split; [destruct Hst; subst; discriminate
                       | intros H; now elim (H e)]|].
        split; [intros _; exact Hgate|]. split; [lia|].
        intros [H|H]; [discriminate | now apply Hnone].
Qed.

(** X13 at a gateway that answers 503 and at a preflight. *)
Lemma relay_answers_match_their_status_witness :
  fst (DavidChatRelay.handler (lit "POST") (Relay.Normal (Some []))
         (Some (lit "key"))
         (fun _ => DavidChatRelay.Fetched 503 (Relay.Normal (lit "down"))
                     (Relay.Throw [])))
  = {| DavidChatRelay.status := 500;
       DavidChatRelay.headers := DavidChatRelay.jsonHeaders;
       DavidChatRelay.body :=
         DavidChatRelay.ErrorJson (lit "AI gateway error: 503") |}
  /\ DavidChatRelay.fetches
       (snd (DavidChatRelay.handler (lit "OPTIONS") (Relay.Throw [])
               None (fun _ => DavidChatRelay.NetworkError [])))
     = [].
Proof.
  destruct (relay_answers_match_their_status (lit "OPTIONS") (Relay.Throw [])
              None (fun _ => DavidChatRelay.NetworkError []))
    as [_ [_ [_ [_ [_ Hnone]]]]].
  split; [reflexivity | apply Hnone; now left].
Defined.

Lemma format_forwarded (m : ChatMessage.t) :
  truthy (ChatMessage.content m) = true ->
  ChatMessage.image m <> Some [] ->
  DavidChatRelay.format (DavidChatRelay.received (ChatMessage.wire m))
  = DavidChatRelay.forwarded m.
Proof.
  intros Hcontent Himage.
  unfold DavidChatRelay.format, DavidChatRelay.received, ChatMessage.wire,
    DavidChatRelay.forwarded.
  cbn [DavidChatRelay.image DavidChatRelay.content DavidChatRelay.role].
  destruct (ChatMessage.image m) as [[|c t]|] eqn:Hi;
    [now elim Himage| |reflexivity].
  cbn [Relay.truthyOpt truthy]. unfold or_else. now rewrite Hcontent.
Qed.

Lemma tryServe_fetches
    (messages : list DavidChatRelay.WireMessage) (key : jsstring)
    (fetch : DavidChatRelay.GatewayRequest -> DavidChatRelay.FetchResult) :
  truthy key = true ->
  DavidChatRelay.fetches
    (snd (DavidChatRelay.tryServe (Relay.Normal (Some messages)) (Some key)
            fetch))
  = [{| DavidChatRelay.authorization := lit "Bearer " ++ key;
        DavidChatRelay.model := lit "google/gemini-2.5-flash";
        DavidChatRelay.gatewayMessages :=
          {| DavidChatRelay.gatewayRole := lit "system";
             DavidChatRelay.gatewayContent :=
               DavidChatRelay.Plain DavidChatRelay.systemPrompt |}
          :: map DavidChatRelay.format messages |}].
Proof.
  intros Hkey. unfold DavidChatRelay.tryServe.
  cbn [Relay.truthyOpt]. rewrite Hkey.
  match goal with
  | |- context [fetch ?req] => destruct (fetch req) as [m|st text json]
  end; [reflexivity|].
  destruct (DavidChatRelay.ok st); cbn [negb].
  - now destruct json.
  - destruct text; [|reflexivity].
    destruct (st =? 429)%N; [reflexivity|].
    now destruct (st =? 402)%N.
Qed.

(** X12.  For the request [sendMessage] sends from any state the chat
    reaches, the relay (given an API key) calls the gateway once, with
    the system prompt followed by every message of the conversation in
    order, the new user message last: each with its role and its text as
    written, preceded by its image when it has one.  The fallback text of
    the relay is never used for these requests. *)
Theorem relay_forwards_conversation_as_written
    (evs : list ChatSession.Event) (now : N) (method key : jsstring)
    (fetch : DavidChatRelay.GatewayRequest -> DavidChatRelay.FetchResult) :
  let s := ChatSession.run evs DavidChat.initial in
  let conversation := DavidChat.messages s ++ [DavidChat.userMessage now s] in
  let sent := map ChatMessage.wire conversation in
  ChatSession.sameString method (lit "OPTIONS") = false ->
  truthy key = true ->
  DavidChatRelay.fetches
    (snd (DavidChatRelay.handler method
            (Relay.Normal (Some (map DavidChatRelay.received sent)))
            (Some key) fetch))
  = [{| DavidChatRelay.authorization := lit "Bearer " ++ key;
        DavidChatRelay.model := lit "google/gemini-2.5-flash";
        DavidChatRelay.gatewayMessages :=
          {| DavidChatRelay.gatewayRole := lit "system";
             DavidChatRelay.gatewayContent :=
               DavidChatRelay.Plain DavidChatRelay.systemPrompt |}
          :: map DavidChatRelay.forwarded conversation |}].
Proof.
  intros s conversation sent Hmethod Hkey.
  assert (Hsame : map DavidChatRelay.format (map DavidChatRelay.received sent)
                  = map DavidChatRelay.forwarded conversation).
  { subst sent. rewrite !map_map. apply map_ext_in. intros m Hm.
    destruct (chat_run_wellFormed evs _ chat_initial_wellFormed)
      as [_ [Hcontent Himage]].
    fold s in Hcontent, Himage. rewrite Forall_forall in Hcontent, Himage.
    subst conversation. apply in_app_or in Hm as [Hm|[<-|[]]].
    - apply format_forwarded; auto.
    - apply format_forwarded; [|apply userMessage_image].
      cbn [DavidChat.userMessage ChatMessage.content].
      now apply or_else_truthy. }
  unfold DavidChatRelay.handler. rewrite Hmethod.
  pose proof (tryServe_fetches (map DavidChatRelay.received sent) key fetch Hkey)
    as Hfetch.
  destruct (DavidChatRelay.tryServe
              (Relay.Normal (Some (map DavidChatRelay.received sent)))
              (Some key) fetch) as [[response|message] fx];
    cbn [snd] in *.
  - now rewrite Hfetch, Hsame.
  - rewrite fetches_app, Hfetch, Hsame. reflexivity.
Qed.

(** X12 at a picture sent with a blank input as the first message. *)
Lemma relay_forwards_conversation_as_written_witness :
  map DavidChatRelay.gatewayContent
    (List.concat
       (map DavidChatRelay.gatewayMessages
          (DavidChatRelay.fetches
             (snd (DavidChatRelay.handler (lit "POST")
                     (Relay.Normal
                        (Some
                           (map DavidChatRelay.received
                              (map ChatMessage.wire
                                 (DavidChat.messages
                                    (ChatSession.run
                                       [ChatSession.ImageChosen
                                          (Some Scenario.capture)]
                                       DavidChat.initial)
                                  ++ [DavidChat.userMessage 7
                                        (ChatSession.run
                                           [ChatSession.ImageChosen
                                              (Some Scenario.capture)]
                                           DavidChat.initial)])))))
                     (Some (lit "key"))
                     (fun _ => DavidChatRelay.NetworkError []))))))
  = [DavidChatRelay.Plain DavidChatRelay.systemPrompt;
     DavidChatRelay.Plain (ChatMessage.content DavidChat.welcome);
     DavidChatRelay.Parts
       [DavidChatRelay.ImageUrl Scenario.capture;
        DavidChatRelay.Text (lit "Check this problem")]].
Proof.
  rewrite (relay_forwards_conversation_as_written
             [ChatSession.ImageChosen (Some Scenario.capture)] 7
             (lit "POST") (lit "key")
             (fun _ => DavidChatRelay.NetworkError []) eq_refl eq_refl).
  reflexivity.
Defined.

(** ** Whole drags *)

Section FreehandDrag.

Import FreehandPreview.

Variable rect : DOMRect.

(** Moves, rendered or not as they come, append their positions in
    order: each goes through the function form of the setter. *)
Lemma freehand_course (c : Drag.course) (m : Mounted) :
  isDrawing (rendered m) = true -> drawMode (rendered m) = true ->
  isDrawing (latest m) = true -> drawMode (latest m) = true ->
  latest (play (Drag.freehandMoves rect c) m)
  = setCurrentPath (fun prev => prev ++ Drag.moved rect c) (latest m).
Proof.
  revert m. induction c as [|[e|] c IH]; intros m Hd Hm Hd' Hm'.
  - simpl. destruct (latest m). unfold setCurrentPath. simpl.
    now rewrite app_nil_r.
  - cbn [Drag.freehandMoves map play happen handle fst].
    unfold Closure.handleMouseMove at 1. rewrite Hd, Hm. cbn [negb orb].
    change (map _ c) with (Drag.freehandMoves rect c).
    rewrite IH by assumption.
    cbn [latest]. destruct (latest m). unfold setCurrentPath. simpl.
    now rewrite <- app_assoc.
  - cbn [Drag.freehandMoves map play happen fst].
    change (map _ c) with (Drag.freehandMoves rect c).
    now rewrite IH.
Qed.

End FreehandDrag.

Section CircleDrag.

Import CirclePreview.

Variable rect : DOMRect.

(** Moves, rendered or not as they come, change nothing but the circle in
    progress. *)
Lemma circle_course (c : Drag.course) (a : Geometry.Point) (m : Mounted) :
  isDrawing (rendered m) = true -> drawStart (rendered m) = Some a ->
  isDrawing (latest m) = true -> drawStart (latest m) = Some a ->
  let m' := play (Drag.circleMoves rect c) m in
  isDrawing (rendered m') = true /\ drawStart (rendered m') = Some a
  /\ exists cc, latest m' = setCurrentCircle cc (latest m).
Proof.
  revert m. induction c as [|[e|] c IH]; intros m Hd Ha Hd' Ha'; cbv zeta.
  - simpl. repeat split; try assumption.
    exists (currentCircle (latest m)). now destruct (latest m).
  - cbn [Drag.circleMoves map play happen handle fst].
    change (map _ c) with (Drag.circleMoves rect c).
    rewrite (extend_circleThrough _ _ e rect a Hd Ha).
    match goal with
    | |- context [play _ ?m1] =>
        destruct (IH m1) as [Hd1 [Ha1 [cc Hcc]]]; try assumption
    end.
    repeat split; try assumption.
    exists cc. rewrite Hcc. cbn [latest]. now destruct (latest m).
  - cbn [Drag.circleMoves map play happen fst].
    change (map _ c) with (Drag.circleMoves rect c).
    destruct (IH (mount (latest m))) as [Hd1 [Ha1 [cc Hcc]]];
      try assumption.
    repeat split; try assumption. now exists cc.
Qed.

End CircleDrag.

Lemma play_freehand_app (hs hs' : list FreehandPreview.Happening)
    (m : FreehandPreview.Mounted) :
  FreehandPreview.play (hs ++ hs') m
  = FreehandPreview.play hs' (FreehandPreview.play hs m).
Proof.
  revert m. induction hs as [|h hs IH]; intros m; [reflexivity|].
  simpl. apply IH.
Qed.

Lemma play_circle_app (hs hs' : list CirclePreview.Happening)
    (m : CirclePreview.Mounted) :
  CirclePreview.play (hs ++ hs') m
  = CirclePreview.play hs' (CirclePreview.play hs m).
Proof.
  revert m. induction hs as [|h hs IH]; intros m; [reflexivity|].
  simpl. apply IH.
Qed.

(** X16.  While sharing in draw mode, a press that is rendered, pointer
    moves, rendered or not as they come, and a release handled once the
    last of them is rendered commit, in the freehand variant, the polyline
    through exactly the pointer positions of the press and of every move,
    in order, when there was at least one move, and nothing otherwise; in
    the circle variant, the circle spanned by the press and the last move
    alone, when its radius exceeds 10.  In both cases nothing stays in
    progress. *)
Theorem drag_commits_what_was_drawn
    (rect : DOMRect) (e0 e : MouseEvent) (c : Drag.course)
    (s : CirclePreview.State) (t : FreehandPreview.State) :
  CirclePreview.isSharing s = true -> CirclePreview.drawMode s = true ->
  FreehandPreview.isSharing t = true -> FreehandPreview.drawMode t = true ->
  let spanned :=
    CirclePreview.circleThrough (Geometry.pointer e0 rect)
      (Geometry.pointer e rect) in
  let s' :=
    CirclePreview.latest
      (CirclePreview.play (Drag.circleDrag rect e0 c e)
         (CirclePreview.mount s)) in
  let t' :=
    FreehandPreview.latest
      (FreehandPreview.play (Drag.freehandDrag rect e0 c)
         (FreehandPreview.mount t)) in
  CirclePreview.circles s'
  = CirclePreview.circles s
    ++ (if gt (CirclePreview.radius spanned) 10 then [spanned] else [])
  /\ CirclePreview.currentCircle s' = None
  /\ CirclePreview.isDrawing s' = false
  /\ FreehandPreview.paths t'
     = FreehandPreview.paths t
       ++ match Drag.moved rect c with
          | [] => []
          | _ :: _ =>
              [{| FreehandPreview.points :=
                    Geometry.pointer e0 rect :: Drag.moved rect c |}]
          end
  /\ FreehandPreview.currentPath t' = []
  /\ FreehandPreview.isDrawing t' = false.
Proof.
  intros Hs Hm Ht Hm' spanned s' t'. subst s' t'.
  unfold Drag.circleDrag, Drag.freehandDrag.
  cbn [CirclePreview.play CirclePreview.happen CirclePreview.handle
       CirclePreview.mount CirclePreview.rendered CirclePreview.latest
       FreehandPreview.play FreehandPreview.happen FreehandPreview.handle
       FreehandPreview.mount FreehandPreview.rendered FreehandPreview.latest
       fst].
  unfold CirclePreview.Closure.handleMouseDown at 1 2 3.
  unfold FreehandPreview.Closure.handleMouseDown at 1 2 3.
  rewrite Hs, Hm, Ht, Hm'. cbn [negb orb].
  rewrite !play_circle_app, !play_freehand_app.
  match goal with
  | |- context [CirclePreview.play (Drag.circleMoves _ _) ?m] =>
      destruct (circle_course rect c (Geometry.pointer e0 rect) m
                  eq_refl eq_refl eq_refl eq_refl)
        as [Hd [Ha [cc Hcc]]];
      cbv zeta in Hd, Ha, Hcc;
      set (m1 := CirclePreview.play (Drag.circleMoves rect c) m) in *
  end.
  cbn [CirclePreview.play CirclePreview.happen CirclePreview.handle
       CirclePreview.mount CirclePreview.rendered CirclePreview.latest
       fst].
  rewrite (extend_circleThrough _ _ e rect _ Hd Ha).
  set (t1 := FreehandPreview.play (Drag.freehandMoves rect c) _).
  cbn [FreehandPreview.play FreehandPreview.happen FreehandPreview.handle
       FreehandPreview.mount FreehandPreview.rendered FreehandPreview.latest
       fst].
  subst t1. rewrite (freehand_course rect c) by (try reflexivity; exact Hm').
  cbn [FreehandPreview.mount FreehandPreview.latest].
  split; [|split; [|split; [|split; [|split]]]].
  - rewrite release_circles, Hcc.
    cbn [CirclePreview.currentCircle CirclePreview.setCurrentCircle
         CirclePreview.circles CirclePreview.setIsDrawing
         CirclePreview.setDrawStart CirclePreview.latest].
    subst spanned.
    destruct (gt (CirclePreview.radius
                    (CirclePreview.circleThrough (Geometry.pointer e0 rect)
                       (Geometry.pointer e rect))) 10);
      [reflexivity | now rewrite app_nil_r].
  - apply release_clears_circle.
  - apply release_clears_circle.
  - rewrite release_paths.
    cbn [FreehandPreview.currentPath FreehandPreview.setCurrentPath
         FreehandPreview.setIsDrawing FreehandPreview.paths app List.length].
    destruct (Drag.moved rect c) as [|p1 ps]; simpl;
      [now rewrite app_nil_r | reflexivity].
  - reflexivity.
  - reflexivity.
Qed.

(** X16 at a drag from (100,100) through (500,7), rendered at once, to
    (200,100). *)
Lemma drag_commits_what_was_drawn_witness :
  CirclePreview.circles
    (CirclePreview.latest
       (CirclePreview.play
          (Drag.circleDrag Scenario.container (Scenario.pointerAt 100 100)
             [Some (Scenario.pointerAt 500 7); None]
             (Scenario.pointerAt 200 100))
          Scenario.circleReady))
  = [{| CirclePreview.x := 150; CirclePreview.y := 100;
        CirclePreview.radius := 50 |}]
  /\ FreehandPreview.paths
       (FreehandPreview.latest
          (FreehandPreview.play
             (Drag.freehandDrag Scenario.container (Scenario.pointerAt 100 100)
                [Some (Scenario.pointerAt 500 7); None;
                 Some (Scenario.pointerAt 200 100)])
             Scenario.freehandReady))
     = [{| FreehandPreview.points :=
             [{| Geometry.x := 100; Geometry.y := 100 |};
              {| Geometry.x := 500; Geometry.y := 7 |};
              {| Geometry.x := 200; Geometry.y := 100 |}] |}].
Proof.
  destruct (drag_commits_what_was_drawn Scenario.container
              (Scenario.pointerAt 100 100) (Scenario.pointerAt 200 100)
              [Some (Scenario.pointerAt 500 7); None]
              (CirclePreview.run
                 [CirclePreview.StartScreenShare (Some Scenario.screen);
                  CirclePreview.ToggleDrawMode] CirclePreview.initial)
              (FreehandPreview.run
                 [FreehandPreview.StartScreenShare (Some Scenario.screen);
                  FreehandPreview.ToggleDrawMode] FreehandPreview.initial)
              eq_refl eq_refl eq_refl eq_refl)
    as [Hc _].
  destruct (drag_commits_what_was_drawn Scenario.container
              (Scenario.pointerAt 100 100) (Scenario.pointerAt 200 100)
              [Some (Scenario.pointerAt 500 7); None;
               Some (Scenario.pointerAt 200 100)]
              (CirclePreview.run
                 [CirclePreview.StartScreenShare (Some Scenario.screen);
                  CirclePreview.ToggleDrawMode] CirclePreview.initial)
              (FreehandPreview.run
                 [FreehandPreview.StartScreenShare (Some Scenario.screen);
                  FreehandPreview.ToggleDrawMode] FreehandPreview.initial)
              eq_refl eq_refl eq_refl eq_refl)
    as [_ [_ [_ [Hf _]]]].
  split; [exact Hc | exact Hf].
Defined.

(** X15.  No event changes, reorders or removes a single committed shape:
    after any event the committed shapes are what they were, or all gone,
    or what they were followed by the shape that was in progress, which
    then meets its retention threshold. *)
Theorem shapes_are_only_appended_or_cleared
    (ev : CirclePreview.Event) (s : CirclePreview.State)
    (ev' : FreehandPreview.Event) (t : FreehandPreview.State) :
  (CirclePreview.circles (fst (CirclePreview.step ev s))
   = CirclePreview.circles s
   \/ CirclePreview.circles (fst (CirclePreview.step ev s)) = []
   \/ exists c,
        CirclePreview.currentCircle s = Some c
        /\ CirclePreview.retained c
        /\ CirclePreview.circles (fst (CirclePreview.step ev s))
           = CirclePreview.circles s ++ [c])
  /\
  (FreehandPreview.paths (fst (FreehandPreview.step ev' t))
   = FreehandPreview.paths t
   \/ FreehandPreview.paths (fst (FreehandPreview.step ev' t)) = []
   \/ (FreehandPreview.retained (FreehandPreview.currentPath t)
       /\ FreehandPreview.paths (fst (FreehandPreview.step ev' t))
          = FreehandPreview.paths t
            ++ [{| FreehandPreview.points := FreehandPreview.currentPath t |}])).
Proof.
  split.
  - assert (Hup : CirclePreview.circles (CirclePreview.handleMouseUp s)
                  = CirclePreview.circles s
                  \/ CirclePreview.circles (CirclePreview.handleMouseUp s) = []
                  \/ exists c,
                       CirclePreview.currentCircle s = Some c
                       /\ CirclePreview.retained c
                       /\ CirclePreview.circles (CirclePreview.handleMouseUp s)
                          = CirclePreview.circles s ++ [c]).
    { rewrite mouseUp_circles.
      destruct (CirclePreview.currentCircle s) as [c|]; [|now left].
      destruct (gt (CirclePreview.radius c) 10) eqn:Hr; [|now left].
      right. right. now exists c. }
    destruct ev; cbn [CirclePreview.step fst]; try exact Hup;
      try (now left); try (now right; left).
    + unfold CirclePreview.startScreenShare.
      destruct granted as [ms|]; [destruct (videoTracks ms)|]; now left.
    + unfold CirclePreview.handleMouseDown,
        CirclePreview.Closure.handleMouseDown.
      split_guards; now left.
    + unfold CirclePreview.handleMouseMove,
        CirclePreview.Closure.handleMouseMove.
      split_guards; now left.
    + unfold CirclePreview.stopSharing, CirclePreview.Closure.stopSharing.
      destruct (CirclePreview.stream s); now right; left.
  - assert (Hup : FreehandPreview.paths (FreehandPreview.handleMouseUp t)
                  = FreehandPreview.paths t
                  \/ FreehandPreview.paths (FreehandPreview.handleMouseUp t) = []
                  \/ (FreehandPreview.retained (FreehandPreview.currentPath t)
                      /\ FreehandPreview.paths (FreehandPreview.handleMouseUp t)
                         = FreehandPreview.paths t
                           ++ [{| FreehandPreview.points :=
                                    FreehandPreview.currentPath t |}])).
    { rewrite mouseUp_paths. unfold FreehandPreview.retained.
      destruct (Nat.ltb_spec 1 (List.length (FreehandPreview.currentPath t)));
        [right; right; split; [lia | reflexivity] | now left]. }
    destruct ev'; cbn [FreehandPreview.step fst]; try exact Hup;
      try (now left); try (now right; left).
    + unfold FreehandPreview.startScreenShare.
      destruct granted as [ms|]; [destruct (videoTracks ms)|]; now left.
    + unfold FreehandPreview.handleMouseDown,
        FreehandPreview.Closure.handleMouseDown.
      split_guards; now left.
    + unfold FreehandPreview.handleMouseMove,
        FreehandPreview.Closure.handleMouseMove.
      split_guards; now left.
    + unfold FreehandPreview.stopSharing, FreehandPreview.Closure.stopSharing.
      destruct (FreehandPreview.stream t); now right; left.
Qed.

(** ** Whatever React renders, and whenever *)

Section Threshold.

Import CirclePreview.

Let kept (m : Mounted) : Prop :=
  Forall retained (circles (rendered m))
  /\ Forall retained (circles (latest m)).

Lemma circle_happen_kept (h : Happening) (m : Mounted) :
  kept m -> kept (fst (happen h m)).
Proof.
  intros [Hr Hl]. destruct h as [ev|]; [|now split].
  split.
  { unfold happen, handle.
    destruct ev; cbn [fst rendered]; try exact Hr.
    - destruct (startScreenShare granted (latest m)). exact Hr.
    - destruct (Closure.stopSharing (rendered m) (latest m)). exact Hr. }
  unfold happen, handle.
  destruct ev; cbn [fst latest]; try exact Hl; try (now constructor).
  - unfold startScreenShare.
    destruct granted as [ms|]; [destruct (videoTracks ms)|]; exact Hl.
  - unfold Closure.handleMouseDown. split_guards; exact Hl.
  - unfold Closure.handleMouseMove. split_guards; exact Hl.
  - rewrite release_circles.
    destruct (currentCircle (rendered m)) as [c|]; [|exact Hl].
    destruct (gt (radius c) 10) eqn:Hc; [|exact Hl].
    apply Forall_app. split; [exact Hl | now repeat constructor].
  - rewrite release_circles.
    destruct (currentCircle (rendered m)) as [c|]; [|exact Hl].
    destruct (gt (radius c) 10) eqn:Hc; [|exact Hl].
    apply Forall_app. split; [exact Hl | now repeat constructor].
  - unfold Closure.stopSharing.
    destruct (stream (rendered m)); now constructor.
Qed.

Lemma circle_play_kept (hs : list Happening) (m : Mounted) :
  kept m -> kept (play hs m).
Proof.
  revert m. induction hs as [|h hs IH]; intros m Hm; [exact Hm|].
  simpl. apply IH. now apply circle_happen_kept.
Qed.

End Threshold.

Section ThresholdFreehand.

Import FreehandPreview.

Let kept (m : Mounted) : Prop :=
  Forall (fun p => retained (points p)) (paths (rendered m))
  /\ Forall (fun p => retained (points p)) (paths (latest m)).

Lemma freehand_happen_kept (h : Happening) (m : Mounted) :
  kept m -> kept (fst (happen h m)).
Proof.
  intros [Hr Hl]. destruct h as [ev|]; [|now split].
  split.
  { unfold happen, handle.
    destruct ev; cbn [fst rendered]; try exact Hr.
    - destruct (startScreenShare granted (latest m)). exact Hr.
    - destruct (Closure.stopSharing (rendered m) (latest m)). exact Hr. }
  unfold happen, handle.
  destruct ev; cbn [fst latest]; try exact Hl; try (now constructor).
  - unfold startScreenShare.
    destruct granted as [ms|]; [destruct (videoTracks ms)|]; exact Hl.
  - unfold Closure.handleMouseDown. split_guards; exact Hl.
  - unfold Closure.handleMouseMove. split_guards; exact Hl.
  - rewrite release_paths.
    destruct (Nat.ltb_spec 1 (List.length (currentPath (rendered m))));
      [|exact Hl].
    apply Forall_app. split; [exact Hl|]. constructor; [|constructor].
    unfold retained. simpl. lia.
  - rewrite release_paths.
    destruct (Nat.ltb_spec 1 (List.length (currentPath (rendered m))));
      [|exact Hl].
    apply Forall_app. split; [exact Hl|]. constructor; [|constructor].
    unfold retained. simpl. lia.
  - unfold Closure.stopSharing.
    destruct (stream (rendered m)); now constructor.
Qed.

Lemma freehand_play_kept (hs : list Happening) (m : Mounted) :
  kept m -> kept (play hs m).
Proof.
  revert m. induction hs as [|h hs IH]; intros m Hm; [exact Hm|].
  simpl. apply IH. now apply freehand_happen_kept.
Qed.

End ThresholdFreehand.

(** X17.  Whatever reaches the handlers and whenever React renders, every
    committed circle has a radius above 10 and every committed freehand
    path at least two points, in the state the handlers see and in the
    state their updates have reached. *)
Theorem committed_shapes_meet_threshold
    (hs : list CirclePreview.Happening) (hs' : list FreehandPreview.Happening) :
  let m := CirclePreview.play hs (CirclePreview.mount CirclePreview.initial) in
  let m' :=
    FreehandPreview.play hs' (FreehandPreview.mount FreehandPreview.initial) in
  Forall CirclePreview.retained
    (CirclePreview.circles (CirclePreview.rendered m))
  /\ Forall CirclePreview.retained
       (CirclePreview.circles (CirclePreview.latest m))
  /\ Forall (fun p => 2 <= List.length (FreehandPreview.points p))
       (FreehandPreview.paths (FreehandPreview.rendered m'))
  /\ Forall (fun p => 2 <= List.length (FreehandPreview.points p))
       (FreehandPreview.paths (FreehandPreview.latest m')).
Proof.
  intros m m'.
  destruct (circle_play_kept hs (CirclePreview.mount CirclePreview.initial))
    as [Hr Hl]; [split; constructor|].
  destruct (freehand_play_kept hs'
              (FreehandPreview.mount FreehandPreview.initial))
    as [Hr' Hl']; [split; constructor|].
  repeat split; assumption.
Qed.
